(** * psdlite: the block reader and writer of [src/psd.cpp]

    A shallow embedding of the PSD document codec.  Streams are explicit
    values, every C++ member function becomes a function from the object
    and the stream to the returned flag, the updated object and the
    updated stream.  Fixed-width integers are [Z] with the wrap-around
    written out. *)

From Stdlib Require Import ZArith List Bool Lia.
From coqutil Require Import Byte.
Import ListNotations.
Local Open Scope Z_scope.

(** ** Raw storage *)

(** [raw n] is the object representation of a fixed-layout field of [n]
    bytes ([sizeof] = [n]), in address order. *)
Fixpoint raw (n : nat) : Type :=
  match n with
  | O => unit
  | S k => (byte * raw k)%type
  end.

Fixpoint raw_bytes {n : nat} : raw n -> list byte :=
  match n with
  | O => fun _ => []
  | S k => fun v => fst v :: raw_bytes (snd v)
  end.

Fixpoint raw_of (n : nat) (l : list byte) : raw n :=
  match n with
  | O => tt
  | S k => (hd Byte.x00 l, raw_of k (tl l))
  end.

(** [v.resize(n)] of a [std::string] or [std::vector<char>]: the first
    [n] elements are kept, new elements are value-initialised. *)
Definition resize (n : Z) (v : list byte) : list byte :=
  firstn (Z.to_nat n) v ++ repeat Byte.x00 (Z.to_nat n - length v).

(** [v.size()]. *)
Definition len (v : list byte) : Z := Z.of_nat (length v).

(** ** Fixed-width arithmetic *)

Definition wrap8 (z : Z) : Z := z mod 2 ^ 8.
Definition wrap16 (z : Z) : Z := z mod 2 ^ 16.
Definition wrap32 (z : Z) : Z := z mod 2 ^ 32.

(** Value of a 16-bit pattern read as [int16_t]. *)
Definition signed16 (z : Z) : Z :=
  if wrap16 z <? 2 ^ 15 then wrap16 z else wrap16 z - 2 ^ 16.

(** ** Big-endian scalars *)

(** Modelled from the spec: the class template [be<T>] is declared in
    [psd.h], which is not part of the sources.  Section 4.1 of the spec
    fixes it: the object holds the bytes in stream order and converts to
    the value they denote most significant byte first. *)
Fixpoint be_val (l : list byte) : Z :=
  match l with
  | [] => 0
  | b :: t => byte.unsigned b * 256 ^ Z.of_nat (length t) + be_val t
  end.

Fixpoint be_bytes (n : nat) (z : Z) : list byte :=
  match n with
  | O => []
  | S k => byte.of_Z (z / 256 ^ Z.of_nat k) :: be_bytes k z
  end.

Definition be_get {n : nat} (v : raw n) : Z := be_val (raw_bytes v).
Definition be_put (n : nat) (z : Z) : raw n := raw_of n (be_bytes n z).

(** A four character literal such as ["8BIM"], as bytes. *)
Definition magic_8BIM : list byte := [Byte.x38; Byte.x42; Byte.x49; Byte.x4d].
Definition magic_8B64 : list byte := [Byte.x38; Byte.x42; Byte.x36; Byte.x34].
Definition magic_8BPS : list byte := [Byte.x38; Byte.x42; Byte.x50; Byte.x53].
Definition key_luni : list byte := [Byte.x6c; Byte.x75; Byte.x6e; Byte.x69].
Definition key_TySh : list byte := [Byte.x54; Byte.x79; Byte.x53; Byte.x68].

Definition bytes_eqb (a b : list byte) : bool :=
  if list_eq_dec Byte.byte_eq_dec a b then true else false.

(** Modelled from the spec: [Signature] is declared in [psd.h].  It holds
    four bytes and compares equal to a literal when the four bytes are
    the literal's characters. *)
Definition Signature : Type := raw 4.
Definition sig_eqb (s : Signature) (lit : list byte) : bool :=
  bytes_eqb (raw_bytes s) lit.

(** ** Streams *)

(** An input stream over a fixed byte sequence: the bytes before the get
    position, the bytes from it on, and the fail flag.  [read] sets
    [eofbit] and [failbit] together, so one flag is enough. *)
Record istream : Type := mkIstream {
  consumed : list byte;
  pending : list byte;
  failbit : bool
}.

(** [f.tellg()]: the position, or -1 once the stream has failed. *)
Definition tellg (f : istream) : Z :=
  if failbit f then -1 else len (consumed f).

(** [f.read(dst, n)]: [n] bytes are extracted into [dst]; when fewer are
    left those are stored, the rest of [dst] keeps what it held, and the
    stream fails.  Nothing happens on a failed stream. *)
Definition stream_read (n : Z) (dst : list byte) (f : istream)
  : list byte * istream :=
  if failbit f then (dst, f)
  else if n <=? len (pending f) then
    (firstn (Z.to_nat n) (pending f),
     mkIstream (consumed f ++ firstn (Z.to_nat n) (pending f))
               (skipn (Z.to_nat n) (pending f)) false)
  else
    (pending f ++ skipn (length (pending f)) dst,
     mkIstream (consumed f ++ pending f) [] true).

(** [f.seekg(off, std::ios::cur)] for [off >= 0]; seeking past the last
    byte fails, as it does for an in-memory buffer ([std::stringbuf]).  A
    file buffer accepts such a position, so a property meant for every
    stream keeps its seeks within the bytes of the stream. *)
Definition seekg_cur (off : Z) (f : istream) : istream :=
  if failbit f then f
  else if off <=? len (pending f) then
    mkIstream (consumed f ++ firstn (Z.to_nat off) (pending f))
              (skipn (Z.to_nat off) (pending f)) false
  else mkIstream (consumed f) (pending f) true.

(** [f.seekg(0)]. *)
Definition seekg_start (f : istream) : istream :=
  if failbit f then f
  else mkIstream [] (consumed f ++ pending f) false.

(** An output stream is the sequence of bytes written so far. *)
Definition ostream : Type := list byte.
Definition tellp (f : ostream) : Z := len f.
Definition stream_write (bytes : list byte) (f : ostream) : ostream := f ++ bytes.

(** A fresh stream positioned at the first of [bytes]. *)
Definition istream_of (bytes : list byte) : istream := mkIstream [] bytes false.

(** [padded_size<padding>(size)], in [uint32_t]. *)
Definition padded_size (padding : Z) (size : Z) : Z :=
  wrap32 (wrap32 (wrap32 size + wrap32 (padding - 1)) / padding * padding).

(** ** Image Resource Block (psd.cpp, lines 14-90) *)
Module ImageResourceBlock.

(** Modelled from the spec: the members are declared in [psd.h];
    [image_resource_id] is the 2-byte id of section 3 of the spec, [name]
    and [buffer] are the string and the vector the code resizes. *)
Record t : Type := mk {
  signature : Signature;
  image_resource_id : raw 2;
  name : list byte;
  buffer : list byte
}.

Definition size (b : t) : Z :=
  wrap32 (4 + 2 + padded_size 2 (1 + len (name b)) + 4
          + padded_size 2 (len (buffer b))).

Section Read.
(** The byte held by storage the program has not initialised.  It stands
    for the locals [length] and [buffer_length] alike, and is looked at
    only when the [read] that should fill them has failed. *)
Variable indet : byte.

Definition read (b : t) (stream : istream) : bool * t * istream :=
  let start_pos := tellg stream in
  let '(sig, stream) := stream_read 4 (raw_bytes (signature b)) stream in
  let b := mk (raw_of 4 sig) (image_resource_id b) (name b) (buffer b) in
  if negb (sig_eqb (signature b) magic_8BIM) then (false, b, stream)
  else
    let '(id, stream) :=
      stream_read 2 (raw_bytes (image_resource_id b)) stream in
    let '(l, stream) := stream_read 1 [indet] stream in
    let length := byte.unsigned (hd indet l) in
    let '(nm, stream) := stream_read length (resize length (name b)) stream in
    let stream := if length mod 2 =? 0 then seekg_cur 1 stream else stream in
    let '(bl, stream) := stream_read 4 (repeat indet 4) stream in
    let buffer_length := be_val bl in
    let '(buf, stream) :=
      stream_read buffer_length (resize buffer_length (buffer b)) stream in
    let stream :=
      if buffer_length mod 2 =? 1 then seekg_cur 1 stream else stream in
    let b := mk (signature b) (raw_of 2 id) nm buf in
    if negb (tellg stream - start_pos =? size b) then (false, b, stream)
    else (true, b, stream).
End Read.

Definition write (b : t) (stream : ostream) : bool * ostream :=
  let start_pos := tellp stream in
  let stream := stream_write magic_8BIM stream in
  let stream := stream_write (raw_bytes (image_resource_id b)) stream in
  let padding := Byte.x00 in
  let length := wrap8 (len (name b)) in
  let stream := stream_write [byte.of_Z length] stream in
  let stream := stream_write (name b) stream in
  let stream :=
    if length mod 2 =? 0 then stream_write [padding] stream else stream in
  let buffer_length := be_put 4 (len (buffer b)) in
  let stream := stream_write (raw_bytes buffer_length) stream in
  let stream := stream_write (buffer b) stream in
  let stream :=
    if len (buffer b) mod 2 =? 1 then stream_write [padding] stream
    else stream in
  if negb (tellp stream - start_pos =? size b) then (false, stream)
  else (true, stream).

End ImageResourceBlock.

(** How a call ends: it returns its flag, it stops in a failed [assert],
    or it never returns. *)
Inductive outcome : Type :=
  | Returns (ok : bool)
  | AssertionFailure
  | Diverges.

(** ** Layer Blending Ranges (psd.cpp, lines 169-187) *)
Module LayerBlendingRanges.

Record t : Type := mk { data : list byte }.

Section Read.
Variable indet : byte.

Definition read (r : t) (f : istream) : bool * t * istream :=
  let '(sz, f) := stream_read 4 (repeat indet 4) f in
  let size := be_val sz in
  let '(d, f) := stream_read size (resize size (data r)) f in
  (true, mk d, f).
End Read.

Definition write (r : t) (f : ostream) : bool * ostream :=
  let size := be_put 4 (len (data r)) in
  let f := stream_write (raw_bytes size) f in
  let f := stream_write (firstn (Z.to_nat (be_get size)) (data r)) f in
  (true, f).

End LayerBlendingRanges.

(** ** Layer Mask (psd.cpp, lines 189-216) *)
Module LayerMask.

(** Modelled from the spec: the members are declared in [psd.h];
    section 3 of the spec makes [length] a 4-byte big-endian count.
    [top] stands for the 4*4+2 bytes that start at the member [top]:
    the rectangle and the two bytes after it. *)
Record t : Type := mk {
  length : raw 4;
  top : raw 18;
  additional_data : list byte
}.

Definition write (m : t) (f : ostream) : bool * t * ostream :=
  let f := stream_write (raw_bytes (length m)) f in
  if negb (be_get (length m) =? 0) then
    let f := stream_write (raw_bytes (top m)) f in
    let remaining := wrap32 (be_get (length m) - (4 * 4 + 2)) in
    let ad := resize remaining (additional_data m) in
    let f := stream_write ad f in
    (true, mk (length m) (top m) ad, f)
  else (true, m, f).

Definition read (m : t) (f : istream) : bool * t * istream :=
  let '(l, f) := stream_read 4 (raw_bytes (length m)) f in
  let m := mk (raw_of 4 l) (top m) (additional_data m) in
  if negb (be_get (length m) =? 0) then
    let '(tp, f) := stream_read (4 * 4 + 2) (raw_bytes (top m)) f in
    let remaining := wrap32 (be_get (length m) - (4 * 4 + 2)) in
    let ad := resize remaining (additional_data m) in
    let '(ad, f) := stream_read remaining ad f in
    (true, mk (length m) (raw_of 18 tp) ad, f)
  else (true, m, f).

End LayerMask.

(** ** Extra Data Block (psd.cpp, lines 297-354) *)
Module ExtraData.

(** Modelled from the spec: the members are declared in [psd.h];
    section 3 of the spec makes [signature] and [key] four bytes each and
    [length] a 4-byte big-endian count. *)
Record t : Type := mk {
  signature : Signature;
  key : Signature;
  length : raw 4;
  data : list byte
}.

Definition read (e : t) (f : istream) : bool * t * istream :=
  let '(sg, f) := stream_read 4 (raw_bytes (signature e)) f in
  let e := mk (raw_of 4 sg) (key e) (length e) (data e) in
  if negb (sig_eqb (signature e) magic_8BIM)
     && negb (sig_eqb (signature e) magic_8B64)
  then (false, e, f)
  else
    let '(k, f) := stream_read 4 (raw_bytes (key e)) f in
    let '(l, f) := stream_read 4 (raw_bytes (length e)) f in
    let length := raw_of 4 l in
    let '(d, f) :=
      stream_read (be_get length) (resize (be_get length) (data e)) f in
    (true, mk (signature e) (raw_of 4 k) length d, f).

(** One UTF-16 code unit to UTF-8, the body of the loop at lines
    326-341; [(char)] keeps the low eight bits. *)
Definition utf8_of_wc (wc : Z) : list byte :=
  if wc <? 0x80 then [byte.of_Z wc]
  else if wc <? 0x800 then
    [byte.of_Z (0xC0 + Z.land (Z.shiftr wc 6) 0x1F);
     byte.of_Z (0x80 + Z.land wc 0x3F)]
  else
    [byte.of_Z (0xE0 + Z.land (Z.shiftr wc 12) 0x0F);
     byte.of_Z (0x80 + Z.land (Z.shiftr wc 6) 0x3F);
     byte.of_Z (0x80 + Z.land wc 0x3F)].

Section Luni.
(** A byte fetched outside the vector is whatever the memory holds. *)
Variable indet : byte.

(** [*(p + off)] for [p = &data[0]]. *)
Definition at_p (e : t) (off : Z) : byte :=
  nth (Z.to_nat off) (data e) indet.

(** [(uint16_t)*(be<uint16_t>* )(p+4+i*2)], with [i*2] in [uint32_t]. *)
Definition unit_at (e : t) (i : Z) : Z :=
  let off := 4 + wrap32 (i * 2) in
  be_val [at_p e off; at_p e (off + 1)].

Definition luni_read_name (e : t) (wname : list Z) (utf8name : list byte)
  : list Z * list byte :=
  let uni_length := be_val [at_p e 0; at_p e 1; at_p e 2; at_p e 3] in
  let wname :=
    map (fun i => unit_at e (Z.of_nat i)) (seq 0 (Z.to_nat uni_length)) in
  let utf8name := flat_map utf8_of_wc wname in
  (wname, utf8name).
End Luni.

Definition write (e : t) (f : ostream) : bool * t * ostream :=
  let f := stream_write (raw_bytes (signature e)) f in
  let f := stream_write (raw_bytes (key e)) f in
  let data := if len (data e) mod 2 =? 1 then data e ++ [Byte.x00]
              else data e in
  let f := stream_write (raw_bytes (length e)) f in
  let data := resize (be_get (length e)) data in
  let f := stream_write data f in
  (true, mk (signature e) (key e) (length e) data, f).

End ExtraData.

(** ** Layer Record (psd.cpp, lines 218-295 and 356-406) *)
Module Layer.

(** Modelled from the spec: the members are declared in [psd.h]; their
    order and width are those of sections 3 and 4.4 of the spec.
    [top] stands for the 4*4+2 bytes that start at the member [top]:
    the rectangle and [num_channels].  [blend_signature] stands for the
    4*3+4 bytes that start at the member [blend_signature]: the
    signature, the blend mode key, opacity, clipping, flags and filler,
    and [extra_data_length]. *)
Record t : Type := mk {
  top : raw 18;
  channel_infos : list (raw 2 * raw 4);
  blend_signature : raw 16;
  mask : LayerMask.t;
  blending_ranges : LayerBlendingRanges.t;
  name : list byte;
  wname : list Z;
  utf8name : list byte;
  additional_extra_data : list ExtraData.t;
  has_text : bool
}.

Definition num_channels (l : t) : Z :=
  be_val (skipn 16 (raw_bytes (top l))).

Definition set_num_channels (v : Z) (tp : raw 18) : raw 18 :=
  raw_of 18 (firstn 16 (raw_bytes tp) ++ be_bytes 2 v).

Definition extra_data_length (l : t) : Z :=
  be_val (skipn 12 (raw_bytes (blend_signature l))).

Definition set_extra_data_length (v : Z) (bs : raw 16) : raw 16 :=
  raw_of 16 (firstn 12 (raw_bytes bs) ++ be_bytes 4 v).

(** The filler after the name, the [switch] on [name_size%4]. *)
Definition name_filler (name_size : Z) : Z :=
  if name_size mod 4 =? 0 then 3
  else if name_size mod 4 =? 1 then 2
  else if name_size mod 4 =? 2 then 1
  else 0.

Section Read.
Variable indet : byte.
(** [(wchar_t)c] for a plain [char]; its sign is the platform's. *)
Variable wchar_of_char : byte -> Z.
(** A default-constructed [ExtraData]; the constructor is in [psd.h]. *)
Variable new_ExtraData : ExtraData.t.

(** The loop at lines 225-230. *)
Fixpoint read_channel_infos (n : nat) (acc : list (raw 2 * raw 4))
    (f : istream) : list (raw 2 * raw 4) * istream :=
  match n with
  | O => (acc, f)
  | S k =>
      let '(buffer, f) := stream_read 6 (repeat indet 6) f in
      read_channel_infos k
        (acc ++ [(raw_of 2 (firstn 2 buffer), raw_of 4 (skipn 2 buffer))]) f
  end.

(** The loop at lines 266-272; [fuel] bounds the iterations. *)
Fixpoint read_extra_data (fuel : nat) (extra_start_pos length : Z)
    (acc : list ExtraData.t) (f : istream)
    : outcome * list ExtraData.t * istream :=
  if tellg f - extra_start_pos <? length then
    match fuel with
    | O => (Diverges, acc, f)
    | S k =>
        let '(ok, ed, f) := ExtraData.read new_ExtraData f in
        if negb ok then (Returns false, acc, f)
        else read_extra_data k extra_start_pos length (acc ++ [ed]) f
    end
  else (Returns true, acc, f).

(** The loop at lines 274-287. *)
Definition scan_extra_data (eds : list ExtraData.t)
    (st : list Z * list byte * bool) : list Z * list byte * bool :=
  fold_left
    (fun st ed =>
       let '(wname, utf8name, has_text) := st in
       if sig_eqb (ExtraData.key ed) key_luni then
         let '(wname, utf8name) :=
           ExtraData.luni_read_name indet ed wname utf8name in
         (wname, utf8name, has_text)
       else if sig_eqb (ExtraData.key ed) key_TySh then
         (wname, utf8name, true)
       else st)
    eds st.

Definition read (l : t) (f : istream) : outcome * t * istream :=
  let '(tp, f) := stream_read (4 * 4 + 2) (raw_bytes (top l)) f in
  let l := mk (raw_of 18 tp) (channel_infos l) (blend_signature l) (mask l)
              (blending_ranges l) (name l) (wname l) (utf8name l)
              (additional_extra_data l) (has_text l) in
  let '(cis, f) :=
    read_channel_infos (Z.to_nat (num_channels l)) (channel_infos l) f in
  let '(bs, f) :=
    stream_read (4 * 3 + 4) (raw_bytes (blend_signature l)) f in
  let l := mk (top l) cis (raw_of 16 bs) (mask l) (blending_ranges l)
              (name l) (wname l) (utf8name l) (additional_extra_data l)
              (has_text l) in
  if negb (bytes_eqb magic_8BIM (firstn 4 (raw_bytes (blend_signature l))))
  then (Returns false, l, f)
  else
    let extra_start_pos := tellg f in
    let '(ok, m, f) := LayerMask.read (mask l) f in
    let l := mk (top l) cis (blend_signature l) m (blending_ranges l)
                (name l) (wname l) (utf8name l) (additional_extra_data l)
                (has_text l) in
    if negb ok then (Returns false, l, f)
    else
    let '(ok, br, f) :=
      LayerBlendingRanges.read indet (blending_ranges l) f in
    let l := mk (top l) cis (blend_signature l) m br
                (name l) (wname l) (utf8name l) (additional_extra_data l)
                (has_text l) in
    if negb ok then (Returns false, l, f)
    else
    let '(ns, f) := stream_read 1 [indet] f in
    let name_size := byte.unsigned (hd indet ns) in
    let '(nm, f) := stream_read name_size (resize name_size (name l)) f in
    let f :=
      if name_filler name_size =? 0 then f
      else seekg_cur (name_filler name_size) f in
    let wname := wname l ++ map wchar_of_char nm in
    let utf8name := nm in
    let '(r, eds, f) :=
      read_extra_data (S (List.length (pending f))) extra_start_pos
        (extra_data_length l) (additional_extra_data l) f in
    let l := mk (top l) cis (blend_signature l) m br nm wname utf8name
                eds (has_text l) in
    match r with
    | Returns true =>
        let '(wname, utf8name, has_text) :=
          scan_extra_data eds (wname, utf8name, has_text l) in
        (Returns true,
         mk (top l) cis (blend_signature l) m br nm wname utf8name eds
            has_text, f)
    | _ => (r, l, f)
    end.
End Read.

Section Write.
(** The value of the local [name_size] of [write], which is declared
    at line 382 and never assigned. *)
Variable indet : byte.
(** [LayerMask::size], [LayerBlendingRanges::size] and
    [ExtraData::size] are defined in [psd.h]. *)
Variable LayerMask_size : LayerMask.t -> Z.
Variable LayerBlendingRanges_size : LayerBlendingRanges.t -> Z.
Variable ExtraData_size : ExtraData.t -> Z.

Definition write_channel_info (ci : raw 2 * raw 4) (f : ostream)
  : ostream :=
  stream_write (raw_bytes (fst ci) ++ raw_bytes (snd ci)) f.

(** The loop at lines 400-403. *)
Fixpoint write_extra_data (eds : list ExtraData.t) (f : ostream)
  : list ExtraData.t * ostream :=
  match eds with
  | [] => ([], f)
  | ed :: rest =>
      let '(_, ed, f) := ExtraData.write ed f in
      let '(rest, f) := write_extra_data rest f in
      (ed :: rest, f)
  end.

Definition write (l : t) (f : ostream) : bool * t * ostream :=
  let tp :=
    set_num_channels (Z.of_nat (List.length (channel_infos l))) (top l) in
  let f := stream_write (raw_bytes tp) f in
  let f := fold_left (fun f ci => write_channel_info ci f)
                     (channel_infos l) f in
  let edl :=
    fold_left (fun acc ed => wrap32 (acc + ExtraData_size ed))
      (additional_extra_data l)
      (wrap32 (LayerMask_size (mask l)
               + LayerBlendingRanges_size (blending_ranges l))) in
  let bs := set_extra_data_length edl (blend_signature l) in
  let f := stream_write (raw_bytes bs) f in
  let '(ok, m, f) := LayerMask.write (mask l) f in
  let l := mk tp (channel_infos l) bs m (blending_ranges l) (name l)
              (wname l) (utf8name l) (additional_extra_data l)
              (has_text l) in
  if negb ok then (false, l, f)
  else
  let '(ok, f) := LayerBlendingRanges.write (blending_ranges l) f in
  if negb ok then (false, l, f)
  else
  let name_size := byte.unsigned indet in
  let f := stream_write [indet] f in
  let nm := resize name_size (name l) in
  let f := stream_write nm f in
  let f := stream_write
             (repeat Byte.x00 (Z.to_nat (name_filler name_size))) f in
  let '(eds, f) := write_extra_data (additional_extra_data l) f in
  (true,
   mk tp (channel_infos l) bs m (blending_ranges l) nm (wname l)
      (utf8name l) eds (has_text l), f).
End Write.

End Layer.

(** ** Layer Info Section (psd.cpp, lines 408-444) *)
Module LayerInfo.

(** Modelled from the spec: the type of [num_layers] is declared in
    [psd.h]; the spec makes it a signed 2-byte big-endian count. *)
Record t : Type := mk {
  num_layers : raw 2;
  has_merged_alpha_channel : bool;
  layers : list Layer.t
}.

(** [psd.cpp] includes [<cassert>] and does not define [NDEBUG]:
    [assert(c)] goes on when [c] holds and aborts otherwise. *)
Definition NDEBUG : bool := false.
Definition assert (c : bool) : bool := NDEBUG || c.

Section Read.
Variable indet : byte.
Variable wchar_of_char : byte -> Z.
Variable new_ExtraData : ExtraData.t.
(** A default-constructed [Layer]. *)
Variable new_Layer : Layer.t.

(** Lines 410-419: the length, the count and its sign. *)
Definition read_count (li : t) (f : istream) : t * istream :=
  let '(_, f) := stream_read 4 (repeat indet 4) f in
  let '(n, f) := stream_read 2 (raw_bytes (num_layers li)) f in
  let li := mk (raw_of 2 n) (has_merged_alpha_channel li) (layers li) in
  if signed16 (be_get (num_layers li)) <? 0 then
    (mk (be_put 2 (- signed16 (be_get (num_layers li)))) true (layers li),
     f)
  else (li, f).

(** Lines 425-434, for [n] more values of [i]. *)
Fixpoint read_layers (n : nat) (li : t) (f : istream)
  : outcome * t * istream :=
  match n with
  | O => (Returns true, li, f)
  | S k =>
      let '(r, l, f) :=
        Layer.read indet wchar_of_char new_ExtraData new_Layer f in
      match r with
      | Returns true =>
          read_layers k
            (mk (num_layers li) (has_merged_alpha_channel li)
                (layers li ++ [l])) f
      | _ => (r, li, f)
      end
  end.

(** [i < num_layers] compares in [uint32_t]. *)
Definition layer_iterations (li : t) : nat :=
  Z.to_nat (wrap32 (signed16 (be_get (num_layers li)))).

Definition read (li : t) (f : istream) : outcome * t * istream :=
  let '(li, f) := read_count li f in
  read_layers (layer_iterations li) li f.
End Read.

Definition write (li : t) (f : ostream) : outcome * ostream :=
  if assert false then (Returns true, f)
  else (AssertionFailure, f).

End LayerInfo.

(** ** Document (psd.cpp, lines 92-166 and 446-514) *)
Module psd.

(** Modelled from the spec: the header struct is declared in [psd.h].
    Section 6 of the spec gives its layout, 26 bytes read in one block:
    the signature (4), the version (2, big-endian), 6 reserved bytes,
    the channel count (2), width (4), height (4), bit depth (2) and
    colour mode (2). *)
Definition sizeof_header : nat := 26.

Record t : Type := mk {
  header : raw sizeof_header;
  image_resources : list ImageResourceBlock.t;
  layer_info : LayerInfo.t;
  valid_ : bool
}.

Definition header_signature (d : t) : list byte :=
  firstn 4 (raw_bytes (header d)).
Definition header_version (d : t) : Z :=
  be_val (firstn 2 (skipn 4 (raw_bytes (header d)))).

Definition set_header h d :=
  mk h (image_resources d) (layer_info d) (valid_ d).
Definition set_image_resources irs d :=
  mk (header d) irs (layer_info d) (valid_ d).
Definition set_layer_info li d :=
  mk (header d) (image_resources d) li (valid_ d).
Definition set_valid_ v d :=
  mk (header d) (image_resources d) (layer_info d) v.

Definition read_header (d : t) (f : istream) : bool * t * istream :=
  let f := seekg_start f in
  let '(h, f) :=
    stream_read (Z.of_nat sizeof_header) (raw_bytes (header d)) f in
  let d := set_header (raw_of sizeof_header h) d in
  if negb (bytes_eqb (header_signature d) magic_8BPS) then (false, d, f)
  else if negb (header_version d =? 1) then (false, d, f)
  else (true, d, f).

Section Load.
Variable indet : byte.
Variable wchar_of_char : byte -> Z.
Variable new_ExtraData : ExtraData.t.
Variable new_Layer : Layer.t.
(** A default-constructed [ImageResourceBlock]. *)
Variable new_ImageResourceBlock : ImageResourceBlock.t.

Definition read_color_mode (d : t) (f : istream) : bool * t * istream :=
  let '(count, f) := stream_read 4 (repeat indet 4) f in
  if negb (be_val count =? 0) then (false, d, f)
  else (true, d, f).

(** The loop at lines 159-165; [fuel] bounds the iterations. *)
Fixpoint read_blocks (fuel : nat) (start_pos length : Z)
    (acc : list ImageResourceBlock.t) (f : istream)
    : outcome * list ImageResourceBlock.t * istream :=
  if tellg f - start_pos <? length then
    match fuel with
    | O => (Diverges, acc, f)
    | S k =>
        let '(ok, b, f) :=
          ImageResourceBlock.read indet new_ImageResourceBlock f in
        if negb ok then (Returns false, acc, f)
        else read_blocks k start_pos length (acc ++ [b]) f
    end
  else (Returns true, acc, f).

Definition read_image_resources (d : t) (f : istream)
  : outcome * t * istream :=
  let '(l, f) := stream_read 4 (repeat indet 4) f in
  let length := be_val l in
  let start_pos := tellg f in
  let '(r, irs, f) :=
    read_blocks (S (List.length (pending f))) start_pos length [] f in
  (r, set_image_resources irs d, f).

Definition read_layers_and_masks (d : t) (f : istream)
  : outcome * t * istream :=
  let start_pos := tellg f in
  let '(l, f) := stream_read 4 (repeat indet 4) f in
  let length := be_val l in
  if length =? 0 then (Returns true, d, f)
  else
    let '(r, li, f) :=
      LayerInfo.read indet wchar_of_char new_ExtraData new_Layer
        (layer_info d) f in
    let d := set_layer_info li d in
    match r with
    | Returns true =>
        if tellg f - start_pos <? length then
          let remaining := length - (tellg f - start_pos) in
          let '(_, f) := stream_read remaining (resize remaining []) f in
          (Returns true, d, f)
        else (Returns true, d, f)
    | _ => (r, d, f)
    end.

Definition load (d : t) (stream : istream) : outcome * t * istream :=
  let '(ok, d, stream) := read_header d stream in
  if negb ok then (Returns false, d, stream)
  else
    let '(ok, d, stream) := read_color_mode d stream in
    if negb ok then (Returns false, d, stream)
    else
      let '(r, d, stream) := read_image_resources d stream in
      match r with
      | Returns true =>
          let '(r, d, stream) := read_layers_and_masks d stream in
          match r with
          | Returns true => (Returns true, set_valid_ true d, stream)
          | _ => (r, d, stream)
          end
      | _ => (r, d, stream)
      end.
End Load.

Definition write_header (d : t) (f : ostream) : bool * ostream :=
  (true, stream_write (raw_bytes (header d)) f).

Definition write_color_mode (d : t) (f : ostream) : bool * ostream :=
  (true, stream_write (repeat Byte.x00 4) f).

Definition save (d : t) (f : ostream) : bool * ostream :=
  let '(ok, f) := write_header d f in
  if negb ok then (false, f)
  else
    let '(ok, f) := write_color_mode d f in
    if negb ok then (false, f) else (true, f).

Section WriteResources.
(** The object representation of a [uint32_t] on the host; line 502
    writes the length as the host stores it. *)
Variable native32 : Z -> raw 4.

(** The loop at lines 503-507. *)
Fixpoint write_blocks (rs : list ImageResourceBlock.t) (f : ostream)
  : bool * ostream :=
  match rs with
  | [] => (true, f)
  | r :: rest =>
      let '(ok, f) := ImageResourceBlock.write r f in
      if negb ok then (false, f) else write_blocks rest f
  end.

Definition write_image_resources (d : t) (f : ostream) : bool * ostream :=
  let length :=
    fold_left (fun acc r => wrap32 (acc + ImageResourceBlock.size r))
      (image_resources d) 0 in
  let f := stream_write (raw_bytes (native32 length)) f in
  write_blocks (image_resources d) f.
End WriteResources.

(** [psd::operator bool]. *)
Definition operator_bool (d : t) : bool := valid_ d.

End psd.

(** ** The block layout in the words of the spec *)

(** [pad2(n) = ceil(n/2)*2] (spec, section 4.2). *)
Definition pad2 (n : Z) : Z := (n + 1) / 2 * 2.

(** Zero bytes that bring a field of [n] bytes to [pad2 n] bytes. *)
Definition pad2_fill (n : Z) : list byte :=
  repeat Byte.x00 (Z.to_nat (pad2 n - n)).

(** An Image Resource Block as section 3 of the spec lays it out: the
    magic, the 2-byte id, the name behind a 1-byte length with both
    padded to an even total, the payload behind a 4-byte big-endian
    length and padded to an even length. *)
Definition block_layout (id : raw 2) (name payload : list byte) : list byte :=
  magic_8BIM ++ raw_bytes id
  ++ (byte.of_Z (len name) :: name) ++ pad2_fill (1 + len name)
  ++ be_bytes 4 (len payload) ++ payload ++ pad2_fill (len payload).

(** The same layout with the filler bytes left open: [p1] after the name
    and [p2] after the payload. *)
Definition block_bytes (id : raw 2) (name p1 payload p2 : list byte)
  : list byte :=
  magic_8BIM ++ raw_bytes id
  ++ (byte.of_Z (len name) :: name) ++ p1
  ++ be_bytes 4 (len payload) ++ payload ++ p2.

(** ** Sample values *)

Definition sample_id : raw 2 := raw_of 2 [Byte.x03; Byte.xe9].

(** A payload of 2^32-1 bytes, the largest the 4-byte length field can
    announce. *)
Definition largest_payload : list byte :=
  repeat Byte.x00 (Z.to_nat 4294967295).

Definition largest_block : ImageResourceBlock.t :=
  ImageResourceBlock.mk (raw_of 4 magic_8BIM) sample_id [] largest_payload.

(** A block named ["a"] with an empty payload, and one with no name. *)
Definition block_a : ImageResourceBlock.t :=
  ImageResourceBlock.mk (raw_of 4 magic_8BIM) sample_id [Byte.x61] [].
Definition block_noname : ImageResourceBlock.t :=
  ImageResourceBlock.mk (raw_of 4 magic_8BIM) sample_id [] [Byte.x07].

(** An Extra Data Block tagged ["luni"] that announces one payload byte. *)
Definition odd_extra : ExtraData.t :=
  ExtraData.mk (raw_of 4 magic_8BIM) (raw_of 4 key_luni) (be_put 4 1)
    [Byte.x41].

Definition odd_extra_bytes : list byte :=
  magic_8BIM ++ key_luni ++ [Byte.x00; Byte.x00; Byte.x00; Byte.x01]
  ++ [Byte.x41].

Definition blank_extra : ExtraData.t :=
  ExtraData.mk (raw_of 4 []) (raw_of 4 []) (raw_of 4 []) [].

Definition blank_mask : LayerMask.t :=
  LayerMask.mk (raw_of 4 []) (raw_of 18 []) [].


Definition blank_layer_info : LayerInfo.t :=
  LayerInfo.mk (raw_of 2 []) false [].

(** ** Unicode names in the words of the spec (section 4.5) *)

(** One code unit to UTF-8: below 0x80 one byte as it is; below 0x800 the
    two bytes [110xxxxx 10xxxxxx]; otherwise the three bytes
    [1110xxxx 10xxxxxx 10xxxxxx], the [x] being the bits of the unit from
    the most significant down. *)
Definition utf8_spec (u : Z) : list byte :=
  if u <? 0x80 then [byte.of_Z u]
  else if u <? 0x800 then
    [byte.of_Z (0xC0 + u / 64); byte.of_Z (0x80 + u mod 64)]
  else
    [byte.of_Z (0xE0 + u / 4096); byte.of_Z (0x80 + (u / 64) mod 64);
     byte.of_Z (0x80 + u mod 64)].

(** The payload of a ["luni"] block: the count of code units in four
    bytes, then each unit in two, all big-endian. *)
Definition luni_payload (units : list Z) : list byte :=
  be_bytes 4 (Z.of_nat (length units)) ++ flat_map (be_bytes 2) units.

Definition luni_block (payload : list byte) : ExtraData.t :=
  ExtraData.mk (raw_of 4 magic_8BIM) (raw_of 4 key_luni)
    (be_put 4 (len payload)) payload.

Definition blank_layer : Layer.t :=
  Layer.mk (raw_of 18 []) [] (raw_of 16 []) blank_mask
    (LayerBlendingRanges.mk []) [] [] [] [] false.

(** [(wchar_t)c] where plain [char] is signed. *)
Definition wchar_signed (c : byte) : Z :=
  if byte.unsigned c <? 128 then byte.unsigned c else byte.unsigned c - 256.

(** A layer record with no channels, no mask, no blending ranges, the
    name ["ab"] and one ["luni"] block that renames it to U+03A9. *)
Definition layer_bytes : list byte :=
  repeat Byte.x00 18
  ++ magic_8BIM ++ [Byte.x6e; Byte.x6f; Byte.x72; Byte.x6d]
  ++ [Byte.xff; Byte.x00; Byte.x00; Byte.x00]
  ++ [Byte.x00; Byte.x00; Byte.x00; Byte.x1e]
  ++ [Byte.x00; Byte.x00; Byte.x00; Byte.x00]
  ++ [Byte.x00; Byte.x00; Byte.x00; Byte.x00]
  ++ [Byte.x02; Byte.x61; Byte.x62; Byte.x00]
  ++ magic_8BIM ++ key_luni ++ [Byte.x00; Byte.x00; Byte.x00; Byte.x06]
  ++ luni_payload [0x03A9].

(** A Layer Info Section that announces -1 layers and holds that layer,
    and the start of sections that announce -3 and -32768 layers. *)
Definition layer_info_bytes : list byte :=
  [Byte.x00; Byte.x00; Byte.x00; Byte.x32] ++ [Byte.xff; Byte.xff]
  ++ layer_bytes.

Definition count_minus3_stream : istream :=
  istream_of ([Byte.x00; Byte.x00; Byte.x00; Byte.x02] ++ [Byte.xff; Byte.xfd]).
Definition count_min_stream : istream :=
  istream_of ([Byte.x00; Byte.x00; Byte.x00; Byte.x02] ++ [Byte.x80; Byte.x00]).

Definition blank_block : ImageResourceBlock.t :=
  ImageResourceBlock.mk (raw_of 4 []) (raw_of 2 []) [] [].

Definition blank_document : psd.t :=
  psd.mk (raw_of psd.sizeof_header []) [] blank_layer_info false.

(** The smallest well-formed document: a header with no channels, width
    and height 1, then three empty sections. *)
Definition minimal_header : list byte :=
  magic_8BPS ++ [Byte.x00; Byte.x01] ++ repeat Byte.x00 6
  ++ [Byte.x00; Byte.x00] ++ [Byte.x00; Byte.x00; Byte.x00; Byte.x01]
  ++ [Byte.x00; Byte.x00; Byte.x00; Byte.x01] ++ [Byte.x00; Byte.x08]
  ++ [Byte.x00; Byte.x03].
Definition minimal_document : list byte :=
  minimal_header ++ repeat Byte.x00 4 ++ repeat Byte.x00 4
  ++ repeat Byte.x00 4.

(** The same bytes with the last magic character changed, and with the
    version changed to 2. *)
Definition bad_magic_document : list byte :=
  [Byte.x38; Byte.x42; Byte.x50; Byte.x58] ++ skipn 4 minimal_document.
Definition bad_version_document : list byte :=
  magic_8BPS ++ [Byte.x00; Byte.x02] ++ skipn 6 minimal_document.

(** The document object after loading [minimal_document]. *)
Definition loaded_document : psd.t :=
  snd (fst (psd.load Byte.x00 wchar_signed blank_extra blank_layer
              blank_block blank_document (istream_of minimal_document))).

(** ** The load pipeline in the words of the spec (section 4.3) *)

Section Stages.
Variable indet : byte.
Variable wchar_of_char : byte -> Z.
Variable new_ExtraData : ExtraData.t.
Variable new_Layer : Layer.t.
Variable new_ImageResourceBlock : ImageResourceBlock.t.

(** The four stages succeed one after the other, each from the state
    the one before has left; [d4] and [f4] are the document and the
    stream after the last. *)
Definition stages_succeed (d : psd.t) (f : istream) (d4 : psd.t)
    (f4 : istream) : Prop :=
  exists d1 f1 d2 f2 d3 f3,
    psd.read_header d f = (true, d1, f1)
    /\ psd.read_color_mode indet d1 f1 = (true, d2, f2)
    /\ psd.read_image_resources indet new_ImageResourceBlock d2 f2
       = (Returns true, d3, f3)
    /\ psd.read_layers_and_masks indet wchar_of_char new_ExtraData
         new_Layer d3 f3
       = (Returns true, d4, f4).
End Stages.

(** The call has returned true. *)
Definition succeeded (r : outcome) : bool :=
  match r with Returns true => true | _ => false end.

(** The layer that [Layer::read] builds from [layer_bytes]; its name is
    ["ab"]. *)
Definition layer_ab : Layer.t :=
  snd (fst (Layer.read Byte.x00 wchar_signed blank_extra blank_layer
              (istream_of layer_bytes))).

(** The call comes back with a flag. *)
Definition returns (r : outcome) : Prop := exists ok, r = Returns ok.

(** The signature of an Extra Data Block is one of the two magics. *)
Definition accepted (e : ExtraData.t) : bool :=
  sig_eqb (ExtraData.signature e) magic_8BIM
  || sig_eqb (ExtraData.signature e) magic_8B64.

(** ** Layouts of sections and records *)

(** The bytes of a sequence of Image Resource Blocks, one layout after
    the other. *)
Definition section_bytes (bs : list ImageResourceBlock.t) : list byte :=
  flat_map
    (fun b => block_layout (ImageResourceBlock.image_resource_id b)
                (ImageResourceBlock.name b) (ImageResourceBlock.buffer b))
    bs.

(** A block as [read] returns it: the magic, a name that fits its length
    byte and a size that fits 32 bits. *)
Definition readable_block (b : ImageResourceBlock.t) : Prop :=
  ImageResourceBlock.signature b = raw_of 4 magic_8BIM
  /\ len (ImageResourceBlock.name b) <= 255
  /\ len (block_layout (ImageResourceBlock.image_resource_id b)
            (ImageResourceBlock.name b) (ImageResourceBlock.buffer b))
     < 2 ^ 32.

(** The layout of one block. *)
Definition layout_of (b : ImageResourceBlock.t) : list byte :=
  block_layout (ImageResourceBlock.image_resource_id b)
    (ImageResourceBlock.name b) (ImageResourceBlock.buffer b).

(** A document that holds the two sample blocks. *)
Definition two_block_document : psd.t :=
  psd.set_image_resources [block_a; block_noname] blank_document.

(** The bytes of an Extra Data Block: signature, key, the payload size in
    four big-endian bytes, the payload. *)
Definition extra_bytes (sg key : raw 4) (d : list byte) : list byte :=
  raw_bytes sg ++ raw_bytes key ++ be_bytes 4 (len d) ++ d.

(** The bytes of a Layer Mask with a rectangle: length, the 18 fixed
    bytes, the tail. *)
Definition mask_bytes (m : LayerMask.t) : list byte :=
  raw_bytes (LayerMask.length m) ++ raw_bytes (LayerMask.top m)
  ++ LayerMask.additional_data m.

Definition sample_mask : LayerMask.t :=
  LayerMask.mk (be_put 4 20) (raw_of 18 (repeat Byte.x01 18))
    [Byte.x02; Byte.x03].
Definition empty_mask : LayerMask.t :=
  LayerMask.mk (be_put 4 0) (raw_of 18 (repeat Byte.x01 18)) [Byte.x02].

(** The bytes of the channel table: for each entry its two bytes, then
    its four. *)
Definition channel_bytes (cis : list (raw 2 * raw 4)) : list byte :=
  flat_map (fun ci => raw_bytes (fst ci) ++ raw_bytes (snd ci)) cis.

(** The last block tagged ["luni"], if there is one. *)
Fixpoint last_luni (eds : list ExtraData.t) : option ExtraData.t :=
  match eds with
  | [] => None
  | ed :: rest =>
      match last_luni rest with
      | Some e => Some e
      | None => if sig_eqb (ExtraData.key ed) key_luni then Some ed else None
      end
  end.

Definition sample_channels : list (raw 2 * raw 4) :=
  [(be_put 2 0, be_put 4 100); (be_put 2 65535, be_put 4 7)].

(** ** The layout of a layer record, as [Layer::read] consumes it *)

(** A mask block: four bytes when its length is zero, the full
    [mask_bytes] otherwise. *)
Definition mask_wire (m : LayerMask.t) : list byte :=
  if be_get (LayerMask.length m) =? 0 then raw_bytes (LayerMask.length m)
  else mask_bytes m.

(** The length field of a mask is zero or counts the 18 fixed bytes and
    the tail. *)
Definition mask_fits (m : LayerMask.t) : Prop :=
  be_get (LayerMask.length m) = 0
  \/ be_get (LayerMask.length m) = 18 + len (LayerMask.additional_data m).

(** The mask object after [read] has taken [mask_wire m] into [m0]. *)
Definition mask_after (m m0 : LayerMask.t) : LayerMask.t :=
  if be_get (LayerMask.length m) =? 0
  then LayerMask.mk (LayerMask.length m) (LayerMask.top m0)
         (LayerMask.additional_data m0)
  else m.

(** An Extra Data Block on the wire, and what makes it readable: one of
    the two magics and a length field that is the payload size. *)
Definition extra_wire (e : ExtraData.t) : list byte :=
  raw_bytes (ExtraData.signature e) ++ raw_bytes (ExtraData.key e)
  ++ raw_bytes (ExtraData.length e) ++ ExtraData.data e.

Definition extra_fits (e : ExtraData.t) : Prop :=
  accepted e = true /\ be_get (ExtraData.length e) = len (ExtraData.data e).

(** The part of a layer record that [extra_data_length] counts: mask,
    blending ranges, the name behind its length byte, the filler [fill]
    and the chain of extra data blocks. *)
Definition layer_extra_wire (l : Layer.t) (fill : list byte) : list byte :=
  mask_wire (Layer.mask l)
  ++ (be_bytes 4 (len (LayerBlendingRanges.data (Layer.blending_ranges l)))
      ++ LayerBlendingRanges.data (Layer.blending_ranges l))
  ++ (byte.of_Z (len (Layer.name l)) :: Layer.name l) ++ fill
  ++ flat_map extra_wire (Layer.additional_extra_data l).

(** The whole record: the 18 bytes, the channel table, the 16 bytes, and
    the counted part. *)
Definition layer_wire (l : Layer.t) (fill : list byte) : list byte :=
  raw_bytes (Layer.top l) ++ channel_bytes (Layer.channel_infos l)
  ++ raw_bytes (Layer.blend_signature l) ++ layer_extra_wire l fill.

(** The fields of [l] agree with one another the way a record on the wire
    needs them to. *)
Definition layer_fits (l : Layer.t) (fill : list byte) : Prop :=
  Layer.num_channels l = Z.of_nat (length (Layer.channel_infos l))
  /\ firstn 4 (raw_bytes (Layer.blend_signature l)) = magic_8BIM
  /\ mask_fits (Layer.mask l)
  /\ len (LayerBlendingRanges.data (Layer.blending_ranges l)) < 2 ^ 32
  /\ len (Layer.name l) <= 255
  /\ len fill = Layer.name_filler (len (Layer.name l))
  /\ Forall extra_fits (Layer.additional_extra_data l)
  /\ Layer.extra_data_length l = len (layer_extra_wire l fill).

(** The layer object after [read] has taken the record of [l] into the
    object [l0]: the channel table and the extra data are appended to
    what [l0] held, and the names and the flag come from the scan. *)
Definition layer_after (indet : byte) (wchar_of_char : byte -> Z)
    (l l0 : Layer.t) : Layer.t :=
  let eds := Layer.additional_extra_data l0 ++ Layer.additional_extra_data l in
  let st :=
    Layer.scan_extra_data indet eds
      (Layer.wname l0 ++ map wchar_of_char (Layer.name l), Layer.name l,
       Layer.has_text l0) in
  Layer.mk (Layer.top l) (Layer.channel_infos l0 ++ Layer.channel_infos l)
    (Layer.blend_signature l) (mask_after (Layer.mask l) (Layer.mask l0))
    (Layer.blending_ranges l) (Layer.name l) (fst (fst st)) (snd (fst st))
    eds (snd st).

(** A run of layer records, each with its filler. *)
Definition layers_wire (ls : list (Layer.t * list byte)) : list byte :=
  flat_map (fun p => layer_wire (fst p) (snd p)) ls.

(** The count field after [LayerInfo::read] has dealt with its sign. *)
Definition count_after (cnt : raw 2) : raw 2 :=
  if signed16 (be_get cnt) <? 0 then be_put 2 (- signed16 (be_get cnt))
  else cnt.

(** The Layer Info object after [read] has taken the count [cnt] and the
    records [ls] into [li], every layer built from the object
    [new_Layer]. *)
Definition layer_info_after (indet : byte) (wchar_of_char : byte -> Z)
    (new_Layer : Layer.t) (cnt : raw 2) (ls : list (Layer.t * list byte))
    (li : LayerInfo.t) : LayerInfo.t :=
  LayerInfo.mk (count_after cnt)
    (if signed16 (be_get cnt) <? 0 then true
     else LayerInfo.has_merged_alpha_channel li)
    (LayerInfo.layers li
     ++ map (fun p => layer_after indet wchar_of_char (fst p) new_Layer) ls).

(** A layer record to read [layer_ab] from: its filler is one byte. *)
Definition layer_ab_fill : list byte := [Byte.x00].

(** * Properties *)

(** ** Raw storage and big-endian scalars *)

Lemma raw_bytes_length (n : nat) (v : raw n) : length (raw_bytes v) = n.
Proof.
  induction n as [|n IH]; simpl; [reflexivity|].
  now rewrite IH.
Qed.

Lemma raw_of_bytes (n : nat) (v : raw n) : raw_of n (raw_bytes v) = v.
Proof.
  induction n as [|n IH]; simpl.
  - now destruct v.
  - destruct v as [b w]; simpl. now rewrite IH.
Qed.

Lemma raw_bytes_of (n : nat) (l : list byte) :
  length l = n -> raw_bytes (raw_of n l) = l.
Proof.
  revert l; induction n as [|n IH]; intros [|b l] H; simpl in *;
    try discriminate; [reflexivity|].
  f_equal. apply IH. now injection H.
Qed.

Lemma be_bytes_length (n : nat) (z : Z) : length (be_bytes n z) = n.
Proof. induction n as [|n IH]; simpl; [reflexivity|now rewrite IH]. Qed.

Lemma len_app (a b : list byte) : len (a ++ b) = len a + len b.
Proof. unfold len. rewrite length_app. lia. Qed.

Lemma len_nonneg (a : list byte) : 0 <= len a.
Proof. unfold len. lia. Qed.

Lemma len_cons (x : byte) (a : list byte) : len (x :: a) = 1 + len a.
Proof. unfold len. simpl length. lia. Qed.

Lemma len_be_bytes (n : nat) (z : Z) : len (be_bytes n z) = Z.of_nat n.
Proof. unfold len. now rewrite be_bytes_length. Qed.

Lemma len_raw_bytes (n : nat) (v : raw n) : len (raw_bytes v) = Z.of_nat n.
Proof. unfold len. now rewrite raw_bytes_length. Qed.

(** Decoding what was encoded gives the value back, within the width. *)
Lemma be_val_bytes (n : nat) (z : Z) :
  be_val (be_bytes n z) = z mod 256 ^ Z.of_nat n.
Proof.
  induction n as [|n IH].
  - simpl. now rewrite Z.mod_1_r.
  - cbn [be_bytes be_val]. rewrite be_bytes_length, IH.
    rewrite byte.unsigned_of_Z. unfold byte.wrap.
    rewrite Nat2Z.inj_succ, Z.pow_succ_r by lia.
    change (2 ^ 8) with 256.
    set (p := 256 ^ Z.of_nat n).
    assert (Hp : 0 < p) by (apply Z.pow_pos_nonneg; lia).
    rewrite (Z.mul_comm 256 p).
    rewrite Z.rem_mul_r by lia. lia.
Qed.

Lemma be_val_bytes_small (n : nat) (z : Z) :
  0 <= z < 256 ^ Z.of_nat n -> be_val (be_bytes n z) = z.
Proof. intros H. rewrite be_val_bytes. now apply Z.mod_small. Qed.

Lemma bytes_eqb_refl (a : list byte) : bytes_eqb a a = true.
Proof. unfold bytes_eqb. now destruct (list_eq_dec _ a a). Qed.

Lemma bytes_eqb_eq (a b : list byte) : bytes_eqb a b = true <-> a = b.
Proof.
  unfold bytes_eqb. destruct (list_eq_dec _ a b); split; congruence.
Qed.

(** ** Streams *)

Lemma resize_length (n : Z) (v : list byte) :
  length (resize n v) = Z.to_nat n.
Proof.
  unfold resize. rewrite length_app, length_firstn, repeat_length. lia.
Qed.

(** A read that finds its bytes delivers them and moves past them,
    whatever the destination held. *)
Lemma stream_read_app (xs rest pre dst : list byte) (n : Z) :
  n = len xs ->
  stream_read n dst (mkIstream pre (xs ++ rest) false)
  = (xs, mkIstream (pre ++ xs) rest false).
Proof.
  intros ->. unfold stream_read; simpl.
  rewrite len_app.
  pose proof (len_nonneg rest).
  destruct (Z.leb_spec (len xs) (len xs + len rest)); [|lia].
  unfold len. rewrite Nat2Z.id.
  rewrite firstn_app, firstn_all, Nat.sub_diag, firstn_O, app_nil_r.
  rewrite skipn_app, skipn_all, Nat.sub_diag. reflexivity.
Qed.

Lemma seekg_cur_one (x : byte) (rest pre : list byte) :
  seekg_cur 1 (mkIstream pre (x :: rest) false)
  = mkIstream (pre ++ [x]) rest false.
Proof.
  unfold seekg_cur; simpl. rewrite len_cons.
  pose proof (len_nonneg rest).
  destruct (Z.leb_spec 1 (1 + len rest)); [reflexivity|lia].
Qed.

(** The destination of a read keeps its size. *)
Lemma stream_read_length (n : Z) (dst : list byte) (f : istream) :
  length dst = Z.to_nat n -> length (fst (stream_read n dst f)) = Z.to_nat n.
Proof.
  intros H. unfold stream_read.
  destruct (failbit f); simpl; [exact H|].
  destruct (Z.leb_spec n (len (pending f))) as [Hle|Hlt]; simpl.
  - rewrite length_firstn. unfold len in Hle. lia.
  - rewrite length_app, length_skipn. unfold len in Hlt. lia.
Qed.

(** ** Image Resource Block *)

Lemma pad2_fill_even (n : Z) :
  0 <= n -> n mod 2 = 0 -> pad2_fill n = [].
Proof.
  intros Hn H. unfold pad2_fill, pad2.
  replace ((n + 1) / 2 * 2 - n) with 0; [reflexivity|].
  pose proof (Z.div_mod n 2 ltac:(lia)).
  pose proof (Z.div_mod (n + 1) 2 ltac:(lia)).
  pose proof (Z.mod_pos_bound (n + 1) 2 ltac:(lia)). lia.
Qed.

Lemma pad2_fill_odd (n : Z) :
  0 <= n -> n mod 2 = 1 -> pad2_fill n = [Byte.x00].
Proof.
  intros Hn H. unfold pad2_fill, pad2.
  replace ((n + 1) / 2 * 2 - n) with 1; [reflexivity|].
  pose proof (Z.div_mod n 2 ltac:(lia)).
  pose proof (Z.div_mod (n + 1) 2 ltac:(lia)).
  pose proof (Z.mod_pos_bound (n + 1) 2 ltac:(lia)). lia.
Qed.

Lemma len_pad2_fill (n : Z) : 0 <= n -> n + len (pad2_fill n) = pad2 n.
Proof.
  intros Hn. unfold pad2_fill, len. rewrite repeat_length.
  assert (n <= pad2 n); [|lia].
  unfold pad2.
  pose proof (Z.div_mod (n + 1) 2 ltac:(lia)).
  pose proof (Z.mod_pos_bound (n + 1) 2 ltac:(lia)). lia.
Qed.

Lemma padded_size_pad2 (n : Z) :
  0 <= n -> n + 1 < 2 ^ 32 -> padded_size 2 n = pad2 n.
Proof.
  intros Hn Hlt. unfold padded_size, pad2, wrap32.
  change (2 - 1) with 1. rewrite (Z.mod_small 1) by lia.
  rewrite (Z.mod_small n) by lia.
  rewrite (Z.mod_small (n + 1)) by lia.
  apply Z.mod_small.
  pose proof (Z.div_mod (n + 1) 2 ltac:(lia)).
  pose proof (Z.mod_pos_bound (n + 1) 2 ltac:(lia)). lia.
Qed.

Lemma len_block_layout (id : raw 2) (name payload : list byte) :
  len (block_layout id name payload)
  = 4 + 2 + pad2 (1 + len name) + 4 + pad2 (len payload).
Proof.
  unfold block_layout.
  rewrite !len_app, len_cons, len_raw_bytes, len_be_bytes.
  pose proof (len_nonneg name). pose proof (len_nonneg payload).
  pose proof (len_pad2_fill (1 + len name) ltac:(lia)).
  pose proof (len_pad2_fill (len payload) ltac:(lia)).
  change (len magic_8BIM) with 4. lia.
Qed.

Lemma one_filler (n : Z) (p : list byte) :
  0 <= n -> length p = length (pad2_fill n) ->
  (n mod 2 = 0 /\ p = []) \/ (n mod 2 = 1 /\ exists x, p = [x]).
Proof.
  intros Hn Hp.
  pose proof (Z.mod_pos_bound n 2 ltac:(lia)).
  destruct (Z.eq_dec (n mod 2) 0) as [E|E].
  - left. rewrite pad2_fill_even in Hp by assumption.
    destruct p; [auto|discriminate].
  - right. assert (E1 : n mod 2 = 1) by lia.
    rewrite pad2_fill_odd in Hp by assumption.
    destruct p as [|x [|y p]]; try discriminate. eauto.
Qed.

Lemma read_block_bytes (indet : byte) (b : ImageResourceBlock.t)
    (id : raw 2) (name p1 payload p2 pre rest : list byte) :
  len name <= 255 -> len payload < 2 ^ 32 ->
  length p1 = length (pad2_fill (1 + len name)) ->
  length p2 = length (pad2_fill (len payload)) ->
  let b' := ImageResourceBlock.mk (raw_of 4 magic_8BIM) id name payload in
  let bytes := block_bytes id name p1 payload p2 in
  ImageResourceBlock.read indet b (mkIstream pre (bytes ++ rest) false)
  = (len bytes =? ImageResourceBlock.size b', b',
     mkIstream (pre ++ bytes) rest false).
Proof.
  intros Hname Hpay Hp1 Hp2 b' bytes.
  pose proof (len_nonneg name) as Hn0. pose proof (len_nonneg payload) as Hp0.
  unfold ImageResourceBlock.read.
  subst bytes. unfold block_bytes. rewrite <- !app_assoc.
  rewrite (stream_read_app magic_8BIM) by reflexivity.
  cbn [ImageResourceBlock.signature ImageResourceBlock.image_resource_id
       ImageResourceBlock.name ImageResourceBlock.buffer].
  change (sig_eqb (raw_of 4 magic_8BIM) magic_8BIM) with true.
  cbn [negb].
  rewrite (stream_read_app (raw_bytes id))
    by (now rewrite len_raw_bytes).
  change ((byte.of_Z (len name) :: name) ++ p1 ++ be_bytes 4 (len payload)
          ++ payload ++ p2 ++ rest)
    with ([byte.of_Z (len name)] ++ name ++ p1 ++ be_bytes 4 (len payload)
          ++ payload ++ p2 ++ rest).
  rewrite (stream_read_app [byte.of_Z (len name)]) by reflexivity.
  cbn [hd]. rewrite byte.unsigned_of_Z. unfold byte.wrap.
  rewrite (Z.mod_small (len name)) by lia.
  rewrite (stream_read_app name) by reflexivity.
  assert (Hf1 : (if len name mod 2 =? 0
                 then seekg_cur 1
                        (mkIstream
                           ((((pre ++ magic_8BIM) ++ raw_bytes id)
                             ++ [byte.of_Z (len name)]) ++ name)
                           (p1 ++ be_bytes 4 (len payload) ++ payload
                            ++ p2 ++ rest) false)
                 else mkIstream
                        ((((pre ++ magic_8BIM) ++ raw_bytes id)
                          ++ [byte.of_Z (len name)]) ++ name)
                        (p1 ++ be_bytes 4 (len payload) ++ payload
                         ++ p2 ++ rest) false)
                = mkIstream
                    (((((pre ++ magic_8BIM) ++ raw_bytes id)
                       ++ [byte.of_Z (len name)]) ++ name) ++ p1)
                    (be_bytes 4 (len payload) ++ payload ++ p2 ++ rest)
                    false).
  { pose proof (Z.div_mod (len name) 2 ltac:(lia)).
    pose proof (Z.mod_pos_bound (len name) 2 ltac:(lia)).
    pose proof (Z.div_mod (1 + len name) 2 ltac:(lia)).
    destruct (one_filler (1 + len name) p1 ltac:(lia) Hp1)
      as [[E ->]|[E [x ->]]].
    - destruct (Z.eqb_spec (len name mod 2) 0); [lia|].
      now rewrite app_nil_r.
    - destruct (Z.eqb_spec (len name mod 2) 0); [|lia].
      apply seekg_cur_one. }
  rewrite Hf1; clear Hf1.
  rewrite (stream_read_app (be_bytes 4 (len payload)))
    by (now rewrite len_be_bytes).
  rewrite be_val_bytes_small by (change (256 ^ Z.of_nat 4) with (2 ^ 32); lia).
  rewrite (stream_read_app payload) by reflexivity.
  match goal with
  | |- context [if len payload mod 2 =? 1 then seekg_cur 1 ?f else ?f] =>
      assert (Hf2 : (if len payload mod 2 =? 1 then seekg_cur 1 f else f)
                    = mkIstream (consumed f ++ p2) rest false)
  end.
  { cbn [consumed].
    pose proof (Z.mod_pos_bound (len payload) 2 ltac:(lia)).
    destruct (one_filler (len payload) p2 ltac:(lia) Hp2)
      as [[E ->]|[E [x ->]]].
    - destruct (Z.eqb_spec (len payload mod 2) 1); [lia|].
      now rewrite app_nil_r.
    - destruct (Z.eqb_spec (len payload mod 2) 1); [|lia].
      apply seekg_cur_one. }
  rewrite Hf2; clear Hf2. cbn [consumed].
  rewrite raw_of_bytes.
  fold b'.
  replace ((((((((pre ++ magic_8BIM) ++ raw_bytes id)
                ++ [byte.of_Z (len name)]) ++ name) ++ p1)
             ++ be_bytes 4 (len payload)) ++ payload) ++ p2)
    with (pre ++ magic_8BIM ++ raw_bytes id ++ [byte.of_Z (len name)]
          ++ name ++ p1 ++ be_bytes 4 (len payload) ++ payload ++ p2)
    by (now rewrite <- !app_assoc).
  unfold tellg; cbn [failbit consumed].
  rewrite len_app.
  match goal with
  | |- context [len pre + ?a - len pre =? ?s] =>
      replace (len pre + a - len pre) with a by lia
  end.
  cbn [app].
  destruct (_ =? _); reflexivity.
Qed.

Lemma of_Z_wrap8 (z : Z) : byte.of_Z (wrap8 z) = byte.of_Z z.
Proof.
  apply byte.unsigned_inj. rewrite !byte.unsigned_of_Z.
  unfold byte.wrap, wrap8. apply Z.mod_mod. discriminate.
Qed.

Lemma wrap8_parity (z : Z) : wrap8 z mod 2 = z mod 2.
Proof.
  unfold wrap8. change (2 ^ 8) with (2 * 128).
  rewrite Z.rem_mul_r by lia.
  rewrite (Z.mul_comm 2), Z.mod_add by lia.
  apply Z.mod_mod. lia.
Qed.

Lemma raw_bytes_be_put (n : nat) (z : Z) :
  raw_bytes (be_put n z) = be_bytes n z.
Proof. unfold be_put. apply raw_bytes_of, be_bytes_length. Qed.

Lemma write_block_layout (b : ImageResourceBlock.t) (out : ostream) :
  let bytes := block_layout (ImageResourceBlock.image_resource_id b)
                 (ImageResourceBlock.name b) (ImageResourceBlock.buffer b) in
  ImageResourceBlock.write b out
  = (len bytes =? ImageResourceBlock.size b, out ++ bytes).
Proof.
  destruct b as [sg id name payload].
  intros bytes. unfold ImageResourceBlock.write.
  cbn [ImageResourceBlock.name ImageResourceBlock.buffer
       ImageResourceBlock.image_resource_id] in bytes.
  cbn [ImageResourceBlock.name ImageResourceBlock.buffer
       ImageResourceBlock.image_resource_id].
  unfold stream_write, tellp.
  pose proof (len_nonneg name) as Hn0. pose proof (len_nonneg payload) as Hp0.
  rewrite of_Z_wrap8, wrap8_parity, raw_bytes_be_put.
  assert (H1 : forall o : list byte,
             (if len name mod 2 =? 0 then o ++ [Byte.x00] else o)
             = o ++ pad2_fill (1 + len name)).
  { intros o.
    pose proof (Z.div_mod (len name) 2 ltac:(lia)).
    pose proof (Z.mod_pos_bound (len name) 2 ltac:(lia)).
    pose proof (Z.div_mod (1 + len name) 2 ltac:(lia)).
    pose proof (Z.mod_pos_bound (1 + len name) 2 ltac:(lia)).
    destruct (Z.eqb_spec (len name mod 2) 0).
    - rewrite pad2_fill_odd by lia. reflexivity.
    - rewrite pad2_fill_even by lia. now rewrite app_nil_r. }
  assert (H2 : forall o : list byte,
             (if len payload mod 2 =? 1 then o ++ [Byte.x00] else o)
             = o ++ pad2_fill (len payload)).
  { intros o.
    pose proof (Z.mod_pos_bound (len payload) 2 ltac:(lia)).
    destruct (Z.eqb_spec (len payload mod 2) 1).
    - rewrite pad2_fill_odd by lia. reflexivity.
    - rewrite pad2_fill_even by lia. now rewrite app_nil_r. }
  rewrite H1, H2.
  assert (E : (((((((out ++ magic_8BIM) ++ raw_bytes id)
                   ++ [byte.of_Z (len name)]) ++ name)
                 ++ pad2_fill (1 + len name)) ++ be_bytes 4 (len payload))
               ++ payload) ++ pad2_fill (len payload) = out ++ bytes).
  { subst bytes. unfold block_layout. now rewrite <- !app_assoc. }
  rewrite E, len_app.
  replace (len out + len bytes - len out) with (len bytes) by lia.
  clear H1 H2 E.
  destruct (len bytes =? ImageResourceBlock.size _); reflexivity.
Qed.

(** [size()] agrees with the layout as long as the block fits 32 bits. *)
Lemma size_block_layout (b : ImageResourceBlock.t) :
  let bytes := block_layout (ImageResourceBlock.image_resource_id b)
                 (ImageResourceBlock.name b) (ImageResourceBlock.buffer b) in
  len bytes < 2 ^ 32 -> ImageResourceBlock.size b = len bytes.
Proof.
  intros bytes. subst bytes. rewrite len_block_layout.
  pose proof (len_nonneg (ImageResourceBlock.name b)) as Hn0.
  pose proof (len_nonneg (ImageResourceBlock.buffer b)) as Hp0.
  pose proof (len_pad2_fill (1 + len (ImageResourceBlock.name b)) ltac:(lia)).
  pose proof (len_pad2_fill (len (ImageResourceBlock.buffer b)) ltac:(lia)).
  pose proof (len_nonneg (pad2_fill (1 + len (ImageResourceBlock.name b)))).
  pose proof (len_nonneg (pad2_fill (len (ImageResourceBlock.buffer b)))).
  intros Hlt. unfold ImageResourceBlock.size.
  rewrite !padded_size_pad2 by lia.
  unfold wrap32. apply Z.mod_small. lia.
Qed.

(** C1, as amended.  For every block whose name has at most 255 bytes and
    whose laid out size stays below 2^32, with zero filler bytes:
    [read] accepts the layout, consumes exactly its bytes and leaves the
    rest of the stream; [write] of the block read emits the same bytes;
    and [size()] is the number of bytes consumed and produced. *)
Theorem image_resource_block_roundtrip
    (indet : byte) (b : ImageResourceBlock.t) (id : raw 2)
    (name payload pre rest : list byte) (out : ostream) :
  len name <= 255 ->
  len (block_layout id name payload) < 2 ^ 32 ->
  let bytes := block_layout id name payload in
  let b' := ImageResourceBlock.mk (raw_of 4 magic_8BIM) id name payload in
  ImageResourceBlock.read indet b (mkIstream pre (bytes ++ rest) false)
  = (true, b', mkIstream (pre ++ bytes) rest false)
  /\ ImageResourceBlock.write b' out = (true, out ++ bytes)
  /\ ImageResourceBlock.size b' = len bytes.
Proof.
  intros Hname Hsize bytes b'.
  assert (Hs : ImageResourceBlock.size b' = len bytes)
    by (apply (size_block_layout b'); exact Hsize).
  assert (Hpay : len payload < 2 ^ 32).
  { pose proof (len_block_layout id name payload) as E.
    pose proof (len_nonneg name).
    pose proof (len_pad2_fill (1 + len name) ltac:(lia)).
    pose proof (len_pad2_fill (len payload) (len_nonneg payload)).
    pose proof (len_nonneg (pad2_fill (1 + len name))).
    pose proof (len_nonneg (pad2_fill (len payload))). lia. }
  repeat split.
  - pose proof (read_block_bytes indet b id name
                  (pad2_fill (1 + len name)) payload
                  (pad2_fill (len payload)) pre rest
                  Hname Hpay eq_refl eq_refl) as R.
    cbv zeta in R. fold b' in R.
    change (block_bytes id name (pad2_fill (1 + len name)) payload
              (pad2_fill (len payload))) with bytes in R.
    rewrite R, Hs, Z.eqb_refl. reflexivity.
  - pose proof (write_block_layout b' out) as W. cbv zeta in W.
    change (block_layout _ _ _) with bytes in W.
    rewrite W, Hs, Z.eqb_refl. reflexivity.
  - exact Hs.
Qed.

Lemma image_resource_block_roundtrip_witness :
  ImageResourceBlock.read Byte.x00 block_a
    (mkIstream [] (block_layout sample_id [Byte.x61; Byte.x62]
                     [Byte.x01; Byte.x02; Byte.x03] ++ [Byte.xff]) false)
  = (true,
     ImageResourceBlock.mk (raw_of 4 magic_8BIM) sample_id
       [Byte.x61; Byte.x62] [Byte.x01; Byte.x02; Byte.x03],
     mkIstream ([] ++ block_layout sample_id [Byte.x61; Byte.x62]
                        [Byte.x01; Byte.x02; Byte.x03]) [Byte.xff] false)
  /\ ImageResourceBlock.write
       (ImageResourceBlock.mk (raw_of 4 magic_8BIM) sample_id
          [Byte.x61; Byte.x62] [Byte.x01; Byte.x02; Byte.x03]) []
     = (true, [] ++ block_layout sample_id [Byte.x61; Byte.x62]
                      [Byte.x01; Byte.x02; Byte.x03])
  /\ ImageResourceBlock.size
       (ImageResourceBlock.mk (raw_of 4 magic_8BIM) sample_id
          [Byte.x61; Byte.x62] [Byte.x01; Byte.x02; Byte.x03])
     = len (block_layout sample_id [Byte.x61; Byte.x62]
              [Byte.x01; Byte.x02; Byte.x03]).
Proof.
  apply (image_resource_block_roundtrip Byte.x00 block_a sample_id
           [Byte.x61; Byte.x62] [Byte.x01; Byte.x02; Byte.x03] []
           [Byte.xff] []).
  - vm_compute. discriminate.
  - vm_compute. reflexivity.
Defined.

Lemma len_largest_payload : len largest_payload = 4294967295.
Proof.
  unfold len, largest_payload. rewrite repeat_length.
  apply Z2Nat.id. lia.
Qed.

(** A block whose payload has 2^32-1 bytes: [size()] wraps around. *)
Lemma size_wraps_around (payload : list byte) :
  len payload = 4294967295 ->
  let b := ImageResourceBlock.mk (raw_of 4 magic_8BIM) sample_id [] payload in
  let bytes := block_layout sample_id [] payload in
  ImageResourceBlock.size b = 12
  /\ len bytes = 4294967308
  /\ ImageResourceBlock.read Byte.x00 b (mkIstream [] (bytes ++ []) false)
     = (false, b, mkIstream ([] ++ bytes) [] false)
  /\ ImageResourceBlock.write b [] = (false, [] ++ bytes).
Proof.
  intros Hlen b bytes.
  assert (Hs : ImageResourceBlock.size b = 12).
  { unfold ImageResourceBlock.size, b.
    cbn [ImageResourceBlock.name ImageResourceBlock.buffer].
    rewrite Hlen. reflexivity. }
  assert (Hl : len bytes = 4294967308).
  { unfold bytes. rewrite len_block_layout, Hlen. reflexivity. }
  split; [exact Hs|]. split; [exact Hl|]. split.
  - pose proof (read_block_bytes Byte.x00 b sample_id []
                  (pad2_fill (1 + len [])) payload
                  (pad2_fill (len payload)) [] []) as R.
    cbv zeta in R.
    change (block_bytes sample_id [] (pad2_fill (1 + len [])) payload
              (pad2_fill (len payload))) with bytes in R.
    fold b in R.
    rewrite R.
    + rewrite Hs, Hl. reflexivity.
    + unfold len; simpl; lia.
    + rewrite Hlen. lia.
    + exact eq_refl.
    + exact eq_refl.
  - pose proof (write_block_layout b []) as W. cbv zeta in W.
    change (block_layout _ _ _) with bytes in W.
    rewrite W, Hs, Hl. reflexivity.
Qed.

(** C1 as stated fails for the largest payload: the block is laid out by
    the rules, yet [size()] wraps around to 12 while 2^32 + 12 bytes are
    consumed and produced, and both [read] and [write] return false. *)
Lemma image_resource_block_largest_payload :
  ImageResourceBlock.size largest_block = 12
  /\ len (block_layout sample_id [] largest_payload) = 4294967308
  /\ ImageResourceBlock.read Byte.x00 largest_block
       (mkIstream [] (block_layout sample_id [] largest_payload ++ []) false)
     = (false, largest_block,
        mkIstream ([] ++ block_layout sample_id [] largest_payload) [] false)
  /\ ImageResourceBlock.write largest_block []
     = (false, [] ++ block_layout sample_id [] largest_payload).
Proof. exact (size_wraps_around largest_payload len_largest_payload). Qed.

(** C6, as amended.  The filler byte after the name is consumed by [read]
    and emitted by [write] exactly when the name length is even, that is
    when the length byte and the name together are odd; the filler byte
    after the payload exactly when the payload length is odd.  [read]
    skips the filler whatever its value, [write] emits zero. *)
Theorem image_resource_block_padding
    (indet : byte) (b : ImageResourceBlock.t) (id : raw 2)
    (name payload pre rest : list byte) (x y : byte) (out : ostream) :
  len name <= 255 ->
  len (block_layout id name payload) < 2 ^ 32 ->
  let b' := ImageResourceBlock.mk (raw_of 4 magic_8BIM) id name payload in
  let fill (c : bool) (v : byte) := if c then [v] else [] in
  ImageResourceBlock.read indet b
    (mkIstream pre
       (block_bytes id name (fill (Z.even (len name)) x) payload
          (fill (Z.odd (len payload)) y) ++ rest) false)
  = (true, b',
     mkIstream
       (pre ++ block_bytes id name (fill (Z.even (len name)) x) payload
                 (fill (Z.odd (len payload)) y)) rest false)
  /\ ImageResourceBlock.write b' out
     = (true,
        out ++ block_bytes id name (fill (Z.even (len name)) Byte.x00)
                 payload (fill (Z.odd (len payload)) Byte.x00)).
Proof.
  intros Hname Hsize b' fill.
  pose proof (len_nonneg name) as Hn0. pose proof (len_nonneg payload) as Hp0.
  assert (F1 : forall v, length (fill (Z.even (len name)) v)
                         = length (pad2_fill (1 + len name))
                         /\ (v = Byte.x00 -> fill (Z.even (len name)) v
                                             = pad2_fill (1 + len name))).
  { intros v.
    unfold fill. destruct (Z.even (len name)) eqn:E.
    - apply Z.even_spec in E. destruct E as [k E].
      rewrite pad2_fill_odd by (Z.div_mod_to_equations; lia).
      split; [reflexivity|now intros ->].
    - assert (O : Z.odd (len name) = true)
        by (rewrite <- Z.negb_even, E; reflexivity).
      apply Z.odd_spec in O. destruct O as [k O].
      rewrite pad2_fill_even by (Z.div_mod_to_equations; lia).
      split; reflexivity. }
  assert (F2 : forall v, length (fill (Z.odd (len payload)) v)
                         = length (pad2_fill (len payload))
                         /\ (v = Byte.x00 -> fill (Z.odd (len payload)) v
                                             = pad2_fill (len payload))).
  { intros v.
    unfold fill. destruct (Z.odd (len payload)) eqn:E.
    - apply Z.odd_spec in E. destruct E as [k E].
      rewrite pad2_fill_odd by (Z.div_mod_to_equations; lia).
      split; [reflexivity|now intros ->].
    - assert (O : Z.even (len payload) = true)
        by (rewrite <- Z.negb_odd, E; reflexivity).
      apply Z.even_spec in O. destruct O as [k O].
      rewrite pad2_fill_even by (Z.div_mod_to_equations; lia).
      split; reflexivity. }
  assert (Hs : ImageResourceBlock.size b' = len (block_layout id name payload))
    by (apply (size_block_layout b'); exact Hsize).
  assert (Hpay : len payload < 2 ^ 32).
  { pose proof (len_block_layout id name payload) as E.
    pose proof (len_pad2_fill (1 + len name) ltac:(lia)).
    pose proof (len_pad2_fill (len payload) Hp0).
    pose proof (len_nonneg (pad2_fill (1 + len name))).
    pose proof (len_nonneg (pad2_fill (len payload))). lia. }
  split.
  - pose proof (read_block_bytes indet b id name
                  (fill (Z.even (len name)) x) payload
                  (fill (Z.odd (len payload)) y) pre rest
                  Hname Hpay (proj1 (F1 x)) (proj1 (F2 y))) as R.
    cbv zeta in R. fold b' in R. rewrite R.
    assert (L : len (block_bytes id name (fill (Z.even (len name)) x) payload
                       (fill (Z.odd (len payload)) y))
                = len (block_layout id name payload)).
    { unfold block_bytes, block_layout.
      rewrite !len_app.
      assert (E1 : len (fill (Z.even (len name)) x)
                   = len (pad2_fill (1 + len name)))
        by exact (f_equal Z.of_nat (proj1 (F1 x))).
      assert (E2 : len (fill (Z.odd (len payload)) y)
                   = len (pad2_fill (len payload)))
        by exact (f_equal Z.of_nat (proj1 (F2 y))).
      rewrite E1, E2. reflexivity. }
    rewrite L, Hs, Z.eqb_refl. reflexivity.
  - pose proof (write_block_layout b' out) as W. cbv zeta in W.
    cbn [ImageResourceBlock.name ImageResourceBlock.buffer
         ImageResourceBlock.image_resource_id b'] in W.
    rewrite W, Hs, Z.eqb_refl.
    unfold block_bytes, block_layout.
    rewrite (proj2 (F1 Byte.x00) eq_refl), (proj2 (F2 Byte.x00) eq_refl).
    reflexivity.
Qed.

Lemma image_resource_block_padding_witness :
  ImageResourceBlock.read Byte.x00 block_noname
    (mkIstream []
       (block_bytes sample_id [Byte.x61; Byte.x62] [Byte.xaa]
          [Byte.x01; Byte.x02; Byte.x03] [Byte.xbb] ++ [Byte.xff]) false)
  = (true,
     ImageResourceBlock.mk (raw_of 4 magic_8BIM) sample_id
       [Byte.x61; Byte.x62] [Byte.x01; Byte.x02; Byte.x03],
     mkIstream
       ([] ++ block_bytes sample_id [Byte.x61; Byte.x62] [Byte.xaa]
                [Byte.x01; Byte.x02; Byte.x03] [Byte.xbb]) [Byte.xff] false)
  /\ ImageResourceBlock.write
       (ImageResourceBlock.mk (raw_of 4 magic_8BIM) sample_id
          [Byte.x61; Byte.x62] [Byte.x01; Byte.x02; Byte.x03]) []
     = (true,
        [] ++ block_bytes sample_id [Byte.x61; Byte.x62] [Byte.x00]
                [Byte.x01; Byte.x02; Byte.x03] [Byte.x00]).
Proof.
  apply (image_resource_block_padding Byte.x00 block_noname sample_id
           [Byte.x61; Byte.x62] [Byte.x01; Byte.x02; Byte.x03] []
           [Byte.xff] Byte.xaa Byte.xbb []).
  - vm_compute. discriminate.
  - vm_compute. reflexivity.
Defined.

(** C6 as stated fails.  For the name ["a"] the length byte and the name
    make two bytes, an even number, and no filler follows the name: the
    payload length comes right after it, on [write] and on [read].  For
    the empty name the total is odd and a filler byte is there. *)
Lemma image_resource_block_padding_even_total :
  Z.even (1 + len (ImageResourceBlock.name block_a)) = true
  /\ ImageResourceBlock.write block_a []
     = (true,
        magic_8BIM ++ raw_bytes sample_id ++ [Byte.x01; Byte.x61]
        ++ [Byte.x00; Byte.x00; Byte.x00; Byte.x00])
  /\ ImageResourceBlock.read Byte.x00 block_noname
       (istream_of
          (magic_8BIM ++ raw_bytes sample_id ++ [Byte.x01; Byte.x61]
           ++ [Byte.x00; Byte.x00; Byte.x00; Byte.x00]))
     = (true, block_a,
        mkIstream
          (magic_8BIM ++ raw_bytes sample_id ++ [Byte.x01; Byte.x61]
           ++ [Byte.x00; Byte.x00; Byte.x00; Byte.x00]) [] false)
  /\ Z.even (1 + len (ImageResourceBlock.name block_noname)) = false
  /\ ImageResourceBlock.write block_noname []
     = (true,
        magic_8BIM ++ raw_bytes sample_id ++ [Byte.x00] ++ [Byte.x00]
        ++ [Byte.x00; Byte.x00; Byte.x00; Byte.x01] ++ [Byte.x07]
        ++ [Byte.x00]).
Proof. repeat split; vm_compute; reflexivity. Qed.

(** ** Layer Mask *)




(** ** Extra Data Block *)

(** After [read] has returned true the payload has the declared size. *)
Lemma extra_data_read_size (e : ExtraData.t) (f : istream) :
  fst (fst (ExtraData.read e f)) = true ->
  len (ExtraData.data (snd (fst (ExtraData.read e f))))
  = be_get (ExtraData.length (snd (fst (ExtraData.read e f)))).
Proof.
  unfold ExtraData.read.
  destruct (stream_read 4 (raw_bytes (ExtraData.signature e)) f) as [sg f1].
  cbn [ExtraData.signature ExtraData.key ExtraData.length ExtraData.data].
  destruct (negb (sig_eqb (raw_of 4 sg) magic_8BIM)
            && negb (sig_eqb (raw_of 4 sg) magic_8B64));
    [discriminate|].
  destruct (stream_read 4 (raw_bytes (ExtraData.key e)) f1) as [k f2].
  destruct (stream_read 4 (raw_bytes (ExtraData.length e)) f2) as [l f3].
  pose proof (stream_read_length (be_get (raw_of 4 l))
                (resize (be_get (raw_of 4 l)) (ExtraData.data e)) f3
                (resize_length _ _)) as Hlen.
  destruct (stream_read (be_get (raw_of 4 l)) _ f3) as [d f4].
  cbn [fst snd ExtraData.data ExtraData.length] in *.
  intros _. unfold len. rewrite Hlen. apply Z2Nat.id.
  unfold be_get. generalize (raw_bytes (raw_of 4 l)).
  induction l0 as [|x l0 IH]; cbn [be_val]; [lia|].
  pose proof (byte.unsigned_range x).
  assert (0 < 256 ^ Z.of_nat (length l0)) by (apply Z.pow_pos_nonneg; lia).
  nia.
Qed.

(** [write] emits the signature, the key, the stored length field and
    then as many payload bytes as that field says: the zero appended to an
    odd payload is cut off again by [data.resize(length)]. *)
Lemma extra_data_write_bytes (e : ExtraData.t) (f : ostream) :
  exists payload,
    snd (ExtraData.write e f)
    = f ++ raw_bytes (ExtraData.signature e) ++ raw_bytes (ExtraData.key e)
        ++ raw_bytes (ExtraData.length e) ++ payload
    /\ length payload = Z.to_nat (be_get (ExtraData.length e)).
Proof.
  unfold ExtraData.write, stream_write. cbn [snd].
  eexists. split.
  - rewrite <- !app_assoc. reflexivity.
  - apply resize_length.
Qed.

(** C7, the failing input.  A block that announces one payload byte is
    read with a payload of size one, and [write] emits that one byte with
    no filler after it: thirteen bytes, an odd payload. *)
Theorem extra_data_write_odd_payload :
  ExtraData.read blank_extra (istream_of odd_extra_bytes)
  = (true, odd_extra, mkIstream odd_extra_bytes [] false)
  /\ len (ExtraData.data odd_extra) = be_get (ExtraData.length odd_extra)
  /\ ExtraData.write odd_extra [] = (true, odd_extra, odd_extra_bytes)
  /\ len (snd (ExtraData.write odd_extra [])) = 4 + 4 + 4 + 1.
Proof. repeat split; vm_compute; reflexivity. Qed.

(** ** Layer Info Section: write *)

(** C8.  [LayerInfo::write] stops in the failed assertion whatever the
    section holds; it writes nothing and never returns. *)
Theorem layer_info_write_aborts (li : LayerInfo.t) (f : ostream) :
  LayerInfo.write li f = (AssertionFailure, f)
  /\ forall ok, fst (LayerInfo.write li f) <> Returns ok.
Proof.
  unfold LayerInfo.write, LayerInfo.assert, LayerInfo.NDEBUG. cbn.
  split; [reflexivity|discriminate].
Qed.

(** ** Unicode names *)

Lemma utf8_of_wc_spec (u : Z) :
  0 <= u < 65536 -> ExtraData.utf8_of_wc u = utf8_spec u.
Proof.
  intros Hu. unfold ExtraData.utf8_of_wc, utf8_spec.
  change 0x1F with (Z.ones 5). change 0x3F with (Z.ones 6).
  change 0x0F with (Z.ones 4).
  rewrite !Z.land_ones, !Z.shiftr_div_pow2 by lia.
  change (2 ^ 6) with 64. change (2 ^ 5) with 32.
  change (2 ^ 12) with 4096. change (2 ^ 4) with 16.
  destruct (Z.ltb_spec u 0x80); [reflexivity|].
  destruct (Z.ltb_spec u 0x800).
  - rewrite (Z.mod_small (u / 64) 32); [reflexivity|].
    split; [apply Z.div_pos; lia|apply Z.div_lt_upper_bound; lia].
  - rewrite (Z.mod_small (u / 4096) 16); [reflexivity|].
    split; [apply Z.div_pos; lia|apply Z.div_lt_upper_bound; lia].
Qed.

Lemma nth_unit_bytes (units : list Z) (tail : list byte) (d : byte)
    (i : nat) :
  (i < length units)%nat ->
  nth (2 * i) (flat_map (be_bytes 2) units ++ tail) d
  = byte.of_Z (nth i units 0 / 256)
  /\ nth (2 * i + 1) (flat_map (be_bytes 2) units ++ tail) d
     = byte.of_Z (nth i units 0).
Proof.
  revert i. induction units as [|u units IH]; intros i Hi; simpl in Hi;
    [lia|].
  destruct i as [|i].
  - cbn. rewrite Z.div_1_r. split; reflexivity.
  - replace (2 * S i)%nat with (S (S (2 * i))) by lia.
    replace (S (S (2 * i)) + 1)%nat with (S (S (2 * i + 1))) by lia.
    cbn [flat_map be_bytes app nth].
    apply IH. lia.
Qed.

Lemma luni_unit_at (indet : byte) (e : ExtraData.t) (units : list Z)
    (tail : list byte) (i : nat) :
  Forall (fun u => 0 <= u < 65536) units ->
  ExtraData.data e = luni_payload units ++ tail ->
  len (ExtraData.data e) < 2 ^ 32 ->
  (i < length units)%nat ->
  ExtraData.unit_at indet e (Z.of_nat i) = nth i units 0.
Proof.
  intros Hf Hd Hl Hi.
  assert (Hlen : 4 + 2 * Z.of_nat (length units) <= len (ExtraData.data e)).
  { rewrite Hd. unfold luni_payload. rewrite !len_app, len_be_bytes.
    pose proof (len_nonneg tail).
    assert (len (flat_map (be_bytes 2) units)
            = 2 * Z.of_nat (length units)); [|lia].
    clear. induction units as [|u units IH]; [reflexivity|].
    cbn [flat_map]. rewrite len_app, IH, len_be_bytes.
    cbn [length]. lia. }
  unfold ExtraData.unit_at, ExtraData.at_p.
  unfold wrap32. rewrite Z.mod_small by lia.
  replace (Z.to_nat (4 + Z.of_nat i * 2)) with (4 + 2 * i)%nat by lia.
  replace (Z.to_nat (4 + Z.of_nat i * 2 + 1)) with (4 + (2 * i + 1))%nat
    by lia.
  rewrite Hd. unfold luni_payload. rewrite <- !app_assoc.
  rewrite !app_nth2_plus
    || (rewrite !(app_nth2 (be_bytes 4 _)) by (rewrite be_bytes_length; lia);
        rewrite !be_bytes_length).
  all: try replace (4 + 2 * i - 4)%nat with (2 * i)%nat by lia.
  all: try replace (4 + (2 * i + 1) - 4)%nat with (2 * i + 1)%nat by lia.
  destruct (nth_unit_bytes units tail indet i Hi) as [-> ->].
  assert (Hu : 0 <= nth i units 0 < 65536).
  { rewrite Forall_forall in Hf. apply Hf. now apply nth_In. }
  change [byte.of_Z (nth i units 0 / 256); byte.of_Z (nth i units 0)]
    with (byte.of_Z (nth i units 0 / 256 ^ Z.of_nat 1)
          :: [byte.of_Z (nth i units 0)]).
  cbn [be_val length]. rewrite !byte.unsigned_of_Z. unfold byte.wrap.
  change (2 ^ 8) with 256. change (256 ^ Z.of_nat 1) with 256.
  change (256 ^ Z.of_nat 0) with 1.
  rewrite (Z.mod_small (nth i units 0 / 256)).
  - pose proof (Z.div_mod (nth i units 0) 256 ltac:(lia)). lia.
  - split; [apply Z.div_pos; lia|apply Z.div_lt_upper_bound; lia].
Qed.

Lemma utf8_spec_length (u : Z) : (1 <= length (utf8_spec u) <= 3)%nat.
Proof.
  unfold utf8_spec.
  destruct (u <? 0x80); [simpl; lia|].
  destruct (u <? 0x800); simpl; lia.
Qed.

(** C2.  [luni_read_name] takes the first four payload bytes as the
    big-endian count, decodes that many 2-byte big-endian units into
    [wname], and sets [utf8name] to the units transcoded one by one with
    the rule of the spec; no unit yields more than three bytes, so a
    surrogate pair becomes two 3-byte sequences.  U+03A9 gives CE A9 and
    U+0041 gives 41. *)
Theorem luni_read_name_transcodes
    (indet : byte) (e : ExtraData.t) (units : list Z) (tail : list byte)
    (wname : list Z) (utf8name : list byte) :
  Forall (fun u => 0 <= u < 65536) units ->
  ExtraData.data e = luni_payload units ++ tail ->
  len (ExtraData.data e) < 2 ^ 32 ->
  ExtraData.luni_read_name indet e wname utf8name
  = (units, flat_map utf8_spec units)
  /\ Forall (fun u => (length (utf8_spec u) <= 3)%nat) units
  /\ ExtraData.luni_read_name indet
       (luni_block (luni_payload [0x03A9])) wname utf8name
     = ([0x03A9], [Byte.xce; Byte.xa9])
  /\ ExtraData.luni_read_name indet
       (luni_block (luni_payload [0x0041])) wname utf8name
     = ([0x0041], [Byte.x41])
  /\ ExtraData.luni_read_name indet
       (luni_block (luni_payload [0xD83D; 0xDE00])) wname utf8name
     = ([0xD83D; 0xDE00],
        [Byte.xed; Byte.xa0; Byte.xbd; Byte.xed; Byte.xb8; Byte.x80]).
Proof.
  intros Hf Hd Hl.
  split; [|split; [|repeat split; vm_compute; reflexivity]].
  - unfold ExtraData.luni_read_name.
    assert (Hn : be_val [ExtraData.at_p indet e 0; ExtraData.at_p indet e 1;
                         ExtraData.at_p indet e 2; ExtraData.at_p indet e 3]
                 = Z.of_nat (length units)).
    { unfold ExtraData.at_p. rewrite Hd. unfold luni_payload.
      rewrite <- app_assoc.
      assert (Hb : Z.of_nat (length units) < 2 ^ 32).
      { rewrite Hd in Hl. unfold luni_payload in Hl.
        rewrite !len_app, len_be_bytes in Hl.
        pose proof (len_nonneg tail).
        assert (Z.of_nat (length units)
                <= len (flat_map (be_bytes 2) units)); [|lia].
        clear. induction units as [|u units IH]; [reflexivity|].
        cbn [flat_map]. rewrite len_app, len_be_bytes.
        cbn [length]. lia. }
      transitivity (be_val (be_bytes 4 (Z.of_nat (length units))));
        [reflexivity|].
      apply be_val_bytes_small.
      change (256 ^ Z.of_nat 4) with (2 ^ 32). lia. }
    rewrite Hn, Nat2Z.id.
    assert (Hw : map (fun i => ExtraData.unit_at indet e (Z.of_nat i))
                   (seq 0 (length units)) = units).
    { apply (nth_ext _ _ 0 0).
      - now rewrite length_map, length_seq.
      - intros i Hi. rewrite length_map, length_seq in Hi.
        rewrite (nth_indep _ 0
                   (ExtraData.unit_at indet e (Z.of_nat 0)))
          by (now rewrite length_map, length_seq).
        rewrite (map_nth (fun i => ExtraData.unit_at indet e (Z.of_nat i))).
        rewrite seq_nth by exact Hi. cbn [Nat.add].
        now apply (luni_unit_at indet e units tail). }
    rewrite Hw. f_equal.
    clear - Hf. induction Hf as [|u units Hu _ IH]; [reflexivity|].
    cbn [flat_map]. rewrite IH, utf8_of_wc_spec by exact Hu. reflexivity.
  - clear. induction units as [|u units IH]; constructor; [|exact IH].
    apply utf8_spec_length.
Qed.

Lemma luni_read_name_transcodes_witness :
  ExtraData.luni_read_name Byte.xff
    (luni_block (luni_payload [0x0050; 0x03A9; 0x20AC] ++ [Byte.x00; Byte.x00]))
    [] []
  = ([0x0050; 0x03A9; 0x20AC],
     flat_map utf8_spec [0x0050; 0x03A9; 0x20AC])
  /\ Forall (fun u => (length (utf8_spec u) <= 3)%nat)
       [0x0050; 0x03A9; 0x20AC]
  /\ ExtraData.luni_read_name Byte.xff
       (luni_block (luni_payload [0x03A9])) [] []
     = ([0x03A9], [Byte.xce; Byte.xa9])
  /\ ExtraData.luni_read_name Byte.xff
       (luni_block (luni_payload [0x0041])) [] []
     = ([0x0041], [Byte.x41])
  /\ ExtraData.luni_read_name Byte.xff
       (luni_block (luni_payload [0xD83D; 0xDE00])) [] []
     = ([0xD83D; 0xDE00],
        [Byte.xed; Byte.xa0; Byte.xbd; Byte.xed; Byte.xb8; Byte.x80]).
Proof.
  apply (luni_read_name_transcodes Byte.xff
           (luni_block (luni_payload [0x0050; 0x03A9; 0x20AC]
                        ++ [Byte.x00; Byte.x00]))
           [0x0050; 0x03A9; 0x20AC] [Byte.x00; Byte.x00] [] []).
  - repeat constructor; lia.
  - reflexivity.
  - vm_compute. reflexivity.
Defined.

(** ** Layer Info Section: read *)

Section LayerInfoRead.
Variable indet : byte.
Variable wchar_of_char : byte -> Z.
Variable new_ExtraData : ExtraData.t.
Variable new_Layer : Layer.t.

Local Abbreviation read_layers :=
  (LayerInfo.read_layers indet wchar_of_char new_ExtraData new_Layer).
Local Abbreviation read :=
  (LayerInfo.read indet wchar_of_char new_ExtraData new_Layer).

(** The loop over the layers leaves the count and the flag alone. *)
Lemma read_layers_keeps_count (n : nat) (li : LayerInfo.t) (f : istream) :
  LayerInfo.num_layers (snd (fst (read_layers n li f)))
  = LayerInfo.num_layers li
  /\ LayerInfo.has_merged_alpha_channel (snd (fst (read_layers n li f)))
     = LayerInfo.has_merged_alpha_channel li.
Proof.
  revert li f.
  induction n as [|n IH]; intros li f; cbn [LayerInfo.read_layers];
    [split; reflexivity|].
  destruct (Layer.read indet wchar_of_char new_ExtraData new_Layer f)
    as [[r l] f'].
  destruct r as [[|]| |]; try (split; reflexivity).
  destruct (IH (LayerInfo.mk (LayerInfo.num_layers li)
                  (LayerInfo.has_merged_alpha_channel li)
                  (LayerInfo.layers li ++ [l])) f') as [E1 E2].
  rewrite E1, E2. split; reflexivity.
Qed.

Lemma read_keeps_count (li : LayerInfo.t) (f : istream) :
  LayerInfo.num_layers (snd (fst (read li f)))
  = LayerInfo.num_layers (fst (LayerInfo.read_count indet li f))
  /\ LayerInfo.has_merged_alpha_channel (snd (fst (read li f)))
     = LayerInfo.has_merged_alpha_channel
         (fst (LayerInfo.read_count indet li f)).
Proof.
  unfold LayerInfo.read.
  destruct (LayerInfo.read_count indet li f) as [li1 f1].
  apply read_layers_keeps_count.
Qed.
End LayerInfoRead.

Lemma read_count_field (indet : byte) (li : LayerInfo.t)
    (pre lenf rest : list byte) (cnt : raw 2) :
  length lenf = 4%nat ->
  fst (LayerInfo.read_count indet li
         (mkIstream pre (lenf ++ raw_bytes cnt ++ rest) false))
  = if signed16 (be_get cnt) <? 0
    then LayerInfo.mk (be_put 2 (- signed16 (be_get cnt))) true
           (LayerInfo.layers li)
    else LayerInfo.mk cnt (LayerInfo.has_merged_alpha_channel li)
           (LayerInfo.layers li).
Proof.
  intros Hl. unfold LayerInfo.read_count.
  rewrite (stream_read_app lenf) by (unfold len; rewrite Hl; reflexivity).
  rewrite (stream_read_app (raw_bytes cnt)) by (now rewrite len_raw_bytes).
  rewrite raw_of_bytes.
  cbn [LayerInfo.num_layers LayerInfo.has_merged_alpha_channel
       LayerInfo.layers].
  destruct (signed16 (be_get cnt) <? 0); reflexivity.
Qed.

Lemma signed16_range (z : Z) : - 2 ^ 15 <= signed16 z < 2 ^ 15.
Proof.
  unfold signed16, wrap16.
  pose proof (Z.mod_pos_bound z (2 ^ 16) ltac:(lia)).
  destruct (Z.ltb_spec (z mod 2 ^ 16) (2 ^ 15)); lia.
Qed.

Lemma be_get_put (n : nat) (z : Z) :
  be_get (be_put n z) = z mod 256 ^ Z.of_nat n.
Proof. unfold be_get. rewrite raw_bytes_be_put. apply be_val_bytes. Qed.

(** C9, as amended.  When the 2-byte count field read as a signed number
    is negative and not -32768, [LayerInfo::read] leaves its absolute
    value in [num_layers] and sets [has_merged_alpha_channel]; when it is
    not negative, [num_layers] is the field and the flag keeps the value
    it had.  This holds whatever the reading of the layers does next. *)
Theorem layer_info_read_count_sign
    (indet : byte) (wchar_of_char : byte -> Z) (new_ExtraData : ExtraData.t)
    (new_Layer : Layer.t) (li : LayerInfo.t) (pre lenf rest : list byte)
    (cnt : raw 2) :
  length lenf = 4%nat ->
  let v := signed16 (be_get cnt) in
  let li' :=
    snd (fst (LayerInfo.read indet wchar_of_char new_ExtraData new_Layer li
                (mkIstream pre (lenf ++ raw_bytes cnt ++ rest) false))) in
  (v < 0 -> v <> - 32768 ->
   signed16 (be_get (LayerInfo.num_layers li')) = Z.abs v
   /\ LayerInfo.has_merged_alpha_channel li' = true)
  /\ (0 <= v ->
      signed16 (be_get (LayerInfo.num_layers li')) = v
      /\ LayerInfo.has_merged_alpha_channel li'
         = LayerInfo.has_merged_alpha_channel li).
Proof.
  intros Hl v li'.
  destruct (read_keeps_count indet wchar_of_char new_ExtraData new_Layer li
              (mkIstream pre (lenf ++ raw_bytes cnt ++ rest) false))
    as [E1 E2].
  fold li' in E1, E2.
  rewrite (read_count_field indet li pre lenf rest cnt Hl) in E1, E2.
  fold v in E1, E2.
  pose proof (signed16_range (be_get cnt)) as Hr. fold v in Hr.
  split.
  - intros Hneg Hmin.
    destruct (Z.ltb_spec v 0); [|lia].
    cbn [LayerInfo.num_layers LayerInfo.has_merged_alpha_channel] in E1, E2.
    rewrite E1, E2, be_get_put. split; [|reflexivity].
    change (256 ^ Z.of_nat 2) with (2 ^ 16).
    unfold signed16 at 1. unfold wrap16.
    rewrite Z.mod_mod by lia.
    rewrite (Z.mod_small (- v)) by lia.
    destruct (Z.ltb_spec (- v) (2 ^ 15)); lia.
  - intros Hpos.
    destruct (Z.ltb_spec v 0); [lia|].
    cbn [LayerInfo.num_layers LayerInfo.has_merged_alpha_channel] in E1, E2.
    rewrite E1, E2. split; reflexivity.
Qed.

Lemma layer_info_read_count_sign_witness :
  signed16
    (be_get
       (LayerInfo.num_layers
          (snd (fst (LayerInfo.read Byte.x00 wchar_signed blank_extra
                       blank_layer blank_layer_info count_minus3_stream)))))
  = 3
  /\ LayerInfo.has_merged_alpha_channel
       (snd (fst (LayerInfo.read Byte.x00 wchar_signed blank_extra
                    blank_layer blank_layer_info count_minus3_stream)))
     = true.
Proof.
  apply (layer_info_read_count_sign Byte.x00 wchar_signed blank_extra
           blank_layer blank_layer_info []
           [Byte.x00; Byte.x00; Byte.x00; Byte.x02] []
           (raw_of 2 [Byte.xff; Byte.xfd]) eq_refl).
  - vm_compute. reflexivity.
  - vm_compute. discriminate.
Defined.

(** C9 as stated fails for the count -32768: negating it in 16 bits gives
    -32768 again, so [num_layers] is not the absolute value 32768. *)
Lemma layer_info_read_count_minimum :
  signed16 (be_get (raw_of 2 [Byte.x80; Byte.x00])) = - 32768
  /\ signed16
       (be_get
          (LayerInfo.num_layers
             (snd (fst (LayerInfo.read Byte.x00 wchar_signed blank_extra
                          blank_layer blank_layer_info count_min_stream)))))
     = - 32768
  /\ LayerInfo.has_merged_alpha_channel
       (snd (fst (LayerInfo.read Byte.x00 wchar_signed blank_extra
                    blank_layer blank_layer_info count_min_stream)))
     = true.
Proof.
  destruct (read_keeps_count Byte.x00 wchar_signed blank_extra blank_layer
              blank_layer_info count_min_stream) as [E1 E2].
  rewrite E1, E2. repeat split; vm_compute; reflexivity.
Qed.

(** ** Document *)

(** A read that finds at least the bytes [xs] stores them first. *)
Lemma stream_read_prefix (xs rest pre dst : list byte) (n : Z) :
  len xs <= n -> length dst = Z.to_nat n ->
  exists tail,
    fst (stream_read n dst (mkIstream pre (xs ++ rest) false)) = xs ++ tail
    /\ length (xs ++ tail) = Z.to_nat n.
Proof.
  intros Hn Hd.
  pose proof (stream_read_length n dst (mkIstream pre (xs ++ rest) false) Hd)
    as Hlen.
  unfold stream_read in *. cbn [failbit pending consumed] in *.
  pose proof (len_nonneg xs).
  destruct (Z.leb_spec n (len (xs ++ rest))); cbn [fst] in *.
  - exists (firstn (Z.to_nat n - length xs) rest).
    rewrite firstn_app in Hlen |- *.
    rewrite firstn_all2 in Hlen |- * by (unfold len in Hn; lia).
    split; [reflexivity|exact Hlen].
  - exists (rest ++ skipn (length (xs ++ rest)) dst).
    rewrite <- app_assoc in Hlen |- *. split; [reflexivity|exact Hlen].
Qed.

Section Document.
Variable indet : byte.
Variable wchar_of_char : byte -> Z.
Variable new_ExtraData : ExtraData.t.
Variable new_Layer : Layer.t.
Variable new_ImageResourceBlock : ImageResourceBlock.t.

Local Abbreviation read_color_mode := (psd.read_color_mode indet).
Local Abbreviation read_image_resources :=
  (psd.read_image_resources indet new_ImageResourceBlock).
Local Abbreviation read_layers_and_masks :=
  (psd.read_layers_and_masks indet wchar_of_char new_ExtraData new_Layer).
Local Abbreviation load :=
  (psd.load indet wchar_of_char new_ExtraData new_Layer
     new_ImageResourceBlock).

(** No stage touches the validity flag. *)
Lemma read_header_valid (d : psd.t) (f : istream) :
  psd.valid_ (snd (fst (psd.read_header d f))) = psd.valid_ d.
Proof.
  unfold psd.read_header.
  destruct (stream_read _ _ (seekg_start f)) as [h f1].
  destruct (negb _); [reflexivity|].
  destruct (negb _); reflexivity.
Qed.

Lemma read_color_mode_valid (d : psd.t) (f : istream) :
  psd.valid_ (snd (fst (read_color_mode d f))) = psd.valid_ d.
Proof.
  unfold psd.read_color_mode.
  destruct (stream_read _ _ f) as [c f1].
  destruct (negb _); reflexivity.
Qed.

Lemma read_image_resources_valid (d : psd.t) (f : istream) :
  psd.valid_ (snd (fst (read_image_resources d f))) = psd.valid_ d.
Proof.
  unfold psd.read_image_resources.
  destruct (stream_read _ _ f) as [l f1].
  destruct (psd.read_blocks _ _ _ _ _ _ _) as [[r irs] f2].
  reflexivity.
Qed.

Lemma read_layers_and_masks_valid (d : psd.t) (f : istream) :
  psd.valid_ (snd (fst (read_layers_and_masks d f))) = psd.valid_ d.
Proof.
  unfold psd.read_layers_and_masks.
  destruct (stream_read _ _ f) as [l f1].
  destruct (be_val l =? 0); [reflexivity|].
  destruct (LayerInfo.read _ _ _ _ _ _) as [[r li] f2].
  destruct r as [[|]| |]; try reflexivity.
  destruct (_ <? _); [|reflexivity].
  destruct (stream_read _ _ f2) as [x f3]. reflexivity.
Qed.

Lemma load_stages (d : psd.t) (f : istream) :
  (fst (fst (load d f)) = Returns true
   <-> exists d4 f4,
         stages_succeed indet wchar_of_char new_ExtraData new_Layer
           new_ImageResourceBlock d f d4 f4
         /\ load d f = (Returns true, psd.set_valid_ true d4, f4))
  /\ psd.valid_ (snd (fst (load d f)))
     = psd.valid_ d || succeeded (fst (fst (load d f))).
Proof.
  pose proof (read_header_valid d f) as V1.
  unfold stages_succeed, psd.load.
  destruct (psd.read_header d f) as [[ok1 d1] f1] eqn:S1.
  cbn [fst snd] in V1.
  pose proof (read_color_mode_valid d1 f1) as V2.
  destruct (psd.read_color_mode indet d1 f1) as [[ok2 d2] f2] eqn:S2.
  cbn [fst snd] in V2.
  pose proof (read_image_resources_valid d2 f2) as V3.
  destruct (psd.read_image_resources indet new_ImageResourceBlock d2 f2)
    as [[r3 d3] f3] eqn:S3.
  cbn [fst snd] in V3.
  pose proof (read_layers_and_masks_valid d3 f3) as V4.
  destruct (psd.read_layers_and_masks indet wchar_of_char new_ExtraData
              new_Layer d3 f3) as [[r4 d4] f4] eqn:S4.
  cbn [fst snd] in V4.
  assert (F : ok1 = true /\ ok2 = true /\ r3 = Returns true
              /\ r4 = Returns true
              \/ (ok1 = false \/ ok2 = false \/ r3 <> Returns true
                  \/ r4 <> Returns true)).
  { destruct ok1; [|tauto]. destruct ok2; [|tauto].
    destruct r3 as [[|]| |];
      try (right; right; right; left; discriminate).
    destruct r4 as [[|]| |];
      try (right; right; right; right; discriminate).
    left. tauto. }
  destruct F as [(-> & -> & -> & ->)|F].
  - cbn [negb fst snd succeeded]. split; [|now rewrite orb_true_r].
    split; [intros _|reflexivity].
    exists d4, f4. split; [|reflexivity].
    exists d1, f1, d2, f2, d3, f3. repeat split; assumption.
  - assert (N : forall x y, ~ (exists a1 b1 a2 b2 a3 b3,
                  (ok1, d1, f1) = (true, a1, b1)
                  /\ psd.read_color_mode indet a1 b1 = (true, a2, b2)
                  /\ psd.read_image_resources indet new_ImageResourceBlock
                       a2 b2 = (Returns true, a3, b3)
                  /\ psd.read_layers_and_masks indet wchar_of_char
                       new_ExtraData new_Layer a3 b3
                     = (Returns true, x, y))).
    { intros x y (a1 & b1 & a2 & b2 & a3 & b3 & E1 & E2 & E3 & E4).
      injection E1 as -> <- <-.
      rewrite S2 in E2. injection E2 as -> <- <-.
      rewrite S3 in E3. injection E3 as -> <- <-.
      rewrite S4 in E4. injection E4 as -> _ _.
      destruct F as [F|[F|[F|F]]]; congruence. }
    assert (R : exists r d' f',
               (if negb ok1 then (Returns false, d1, f1)
                else if negb ok2 then (Returns false, d2, f2)
                else match r3 with
                     | Returns true =>
                         match r4 with
                         | Returns true =>
                             (Returns true, psd.set_valid_ true d4, f4)
                         | _ => (r4, d4, f4)
                         end
                     | _ => (r3, d3, f3)
                     end) = (r, d', f')
               /\ r <> Returns true /\ psd.valid_ d' = psd.valid_ d).
    { destruct ok1; cbn [negb].
      2: { eexists _, _, _. repeat split; [discriminate|exact V1]. }
      destruct ok2; cbn [negb].
      2: { eexists _, _, _. repeat split; [discriminate|congruence]. }
      destruct r3 as [[|]| |];
        try (eexists _, _, _; repeat split; [discriminate|congruence]).
      destruct r4 as [[|]| |];
        try (eexists _, _, _; repeat split; [discriminate|congruence]).
      destruct F as [F|[F|[F|F]]]; congruence. }
    destruct R as (r & d' & f' & -> & Hr & Hv). cbn [fst snd].
    split.
    + split; [contradiction|].
      intros (x & y & H & _). exfalso. exact (N x y H).
    + rewrite Hv. destruct r as [[|]| |]; cbn [succeeded];
        try (now rewrite orb_false_r). contradiction.
Qed.
End Document.

(** When the four stages succeed one after the other, [load] returns
    true, sets the flag in the document of the last stage and leaves the
    stream of the last stage. *)
Lemma load_of_stages
    (indet : byte) (wchar_of_char : byte -> Z) (new_ExtraData : ExtraData.t)
    (new_Layer : Layer.t) (new_ImageResourceBlock : ImageResourceBlock.t)
    (d : psd.t) (f : istream) (d4 : psd.t) (f4 : istream) :
  stages_succeed indet wchar_of_char new_ExtraData new_Layer
    new_ImageResourceBlock d f d4 f4 ->
  psd.load indet wchar_of_char new_ExtraData new_Layer
    new_ImageResourceBlock d f
  = (Returns true, psd.set_valid_ true d4, f4).
Proof.
  intros (d1 & f1 & d2 & f2 & d3 & f3 & E1 & E2 & E3 & E4).
  unfold psd.load. rewrite E1. cbn [negb]. rewrite E2. cbn [negb].
  rewrite E3, E4. reflexivity.
Qed.

(** The four stages succeed on [minimal_document], read from its first
    byte into the blank document. *)
Lemma minimal_document_stages :
  stages_succeed Byte.x00 wchar_signed blank_extra blank_layer blank_block
    blank_document (istream_of minimal_document)
    (psd.mk (raw_of psd.sizeof_header minimal_header) [] blank_layer_info
       false)
    (mkIstream minimal_document [] false).
Proof.
  exists (psd.mk (raw_of psd.sizeof_header minimal_header) []
            blank_layer_info false),
    (mkIstream minimal_header (repeat Byte.x00 12) false),
    (psd.mk (raw_of psd.sizeof_header minimal_header) []
       blank_layer_info false),
    (mkIstream (minimal_header ++ repeat Byte.x00 4) (repeat Byte.x00 8)
       false),
    (psd.mk (raw_of psd.sizeof_header minimal_header) []
       blank_layer_info false),
    (mkIstream (minimal_header ++ repeat Byte.x00 8) (repeat Byte.x00 4)
       false).
  repeat split; vm_compute; reflexivity.
Qed.

(** C3, as amended.  After a call of [load] the validity flag is true
    exactly when it was true before the call or the four stages of this
    call succeed in order.  When the stages succeed [load] returns true
    with the flag set, and [load] returns true only when they succeed; it
    never clears the flag.  The conversion to [bool] returns the flag. *)
Theorem valid_flag_after_load
    (indet : byte) (wchar_of_char : byte -> Z) (new_ExtraData : ExtraData.t)
    (new_Layer : Layer.t) (new_ImageResourceBlock : ImageResourceBlock.t)
    (d : psd.t) (f : istream) :
  let load := psd.load indet wchar_of_char new_ExtraData new_Layer
                new_ImageResourceBlock in
  let stages := stages_succeed indet wchar_of_char new_ExtraData new_Layer
                  new_ImageResourceBlock in
  (psd.operator_bool (snd (fst (load d f))) = true
   <-> psd.valid_ d = true \/ exists d4 f4, stages d f d4 f4)
  /\ (forall d4 f4,
        stages d f d4 f4 ->
        load d f = (Returns true, psd.set_valid_ true d4, f4))
  /\ (fst (fst (load d f)) = Returns true -> exists d4 f4, stages d f d4 f4)
  /\ psd.operator_bool (snd (fst (load d f)))
     = psd.valid_ d || succeeded (fst (fst (load d f))).
Proof.
  intros load stages.
  destruct (load_stages indet wchar_of_char new_ExtraData new_Layer
              new_ImageResourceBlock d f) as [H1 H2].
  fold load in H1, H2. fold stages in H1.
  assert (S : forall d4 f4, stages d f d4 f4 ->
              load d f = (Returns true, psd.set_valid_ true d4, f4))
    by (intros d4 f4; apply load_of_stages).
  assert (R : fst (fst (load d f)) = Returns true ->
              exists d4 f4, stages d f d4 f4).
  { intros E. destruct (proj1 H1 E) as (d4 & f4 & H & _).
    now exists d4, f4. }
  split; [|split; [exact S|split; [exact R|exact H2]]].
  unfold psd.operator_bool. rewrite H2. split.
  - intros V. apply orb_true_iff in V. destruct V as [V|V]; [now left|].
    right. apply R.
    destruct (fst (fst (load d f))) as [[|]| |]; try discriminate V.
    reflexivity.
  - intros [V|(d4 & f4 & H)]; [now rewrite V|].
    rewrite (S d4 f4 H). cbn [fst succeeded]. apply orb_true_r.
Qed.

(** C3 on the smallest well-formed document: the blank document is not
    valid, the four stages succeed, and the document converts to true
    after the call. *)
Lemma valid_flag_after_load_witness :
  psd.valid_ blank_document = false
  /\ psd.operator_bool
       (snd (fst (psd.load Byte.x00 wchar_signed blank_extra blank_layer
                    blank_block blank_document
                    (istream_of minimal_document))))
     = true.
Proof.
  split; [reflexivity|].
  apply (proj2 (proj1 (valid_flag_after_load Byte.x00 wchar_signed
                         blank_extra blank_layer blank_block blank_document
                         (istream_of minimal_document)))).
  right. eexists. eexists. exact minimal_document_stages.
Defined.

(** C3 as stated fails for a failing load after a successful one: the
    document that has loaded [minimal_document] is valid, loading the
    bytes with a wrong magic into it returns false, and the document
    still converts to true. *)
Lemma valid_flag_survives_failed_load :
  psd.operator_bool loaded_document = true
  /\ fst (fst (psd.load Byte.x00 wchar_signed blank_extra blank_layer
                 blank_block loaded_document
                 (istream_of bad_magic_document)))
     = Returns false
  /\ psd.operator_bool
       (snd (fst (psd.load Byte.x00 wchar_signed blank_extra blank_layer
                    blank_block loaded_document
                    (istream_of bad_magic_document))))
     = true.
Proof. repeat split; vm_compute; reflexivity. Qed.

Lemma firstn_prefix (xs tail : list byte) (n : nat) :
  length xs = n -> firstn n (xs ++ tail) = xs.
Proof.
  intros <-. rewrite firstn_app, firstn_all, Nat.sub_diag, firstn_O.
  apply app_nil_r.
Qed.

(** C5, as amended.  On a stream in good state that starts with four
    bytes other than ["8BPS"], or with ["8BPS"] and a version field other
    than 1,
    [read_header] returns false and [load] returns false in the state
    [read_header] has left: no later stage has run, and no byte after the
    header has been consumed.  In the second case the signature has
    compared equal and the version is what fails. *)
Theorem load_rejects_header
    (indet : byte) (wchar_of_char : byte -> Z) (new_ExtraData : ExtraData.t)
    (new_Layer : Layer.t) (new_ImageResourceBlock : ImageResourceBlock.t)
    (d : psd.t) (f : istream) (sig rest : list byte) :
  failbit f = false ->
  consumed f ++ pending f = sig ++ rest ->
  length sig = 4%nat ->
  (sig <> magic_8BPS
   \/ exists ver rest',
        rest = ver ++ rest' /\ length ver = 2%nat /\ be_val ver <> 1) ->
  let d' := snd (fst (psd.read_header d f)) in
  let f' := snd (psd.read_header d f) in
  fst (fst (psd.read_header d f)) = false
  /\ psd.load indet wchar_of_char new_ExtraData new_Layer
       new_ImageResourceBlock d f
     = (Returns false, d', f')
  /\ psd.header_signature d' = sig
  /\ (sig = magic_8BPS -> psd.header_version d' <> 1)
  /\ psd.image_resources d' = psd.image_resources d
  /\ psd.layer_info d' = psd.layer_info d
  /\ consumed f' = firstn psd.sizeof_header (sig ++ rest)
  /\ consumed f' ++ pending f' = sig ++ rest.
Proof.
  intros Hgood Hc Hsig Hbad d' f'.
  assert (Hload : fst (fst (psd.read_header d f)) = false ->
                  psd.load indet wchar_of_char new_ExtraData new_Layer
                    new_ImageResourceBlock d f = (Returns false, d', f')).
  { subst d' f'. unfold psd.load.
    destruct (psd.read_header d f) as [[ok d1] f1]. cbn [fst snd].
    intros ->. reflexivity. }
  assert (Hstart : seekg_start f = mkIstream [] (sig ++ rest) false).
  { unfold seekg_start. rewrite Hgood, Hc. reflexivity. }
  assert (Hcons : consumed (snd (stream_read (Z.of_nat psd.sizeof_header)
                                   (raw_bytes (psd.header d))
                                   (mkIstream [] (sig ++ rest) false)))
                  = firstn psd.sizeof_header (sig ++ rest)
                  /\ consumed (snd (stream_read (Z.of_nat psd.sizeof_header)
                                      (raw_bytes (psd.header d))
                                      (mkIstream [] (sig ++ rest) false)))
                     ++ pending (snd (stream_read
                                        (Z.of_nat psd.sizeof_header)
                                        (raw_bytes (psd.header d))
                                        (mkIstream [] (sig ++ rest) false)))
                     = sig ++ rest).
  { unfold stream_read. cbn [failbit pending consumed].
    destruct (Z.leb_spec (Z.of_nat psd.sizeof_header) (len (sig ++ rest)));
      cbn [snd consumed pending app]; rewrite ?Nat2Z.id.
    - split; [reflexivity|apply firstn_skipn].
    - rewrite firstn_all2 by (unfold len in *; lia).
      split; [reflexivity|apply app_nil_r]. }
  assert (Hfields :
            psd.header_signature d' = sig
            /\ (forall ver rest', rest = ver ++ rest' -> length ver = 2%nat ->
                psd.header_version d' = be_val ver)
            /\ psd.image_resources d' = psd.image_resources d
            /\ psd.layer_info d' = psd.layer_info d
            /\ consumed f' = firstn psd.sizeof_header (sig ++ rest)
            /\ consumed f' ++ pending f' = sig ++ rest
            /\ fst (fst (psd.read_header d f))
               = negb (negb (bytes_eqb (psd.header_signature d') magic_8BPS))
                 && negb (negb (psd.header_version d' =? 1))).
  { subst d' f'. unfold psd.read_header. rewrite Hstart.
    destruct Hcons as [Hc1 Hc2].
    assert (P : forall xs more, sig ++ rest = xs ++ more ->
                (length xs <= psd.sizeof_header)%nat ->
                exists tail,
                  raw_bytes
                    (raw_of psd.sizeof_header
                       (fst (stream_read (Z.of_nat psd.sizeof_header)
                               (raw_bytes (psd.header d))
                               (mkIstream [] (sig ++ rest) false))))
                  = xs ++ tail).
    { intros xs more E Hxs. rewrite E.
      destruct (stream_read_prefix xs more [] (raw_bytes (psd.header d))
                  (Z.of_nat psd.sizeof_header)) as [tail [E1 E2]].
      - unfold len. lia.
      - rewrite raw_bytes_length. now rewrite Nat2Z.id.
      - exists tail. rewrite E1. apply raw_bytes_of.
        rewrite E2. apply Nat2Z.id. }
    destruct (stream_read (Z.of_nat psd.sizeof_header)
                (raw_bytes (psd.header d))
                (mkIstream [] (sig ++ rest) false)) as [h f1].
    cbn [fst snd] in *.
    assert (Hs : psd.header_signature
                   (psd.set_header (raw_of psd.sizeof_header h) d) = sig).
    { unfold psd.header_signature, psd.set_header. cbn [psd.header].
      destruct (P sig rest eq_refl) as [tail ->];
        [rewrite Hsig; unfold psd.sizeof_header; lia|].
      now apply firstn_prefix. }
    assert (Hv : forall ver rest', rest = ver ++ rest' ->
                 length ver = 2%nat ->
                 psd.header_version
                   (psd.set_header (raw_of psd.sizeof_header h) d)
                 = be_val ver).
    { intros ver rest' -> Hver.
      unfold psd.header_version, psd.set_header. cbn [psd.header].
      destruct (P (sig ++ ver) rest' (app_assoc _ _ _)) as [tail ->];
        [rewrite length_app, Hsig, Hver; unfold psd.sizeof_header; lia|].
      rewrite <- app_assoc, skipn_app, skipn_all2 by lia.
      rewrite Hsig, Nat.sub_diag. cbn [skipn app].
      now rewrite firstn_prefix. }
    cbv zeta.
    destruct (negb (bytes_eqb _ magic_8BPS)) eqn:B1; cbn [fst snd].
    - repeat split; try assumption. now rewrite B1.
    - destruct (negb (_ =? 1)) eqn:B2; cbn [fst snd];
        repeat split; try assumption; now rewrite B1, B2. }
  destruct Hfields as (Hs & Hv & Hi & Hl & Hc1 & Hc2 & Hr).
  assert (Hfalse : fst (fst (psd.read_header d f)) = false).
  { rewrite Hr, Hs. destruct Hbad as [Hne|(ver & rest' & E & Hver & Hne)].
    - destruct (bytes_eqb sig magic_8BPS) eqn:B; [|reflexivity].
      apply bytes_eqb_eq in B. contradiction.
    - rewrite (Hv ver rest' E Hver).
      destruct (Z.eqb_spec (be_val ver) 1); [contradiction|].
      cbn. apply andb_false_r. }
  split; [exact Hfalse|]. split; [exact (Hload Hfalse)|].
  split; [exact Hs|]. split; [|repeat split; assumption].
  intros Hmagic Hone. rewrite Hr, Hs, Hmagic, Hone in Hfalse.
  discriminate Hfalse.
Qed.

Lemma load_rejects_header_witness :
  psd.load Byte.x00 wchar_signed blank_extra blank_layer blank_block
    loaded_document (istream_of bad_magic_document)
  = (Returns false,
     snd (fst (psd.read_header loaded_document
                 (istream_of bad_magic_document))),
     snd (psd.read_header loaded_document (istream_of bad_magic_document)))
  /\ psd.load Byte.x00 wchar_signed blank_extra blank_layer blank_block
       loaded_document (istream_of bad_version_document)
     = (Returns false,
        snd (fst (psd.read_header loaded_document
                    (istream_of bad_version_document))),
        snd (psd.read_header loaded_document
               (istream_of bad_version_document))).
Proof.
  split.
  - refine (proj1 (proj2
      (load_rejects_header Byte.x00 wchar_signed blank_extra blank_layer
         blank_block loaded_document (istream_of bad_magic_document)
         [Byte.x38; Byte.x42; Byte.x50; Byte.x58]
         (skipn 4 minimal_document) eq_refl eq_refl eq_refl
         (or_introl _)))).
    vm_compute. discriminate.
  - refine (proj1 (proj2
      (load_rejects_header Byte.x00 wchar_signed blank_extra blank_layer
         blank_block loaded_document (istream_of bad_version_document)
         magic_8BPS ([Byte.x00; Byte.x02] ++ skipn 6 minimal_document)
         eq_refl eq_refl eq_refl
         (or_intror
            (ex_intro _ [Byte.x00; Byte.x02]
               (ex_intro _ (skipn 6 minimal_document)
                  (conj eq_refl (conj eq_refl _)))))))).
    vm_compute. discriminate.
Defined.

(** C5 as stated fails on a stream that has already failed.  The stream
    holds ten bytes that start with ["8BPX"]; loading them into the blank
    document returns false and leaves the stream failed, all ten bytes
    consumed.  On that stream [seekg] and [read] do nothing, so the
    header tested is the one the object holds: for the document that has
    loaded [minimal_document], [read_header] returns true, and [load]
    runs the later stages and returns true where uninitialised storage
    holds zeroes. *)
Lemma load_accepts_stale_header :
  let bytes := firstn 10 bad_magic_document in
  let f := mkIstream bytes [] true in
  firstn 4 bytes <> magic_8BPS
  /\ psd.load Byte.x00 wchar_signed blank_extra blank_layer blank_block
       blank_document (istream_of bytes)
     = (Returns false,
        psd.mk (raw_of psd.sizeof_header bytes) [] blank_layer_info false,
        f)
  /\ psd.read_header loaded_document f = (true, loaded_document, f)
  /\ psd.load Byte.x00 wchar_signed blank_extra blank_layer blank_block
       loaded_document f
     = (Returns true, loaded_document, f).
Proof.
  cbv zeta. split; [vm_compute; discriminate|].
  repeat split; vm_compute; reflexivity.
Qed.

(** ** Layer Record: write *)

Lemma layer_mask_write_app (m : LayerMask.t) (f : ostream) :
  LayerMask.write m f
  = (true, snd (fst (LayerMask.write m [])),
     f ++ snd (LayerMask.write m [])).
Proof.
  unfold LayerMask.write, stream_write.
  destruct (negb (be_get (LayerMask.length m) =? 0)); cbn [fst snd app].
  - now rewrite <- !app_assoc.
  - reflexivity.
Qed.

Lemma blending_ranges_write_app (r : LayerBlendingRanges.t) (f : ostream) :
  LayerBlendingRanges.write r f
  = (true, f ++ snd (LayerBlendingRanges.write r [])).
Proof.
  unfold LayerBlendingRanges.write, stream_write. cbn [snd app].
  now rewrite <- !app_assoc.
Qed.

Lemma extra_data_write_app (e : ExtraData.t) (f : ostream) :
  ExtraData.write e f
  = (true, snd (fst (ExtraData.write e [])),
     f ++ snd (ExtraData.write e [])).
Proof.
  unfold ExtraData.write, stream_write. cbn [fst snd app].
  now rewrite <- !app_assoc.
Qed.

Lemma write_channel_infos_app (cis : list (raw 2 * raw 4)) (f : ostream) :
  fold_left (fun f ci => Layer.write_channel_info ci f) cis f
  = f ++ flat_map (fun ci => raw_bytes (fst ci) ++ raw_bytes (snd ci)) cis.
Proof.
  revert f. induction cis as [|ci cis IH]; intros f; cbn [fold_left flat_map].
  - now rewrite app_nil_r.
  - rewrite IH. unfold Layer.write_channel_info, stream_write.
    now rewrite <- app_assoc.
Qed.

Lemma write_extra_data_app (eds : list ExtraData.t) (f : ostream) :
  Layer.write_extra_data eds f
  = (fst (Layer.write_extra_data eds []),
     f ++ snd (Layer.write_extra_data eds [])).
Proof.
  revert f. induction eds as [|ed eds IH]; intros f;
    cbn [Layer.write_extra_data].
  - now rewrite app_nil_r.
  - rewrite (extra_data_write_app ed f), (extra_data_write_app ed []).
    rewrite (IH (f ++ _)), (IH ([] ++ _)). cbn [fst snd app].
    now rewrite <- app_assoc.
Qed.

(** [Layer::write] stores the channel count and the extra-data length it
    has recomputed from the live lists, each within its width. *)
Lemma layer_write_recomputes
    (indet : byte) (LayerMask_size : LayerMask.t -> Z)
    (LayerBlendingRanges_size : LayerBlendingRanges.t -> Z)
    (ExtraData_size : ExtraData.t -> Z) (l : Layer.t) (f : ostream) :
  let l' :=
    snd (fst (Layer.write indet LayerMask_size LayerBlendingRanges_size
                ExtraData_size l f)) in
  Layer.num_channels l'
  = wrap16 (Z.of_nat (length (Layer.channel_infos l)))
  /\ Layer.extra_data_length l'
     = fold_left (fun acc ed => wrap32 (acc + ExtraData_size ed))
         (Layer.additional_extra_data l)
         (wrap32 (LayerMask_size (Layer.mask l)
                  + LayerBlendingRanges_size (Layer.blending_ranges l))).
Proof.
  unfold Layer.write.
  rewrite layer_mask_write_app. cbn [negb].
  rewrite blending_ranges_write_app. cbn [negb].
  rewrite write_extra_data_app. cbn [fst snd].
  unfold Layer.num_channels, Layer.extra_data_length,
    Layer.set_num_channels, Layer.set_extra_data_length.
  cbn [Layer.top Layer.blend_signature Layer.mask Layer.blending_ranges
       Layer.additional_extra_data Layer.channel_infos].
  set (edl := fold_left _ _ _).
  assert (Hedl : 0 <= edl < 2 ^ 32).
  { subst edl. generalize (LayerMask_size (Layer.mask l)
                           + LayerBlendingRanges_size
                               (Layer.blending_ranges l)).
    intros z. assert (H : 0 <= wrap32 z < 2 ^ 32)
      by (unfold wrap32; apply Z.mod_pos_bound; lia).
    revert H. generalize (wrap32 z). clear.
    induction (Layer.additional_extra_data l) as [|ed eds IH];
      intros a Ha; cbn [fold_left]; [exact Ha|].
    apply IH. unfold wrap32. apply Z.mod_pos_bound. lia. }
  split.
  - rewrite raw_bytes_of.
    + rewrite skipn_app, skipn_all2
        by (rewrite length_firstn, raw_bytes_length; lia).
      rewrite length_firstn, raw_bytes_length. cbn [Nat.min Nat.sub skipn app].
      rewrite be_val_bytes. reflexivity.
    + rewrite length_app, length_firstn, raw_bytes_length, be_bytes_length.
      reflexivity.
  - rewrite raw_bytes_of.
    + rewrite skipn_app, skipn_all2
        by (rewrite length_firstn, raw_bytes_length; lia).
      rewrite length_firstn, raw_bytes_length. cbn [Nat.min Nat.sub skipn app].
      apply be_val_bytes_small.
      change (256 ^ Z.of_nat 4) with (2 ^ 32). exact Hedl.
    + rewrite length_app, length_firstn, raw_bytes_length, be_bytes_length.
      reflexivity.
Qed.

(** C4, the failing input.  [Layer::write] emits the channel count and
    the extra-data length it has recomputed, but the byte it emits as the
    name length is the value of a local that is never assigned; the name
    is resized to that value and the filler follows it.  For the layer
    named ["ab"], when that value is 0, the record that comes out has an
    empty name behind a zero length byte and the layer has lost its
    name. *)
Theorem layer_write_name_size_unset
    (indet : byte) (LayerMask_size : LayerMask.t -> Z)
    (LayerBlendingRanges_size : LayerBlendingRanges.t -> Z)
    (ExtraData_size : ExtraData.t -> Z) (l : Layer.t) (f : ostream) :
  let write :=
    Layer.write indet LayerMask_size LayerBlendingRanges_size
      ExtraData_size in
  let name_size := byte.unsigned indet in
  (exists pre post,
     write l f
     = (true, snd (fst (write l f)),
        f ++ pre ++ [indet] ++ resize name_size (Layer.name l)
          ++ repeat Byte.x00 (Z.to_nat (Layer.name_filler name_size))
          ++ post)
     /\ pre = raw_bytes (Layer.top (snd (fst (write l f))))
              ++ flat_map (fun ci => raw_bytes (fst ci) ++ raw_bytes (snd ci))
                   (Layer.channel_infos l)
              ++ raw_bytes (Layer.blend_signature (snd (fst (write l f))))
              ++ snd (LayerMask.write (Layer.mask l) [])
              ++ snd (LayerBlendingRanges.write (Layer.blending_ranges l) []))
  /\ Layer.name (snd (fst (write l f)))
     = resize name_size (Layer.name l)
  /\ Layer.name layer_ab = [Byte.x61; Byte.x62]
  /\ Layer.name
       (snd (fst (Layer.write Byte.x00 LayerMask_size
                    LayerBlendingRanges_size ExtraData_size layer_ab [])))
     = [].
Proof.
  intros write name_size.
  assert (W : forall i l0 f0,
             Layer.write i LayerMask_size LayerBlendingRanges_size
               ExtraData_size l0 f0
             = (true,
                snd (fst (Layer.write i LayerMask_size
                            LayerBlendingRanges_size ExtraData_size l0 f0)),
                f0 ++ (raw_bytes
                         (Layer.top
                            (snd (fst (Layer.write i LayerMask_size
                                         LayerBlendingRanges_size
                                         ExtraData_size l0 f0))))
                       ++ flat_map
                            (fun ci => raw_bytes (fst ci)
                                       ++ raw_bytes (snd ci))
                            (Layer.channel_infos l0)
                       ++ raw_bytes
                            (Layer.blend_signature
                               (snd (fst (Layer.write i LayerMask_size
                                            LayerBlendingRanges_size
                                            ExtraData_size l0 f0))))
                       ++ snd (LayerMask.write (Layer.mask l0) [])
                       ++ snd (LayerBlendingRanges.write
                                 (Layer.blending_ranges l0) []))
                   ++ [i] ++ resize (byte.unsigned i) (Layer.name l0)
                   ++ repeat Byte.x00
                        (Z.to_nat (Layer.name_filler (byte.unsigned i)))
                   ++ snd (Layer.write_extra_data
                             (Layer.additional_extra_data l0) []))
             /\ Layer.name
                  (snd (fst (Layer.write i LayerMask_size
                               LayerBlendingRanges_size ExtraData_size
                               l0 f0)))
                = resize (byte.unsigned i) (Layer.name l0)).
  { intros i l0 f0. unfold Layer.write.
    rewrite write_channel_infos_app.
    cbn [Layer.mask Layer.blending_ranges Layer.name
         Layer.additional_extra_data Layer.channel_infos].
    rewrite layer_mask_write_app. cbn [negb].
    rewrite blending_ranges_write_app. cbn [negb].
    rewrite write_extra_data_app.
    cbn [fst snd Layer.top Layer.blend_signature Layer.name].
    unfold stream_write. split; [|reflexivity].
    rewrite <- !app_assoc. reflexivity. }
  split; [|split; [|split]].
  - eexists _, _. split; [|reflexivity].
    exact (proj1 (W indet l f)).
  - exact (proj2 (W indet l f)).
  - vm_compute. reflexivity.
  - rewrite (proj2 (W Byte.x00 layer_ab [])). vm_compute. reflexivity.
Qed.

(** ** The loops end *)

Lemma stream_read_failed (n : Z) (dst : list byte) (f : istream) :
  failbit f = true -> stream_read n dst f = (dst, f).
Proof. intros H. unfold stream_read. now rewrite H. Qed.

Lemma seekg_cur_failed (off : Z) (f : istream) :
  failbit f = true -> seekg_cur off f = f.
Proof. intros H. unfold seekg_cur. now rewrite H. Qed.

(** A stream that is good after a read was good before it and has given
    all the bytes asked for. *)
Lemma stream_read_good (n : Z) (dst : list byte) (f : istream) :
  failbit (snd (stream_read n dst f)) = false ->
  failbit f = false
  /\ n <= len (pending f)
  /\ length (pending (snd (stream_read n dst f)))
     = (length (pending f) - Z.to_nat n)%nat.
Proof.
  unfold stream_read. destruct (failbit f) eqn:F; cbn [snd].
  - congruence.
  - destruct (Z.leb_spec n (len (pending f))); cbn [snd failbit pending].
    + intros _. rewrite length_skipn. auto.
    + discriminate.
Qed.

Lemma seekg_cur_good (off : Z) (f : istream) :
  failbit (seekg_cur off f) = false ->
  failbit f = false
  /\ (length (pending (seekg_cur off f)) <= length (pending f))%nat.
Proof.
  unfold seekg_cur. destruct (failbit f) eqn:F.
  - congruence.
  - destruct (off <=? len (pending f)); cbn [failbit pending].
    + intros _. rewrite length_skipn. split; [reflexivity|lia].
    + discriminate.
Qed.

Lemma len_resize (n : Z) (v : list byte) : 0 <= n -> len (resize n v) = n.
Proof. intros H. unfold len. rewrite resize_length. lia. Qed.

Lemma be_val_nonneg (l : list byte) : 0 <= be_val l.
Proof.
  induction l as [|x l IH]; cbn [be_val]; [lia|].
  pose proof (byte.unsigned_range x).
  assert (0 < 256 ^ Z.of_nat (length l)) by (apply Z.pow_pos_nonneg; lia).
  nia.
Qed.

Lemma if_same {A : Type} (c : bool) (x : A) : (if c then x else x) = x.
Proof. now destruct c. Qed.

(** On a stream that has failed, [ImageResourceBlock::read] tests the
    signature the object already holds: an object that does not carry
    ["8BIM"] is refused. *)
Lemma block_read_failed_stream (indet : byte) (b : ImageResourceBlock.t)
    (f : istream) :
  failbit f = true ->
  sig_eqb (ImageResourceBlock.signature b) magic_8BIM = false ->
  fst (fst (ImageResourceBlock.read indet b f)) = false.
Proof.
  intros F S. unfold ImageResourceBlock.read.
  rewrite (stream_read_failed _ _ f F). cbv beta iota zeta.
  cbn [ImageResourceBlock.signature]. rewrite raw_of_bytes, S.
  reflexivity.
Qed.

Lemma size_nonneg (b : ImageResourceBlock.t) : 0 <= ImageResourceBlock.size b.
Proof.
  unfold ImageResourceBlock.size, wrap32. apply Z.mod_pos_bound. lia.
Qed.

(** When [ImageResourceBlock::read] returns true on a stream in good
    state, the stream is still good and has moved on. *)
Lemma block_read_progress (indet : byte) (b : ImageResourceBlock.t)
    (f : istream) :
  failbit f = false ->
  fst (fst (ImageResourceBlock.read indet b f)) = true ->
  failbit (snd (ImageResourceBlock.read indet b f)) = false
  /\ (length (pending (snd (ImageResourceBlock.read indet b f)))
      < length (pending f))%nat.
Proof.
  intros F.
  unfold ImageResourceBlock.read.
  pose proof (stream_read_good 4
                (raw_bytes (ImageResourceBlock.signature b)) f) as G1.
  destruct (stream_read 4 _ f) as [sg f1].
  cbn [ImageResourceBlock.signature ImageResourceBlock.image_resource_id
       ImageResourceBlock.name ImageResourceBlock.buffer snd] in *.
  destruct (negb (sig_eqb _ magic_8BIM)); [discriminate|].
  pose proof (stream_read_good 2
                (raw_bytes (ImageResourceBlock.image_resource_id b)) f1)
    as G2.
  destruct (stream_read 2 _ f1) as [id f2].
  pose proof (stream_read_good 1 [indet] f2) as G3.
  destruct (stream_read 1 _ f2) as [l f3].
  set (L := byte.unsigned (hd indet l)) in *.
  pose proof (stream_read_good L (resize L (ImageResourceBlock.name b)) f3)
    as G4.
  destruct (stream_read L _ f3) as [nm f4].
  pose proof (seekg_cur_good 1 f4) as G5.
  set (f5 := if L mod 2 =? 0 then seekg_cur 1 f4 else f4) in *.
  pose proof (stream_read_good 4 (repeat indet 4) f5) as G6.
  destruct (stream_read 4 _ f5) as [bl f6].
  pose proof (stream_read_good (be_val bl)
                (resize (be_val bl) (ImageResourceBlock.buffer b)) f6) as G7.
  destruct (stream_read (be_val bl) _ f6) as [buf f7].
  pose proof (seekg_cur_good 1 f7) as G8.
  set (f8 := if be_val bl mod 2 =? 1 then seekg_cur 1 f7 else f7) in *.
  cbn [snd] in *.
  set (b' := ImageResourceBlock.mk _ _ _ _).
  pose proof (size_nonneg b') as Hs.
  destruct (Z.eqb_spec (tellg f8 - tellg f) (ImageResourceBlock.size b'))
    as [E|E]; cbn [negb fst snd]; [intros _|discriminate].
  assert (F8 : failbit f8 = false).
  { destruct (failbit f8) eqn:F8; [|reflexivity].
    unfold tellg in E. rewrite F8, F in E.
    pose proof (len_nonneg (consumed f)). lia. }
  assert (F7 : failbit f7 = false
               /\ (length (pending f8) <= length (pending f7))%nat).
  { subst f8. destruct (be_val bl mod 2 =? 1); [auto|].
    split; [exact F8|lia]. }
  destruct F7 as [F7 L7].
  destruct (G7 F7) as (F6 & _ & L6).
  destruct (G6 F6) as (F5 & _ & L5).
  assert (F4 : failbit f4 = false
               /\ (length (pending f5) <= length (pending f4))%nat).
  { subst f5. destruct (L mod 2 =? 0); [auto|].
    split; [exact F5|lia]. }
  destruct F4 as [F4 L4].
  destruct (G4 F4) as (F3 & _ & L3).
  destruct (G3 F3) as (F2 & _ & L2).
  destruct (G2 F2) as (F1 & _ & L1).
  destruct (G1 F1) as (_ & B0 & L0).
  split; [exact F8|]. unfold len in B0. lia.
Qed.

(** Where a default-constructed block does not carry ["8BIM"], the loop
    over the image resource blocks always ends: with fuel above the
    number of pending bytes it never runs out.  On a good stream every
    block that is accepted moves the stream on; on a failed stream the
    fresh block is refused. *)
Lemma read_blocks_returns (indet : byte) (new_block : ImageResourceBlock.t)
    (fuel : nat) (start_pos length : Z) (acc : list ImageResourceBlock.t)
    (f : istream) :
  sig_eqb (ImageResourceBlock.signature new_block) magic_8BIM = false ->
  (List.length (pending f) < fuel)%nat ->
  returns
    (fst (fst (psd.read_blocks indet new_block fuel start_pos length acc f))).
Proof.
  intros Hnew.
  revert acc f. induction fuel as [|fuel IH]; intros acc f Hf; [lia|].
  cbn [psd.read_blocks].
  destruct (tellg f - start_pos <? length); [|now exists true].
  destruct (failbit f) eqn:F.
  - pose proof (block_read_failed_stream indet new_block f F Hnew) as E.
    destruct (ImageResourceBlock.read indet new_block f) as [[ok b] f1].
    cbn [fst] in E. subst ok. now exists false.
  - pose proof (block_read_progress indet new_block f F) as P.
    destruct (ImageResourceBlock.read indet new_block f) as [[ok b] f1].
    cbn [fst snd] in P.
    destruct ok; cbn [negb]; [|now exists false].
    apply IH. destruct (P eq_refl) as [_ P1]. lia.
Qed.

Lemma read_image_resources_returns (indet : byte)
    (new_block : ImageResourceBlock.t) (d : psd.t) (f : istream) :
  sig_eqb (ImageResourceBlock.signature new_block) magic_8BIM = false ->
  returns (fst (fst (psd.read_image_resources indet new_block d f))).
Proof.
  intros Hnew.
  unfold psd.read_image_resources.
  destruct (stream_read 4 (repeat indet 4) f) as [l f1].
  pose proof (read_blocks_returns indet new_block
                (S (List.length (pending f1))) (tellg f1) (be_val l) [] f1
                Hnew ltac:(lia)) as E.
  destruct (psd.read_blocks _ _ _ _ _ _ _) as [[r irs] f2].
  exact E.
Qed.

Lemma stream_read_stays_failed (n : Z) (dst : list byte) (f : istream) :
  failbit f = true -> failbit (snd (stream_read n dst f)) = true.
Proof. intros F. now rewrite stream_read_failed. Qed.

(** On a failed stream [ExtraData::read] tests the signature the object
    already holds. *)
Lemma extra_read_failed_stream (e : ExtraData.t) (f : istream) :
  failbit f = true ->
  fst (fst (ExtraData.read e f)) = accepted e.
Proof.
  intros F. unfold ExtraData.read, accepted.
  rewrite (stream_read_failed _ _ f F). cbv beta iota zeta.
  cbn [ExtraData.signature ExtraData.key ExtraData.length ExtraData.data].
  rewrite raw_of_bytes.
  destruct (sig_eqb (ExtraData.signature e) magic_8BIM);
    destruct (sig_eqb (ExtraData.signature e) magic_8B64); cbn [negb andb orb];
    try reflexivity;
    repeat (rewrite (stream_read_failed _ _ f F); cbv beta iota zeta);
    reflexivity.
Qed.

(** On a good stream, when [ExtraData::read] returns true for an object
    whose own signature is not accepted, either the stream is still good
    and has moved on, or it has failed after giving at least one byte. *)
Lemma extra_read_progress (e : ExtraData.t) (f : istream) :
  accepted e = false -> failbit f = false ->
  fst (fst (ExtraData.read e f)) = true ->
  (failbit (snd (ExtraData.read e f)) = false
   /\ (length (pending (snd (ExtraData.read e f))) < length (pending f))%nat)
  \/ (failbit (snd (ExtraData.read e f)) = true
      /\ (1 <= length (pending f))%nat).
Proof.
  intros A F. unfold ExtraData.read.
  pose proof (stream_read_good 4 (raw_bytes (ExtraData.signature e)) f) as G1.
  assert (E0 : pending f = [] ->
               fst (stream_read 4 (raw_bytes (ExtraData.signature e)) f)
               = raw_bytes (ExtraData.signature e)).
  { intros P. unfold stream_read. rewrite F, P. reflexivity. }
  destruct (stream_read 4 _ f) as [sg f1].
  cbn [ExtraData.signature ExtraData.key ExtraData.length ExtraData.data
       fst snd] in *.
  destruct (negb (sig_eqb (raw_of 4 sg) magic_8BIM)
            && negb (sig_eqb (raw_of 4 sg) magic_8B64)) eqn:S;
    [discriminate|].
  assert (P1 : (1 <= length (pending f))%nat).
  { destruct (pending f) as [|x p] eqn:P; [|simpl; lia].
    rewrite (E0 eq_refl), raw_of_bytes in S. unfold accepted in A.
    destruct (sig_eqb (ExtraData.signature e) magic_8BIM);
      destruct (sig_eqb (ExtraData.signature e) magic_8B64);
      discriminate. }
  pose proof (stream_read_good 4 (raw_bytes (ExtraData.key e)) f1) as G2.
  destruct (stream_read 4 _ f1) as [k f2].
  pose proof (stream_read_good 4 (raw_bytes (ExtraData.length e)) f2) as G3.
  destruct (stream_read 4 _ f2) as [l f3].
  pose proof (stream_read_good (be_get (raw_of 4 l))
                (resize (be_get (raw_of 4 l)) (ExtraData.data e)) f3) as G4.
  destruct (stream_read (be_get (raw_of 4 l)) _ f3) as [dt f4].
  cbn [fst snd] in *. intros _.
  destruct (failbit f4) eqn:F4; [right; auto|left].
  split; [reflexivity|].
  destruct (G4 eq_refl) as (F3 & _ & L3).
  destruct (G3 F3) as (F2 & _ & L2).
  destruct (G2 F2) as (F1 & _ & L1).
  destruct (G1 F1) as (_ & B0 & L0).
  unfold len in B0. lia.
Qed.

Section Termination.
Variable indet : byte.
Variable wchar_of_char : byte -> Z.
Variable new_ExtraData : ExtraData.t.
Variable new_Layer : Layer.t.
Variable new_ImageResourceBlock : ImageResourceBlock.t.

(** A default-constructed Extra Data Block does not carry a magic, and a
    default-constructed Image Resource Block does not carry ["8BIM"]. *)
Hypothesis new_not_accepted : accepted new_ExtraData = false.
Hypothesis new_block_not_magic :
  sig_eqb (ImageResourceBlock.signature new_ImageResourceBlock) magic_8BIM
  = false.

Lemma read_extra_data_returns (fuel : nat) (start_pos length : Z)
    (acc : list ExtraData.t) (f : istream) :
  (failbit f = false /\ (List.length (pending f) < fuel)%nat)
  \/ (failbit f = true /\ (1 <= fuel)%nat) ->
  returns (fst (fst (Layer.read_extra_data new_ExtraData fuel start_pos
                       length acc f))).
Proof.
  revert acc f. induction fuel as [|fuel IH]; intros acc f Hf; [lia|].
  cbn [Layer.read_extra_data].
  destruct (tellg f - start_pos <? length); [|now exists true].
  destruct (failbit f) eqn:F.
  - pose proof (extra_read_failed_stream new_ExtraData f F) as E.
    rewrite new_not_accepted in E.
    destruct (ExtraData.read new_ExtraData f) as [[ok ed] f1].
    cbn [fst] in E. subst ok. now exists false.
  - pose proof (extra_read_progress new_ExtraData f new_not_accepted F) as P.
    destruct (ExtraData.read new_ExtraData f) as [[ok ed] f1].
    cbn [fst snd] in P.
    destruct ok; cbn [negb]; [|now exists false].
    apply IH. destruct (P eq_refl) as [[F1 L1]|[F1 L1]]; [left|right];
      split; try assumption; lia.
Qed.

Lemma layer_read_returns (l : Layer.t) (f : istream) :
  returns (fst (fst (Layer.read indet wchar_of_char new_ExtraData l f))).
Proof.
  unfold Layer.read.
  destruct (stream_read (4 * 4 + 2) _ f) as [tp f1].
  destruct (Layer.read_channel_infos _ _ _ _) as [cis f2].
  destruct (stream_read (4 * 3 + 4) _ f2) as [bs f3].
  destruct (negb (bytes_eqb _ _)); [now exists false|].
  destruct (LayerMask.read _ f3) as [[ok1 m] f4].
  destruct (negb ok1); [now exists false|].
  destruct (LayerBlendingRanges.read _ _ f4) as [[ok2 br] f5].
  destruct (negb ok2); [now exists false|].
  destruct (stream_read 1 _ f5) as [ns f6].
  destruct (stream_read _ _ f6) as [nm f7].
  match goal with
  | |- context [Layer.read_extra_data ?e ?fu ?sp ?ln ?ac ?fs] =>
      pose proof (read_extra_data_returns fu sp ln ac fs) as R;
      destruct (Layer.read_extra_data e fu sp ln ac fs) as [[r eds] f8]
  end.
  cbn [fst snd] in R.
  assert (R' : returns r).
  { apply R. destruct (failbit _); [right|left]; split; auto; lia. }
  destruct R' as [ok ->]. destruct ok.
  - destruct (Layer.scan_extra_data _ _ _) as [[w u] h]. now exists true.
  - now exists false.
Qed.

Lemma read_layers_returns (n : nat) (li : LayerInfo.t) (f : istream) :
  returns (fst (fst (LayerInfo.read_layers indet wchar_of_char new_ExtraData
                       new_Layer n li f))).
Proof.
  revert li f. induction n as [|n IH]; intros li f;
    cbn [LayerInfo.read_layers]; [now exists true|].
  pose proof (layer_read_returns new_Layer f) as R.
  destruct (Layer.read _ _ _ _ f) as [[r l] f1].
  cbn [fst] in R.
  destruct R as [ok ->]. destruct ok; [apply IH|now exists false].
Qed.

(** Under the two assumptions on default-constructed objects, [load]
    comes back with a flag on every document and stream. *)
Lemma load_returns (d : psd.t) (f : istream) :
  returns (fst (fst (psd.load indet wchar_of_char new_ExtraData new_Layer
                       new_ImageResourceBlock d f))).
Proof.
  unfold psd.load.
  destruct (psd.read_header d f) as [[ok1 d1] f1].
  destruct (negb ok1); [now exists false|].
  destruct (psd.read_color_mode indet d1 f1) as [[ok2 d2] f2].
  destruct (negb ok2); [now exists false|].
  pose proof (read_image_resources_returns indet new_ImageResourceBlock
                d2 f2 new_block_not_magic) as R3.
  destruct (psd.read_image_resources indet new_ImageResourceBlock d2 f2)
    as [[r3 d3] f3].
  cbn [fst] in R3. destruct R3 as [ok3 ->].
  destruct ok3; [|now exists false].
  assert (R4 : returns (fst (fst (psd.read_layers_and_masks indet
                                    wchar_of_char new_ExtraData new_Layer
                                    d3 f3)))).
  { unfold psd.read_layers_and_masks.
    destruct (stream_read 4 _ f3) as [l f4].
    destruct (be_val l =? 0); [now exists true|].
    unfold LayerInfo.read.
    destruct (LayerInfo.read_count indet (psd.layer_info d3) f4)
      as [li f5].
    pose proof (read_layers_returns (LayerInfo.layer_iterations li) li f5)
      as R.
    destruct (LayerInfo.read_layers _ _ _ _ _ _ _) as [[r li'] f6].
    cbn [fst] in R.
    destruct R as [ok ->]. destruct ok; [|now exists false].
    destruct (_ <? _); [|now exists true].
    destruct (stream_read _ _ f6) as [x f7]. now exists true. }
  destruct (psd.read_layers_and_masks _ _ _ _ d3 f3) as [[r4 d4] f4].
  cbn [fst] in R4. destruct R4 as [ok4 ->].
  destruct ok4; [now exists true|now exists false].
Qed.
End Termination.

(** * Further properties *)

(** ** Streams, continued *)

(** A stream that is good after a read has delivered exactly the bytes
    asked for, taken from the front of what was pending. *)
Lemma stream_read_inv (n : Z) (dst : list byte) (f : istream) :
  0 <= n ->
  failbit (snd (stream_read n dst f)) = false ->
  failbit f = false
  /\ pending f = fst (stream_read n dst f) ++ pending (snd (stream_read n dst f))
  /\ consumed (snd (stream_read n dst f))
     = consumed f ++ fst (stream_read n dst f)
  /\ len (fst (stream_read n dst f)) = n.
Proof.
  intros Hn. unfold stream_read. destruct (failbit f) eqn:F; cbn [snd].
  - congruence.
  - destruct (Z.leb_spec n (len (pending f)));
      cbn [fst snd failbit pending consumed]; [intros _|discriminate].
    repeat split.
    + symmetry. apply firstn_skipn.
    + unfold len in *. rewrite length_firstn. lia.
Qed.

Lemma seekg_cur_inv (f : istream) :
  failbit (seekg_cur 1 f) = false ->
  failbit f = false
  /\ exists x, pending f = x :: pending (seekg_cur 1 f)
               /\ consumed (seekg_cur 1 f) = consumed f ++ [x].
Proof.
  unfold seekg_cur. destruct (failbit f) eqn:F; [congruence|].
  destruct (Z.leb_spec 1 (len (pending f)));
    cbn [failbit pending consumed]; [intros _|discriminate].
  split; [reflexivity|].
  destruct (pending f) as [|x p]; [unfold len in *; simpl in *; lia|].
  exists x. split; reflexivity.
Qed.

Lemma be_val_bound (l : list byte) : be_val l < 256 ^ Z.of_nat (length l).
Proof.
  induction l as [|x l IH]; cbn [be_val length]; [reflexivity|].
  rewrite Nat2Z.inj_succ, Z.pow_succ_r by lia.
  pose proof (byte.unsigned_range x). pose proof (be_val_nonneg l).
  assert (0 < 256 ^ Z.of_nat (length l)) by (apply Z.pow_pos_nonneg; lia).
  change (2 ^ 8) with 256 in *. nia.
Qed.

(** The encoding of a field ignores what lies above its width. *)
Lemma be_bytes_high (m k : nat) (a r : Z) :
  (m <= k)%nat -> be_bytes m (a * 256 ^ Z.of_nat k + r) = be_bytes m r.
Proof.
  induction m as [|m IHm]; intros Hm; [reflexivity|].
  cbn [be_bytes]. rewrite IHm by lia. f_equal.
  apply byte.unsigned_inj. rewrite !byte.unsigned_of_Z. unfold byte.wrap.
  assert (Hm0 : 0 < 256 ^ Z.of_nat m) by (apply Z.pow_pos_nonneg; lia).
  replace (256 ^ Z.of_nat k)
    with (256 * 256 ^ Z.of_nat (k - S m) * 256 ^ Z.of_nat m).
  - rewrite Z.mul_assoc, Z.div_add_l by lia.
    change (2 ^ 8) with 256.
    replace (a * (256 * 256 ^ Z.of_nat (k - S m)))
      with (a * 256 ^ Z.of_nat (k - S m) * 256) by ring.
    rewrite Z.add_comm, Z.mod_add by lia. reflexivity.
  - rewrite <- Z.pow_succ_r, <- Z.pow_add_r by lia. f_equal. lia.
Qed.

(** Encoding a decoded field gives its bytes back. *)
Lemma be_bytes_val (l : list byte) : be_bytes (length l) (be_val l) = l.
Proof.
  induction l as [|x l IH]; [reflexivity|].
  cbn [length be_bytes be_val].
  pose proof (be_val_nonneg l). pose proof (be_val_bound l).
  assert (Hp : 0 < 256 ^ Z.of_nat (length l))
    by (apply Z.pow_pos_nonneg; lia).
  f_equal.
  - rewrite Z.div_add_l by lia. rewrite (Z.div_small (be_val l)) by lia.
    rewrite Z.add_0_r. apply byte.of_Z_unsigned.
  - rewrite be_bytes_high by lia. exact IH.
Qed.

(** ** Image Resource Block, continued *)

Lemma raw_of_inj_len (n : nat) (l : list byte) :
  length l = n -> raw_bytes (raw_of n l) = l.
Proof. apply raw_bytes_of. Qed.

Lemma filler_after (c : bool) (n : Z) (g g' : istream) :
  0 <= n ->
  (c = true <-> n mod 2 = 1) ->
  failbit g' = false ->
  g' = (if c then seekg_cur 1 g else g) ->
  failbit g = false
  /\ exists p, length p = length (pad2_fill n)
               /\ pending g = p ++ pending g'
               /\ consumed g' = consumed g ++ p.
Proof.
  intros Hn Hc F' ->. destruct c.
  - destruct (seekg_cur_inv g F') as (F & x & P & C).
    split; [exact F|]. exists [x].
    rewrite pad2_fill_odd by (try apply Hc; auto). auto.
  - split; [exact F'|]. exists [].
    rewrite pad2_fill_even.
    + rewrite app_nil_r. auto.
    + exact Hn.
    + pose proof (Z.mod_pos_bound n 2 ltac:(lia)).
      destruct (Z.eq_dec (n mod 2) 1) as [E|E]; [|lia].
      apply Hc in E. discriminate.
Qed.

(** X1.  On a stream in good state, whenever [ImageResourceBlock::read]
    returns true and leaves at least one byte unread, the stream is still
    good, the bytes it has consumed are the layout of the block it
    returns (with some filler bytes), the block carries the magic and a
    name of at most 255 bytes, and [size()] is the number of bytes
    consumed. *)
Theorem block_read_sound (indet : byte) (b : ImageResourceBlock.t)
    (f : istream) :
  failbit f = false ->
  fst (fst (ImageResourceBlock.read indet b f)) = true ->
  pending (snd (ImageResourceBlock.read indet b f)) <> [] ->
  let b' := snd (fst (ImageResourceBlock.read indet b f)) in
  let f' := snd (ImageResourceBlock.read indet b f) in
  failbit f' = false
  /\ ImageResourceBlock.signature b' = raw_of 4 magic_8BIM
  /\ len (ImageResourceBlock.name b') <= 255
  /\ exists p1 p2,
       length p1 = length (pad2_fill (1 + len (ImageResourceBlock.name b')))
       /\ length p2
          = length (pad2_fill (len (ImageResourceBlock.buffer b')))
       /\ pending f
          = block_bytes (ImageResourceBlock.image_resource_id b')
              (ImageResourceBlock.name b') p1
              (ImageResourceBlock.buffer b') p2 ++ pending f'
       /\ consumed f'
          = consumed f
            ++ block_bytes (ImageResourceBlock.image_resource_id b')
                 (ImageResourceBlock.name b') p1
                 (ImageResourceBlock.buffer b') p2
       /\ ImageResourceBlock.size b'
          = len (block_bytes (ImageResourceBlock.image_resource_id b')
                   (ImageResourceBlock.name b') p1
                   (ImageResourceBlock.buffer b') p2).
Proof.
  intros F.
  unfold ImageResourceBlock.read.
  pose proof (stream_read_inv 4
                (raw_bytes (ImageResourceBlock.signature b)) f ltac:(lia))
    as G1.
  destruct (stream_read 4 _ f) as [sg f1].
  cbn [ImageResourceBlock.signature ImageResourceBlock.image_resource_id
       ImageResourceBlock.name ImageResourceBlock.buffer fst snd] in *.
  destruct (sig_eqb (raw_of 4 sg) magic_8BIM) eqn:S; cbn [negb];
    [|discriminate].
  pose proof (stream_read_inv 2
                (raw_bytes (ImageResourceBlock.image_resource_id b)) f1
                ltac:(lia)) as G2.
  destruct (stream_read 2 _ f1) as [id f2].
  pose proof (stream_read_inv 1 [indet] f2 ltac:(lia)) as G3.
  destruct (stream_read 1 _ f2) as [l f3].
  set (L := byte.unsigned (hd indet l)) in *.
  assert (HL : 0 <= L < 256) by apply byte.unsigned_range.
  pose proof (stream_read_inv L (resize L (ImageResourceBlock.name b)) f3
                ltac:(lia)) as G4.
  destruct (stream_read L _ f3) as [nm f4].
  remember (if L mod 2 =? 0 then seekg_cur 1 f4 else f4) as f5 eqn:E5.
  pose proof (stream_read_inv 4 (repeat indet 4) f5 ltac:(lia)) as G6.
  destruct (stream_read 4 _ f5) as [bl f6].
  pose proof (be_val_nonneg bl) as Hbl.
  pose proof (stream_read_inv (be_val bl)
                (resize (be_val bl) (ImageResourceBlock.buffer b)) f6 Hbl)
    as G7.
  destruct (stream_read (be_val bl) _ f6) as [buf f7].
  remember (if be_val bl mod 2 =? 1 then seekg_cur 1 f7 else f7) as f8 eqn:E8.
  cbn [fst snd] in *.
  set (b' := ImageResourceBlock.mk _ _ _ _).
  pose proof (size_nonneg b') as Hs.
  destruct (Z.eqb_spec (tellg f8 - tellg f) (ImageResourceBlock.size b'))
    as [E|E]; cbn [negb fst snd]; [intros _ _|discriminate].
  assert (F8 : failbit f8 = false).
  { destruct (failbit f8) eqn:F8; [|reflexivity].
    unfold tellg in E. rewrite F8, F in E.
    pose proof (len_nonneg (consumed f)). lia. }
  destruct (filler_after (be_val bl mod 2 =? 1) (be_val bl) f7 f8 Hbl)
    as (F7 & p2 & Lp2 & P7 & C8); [apply Z.eqb_eq|exact F8|exact E8|].
  destruct (G7 F7) as (F6 & P6 & C7 & Lbuf).
  destruct (G6 F6) as (F5 & P5 & C6 & Lbl).
  assert (Hpar : (L mod 2 =? 0) = true <-> (1 + L) mod 2 = 1).
  { rewrite Z.eqb_eq. split; intros; Z.div_mod_to_equations; lia. }
  destruct (filler_after (L mod 2 =? 0) (1 + L) f4 f5 ltac:(lia) Hpar F5 E5)
    as (F4 & p1 & Lp1 & P4 & C5).
  destruct (G4 F4) as (F3 & P3 & C4 & Lnm).
  destruct (G3 F3) as (F2 & P2 & C3 & Ll).
  destruct (G2 F2) as (F1 & P1 & C2 & Lid).
  destruct (G1 F1) as (_ & P0 & C1 & Lsg).
  assert (Esg : sg = magic_8BIM).
  { apply bytes_eqb_eq in S. rewrite raw_bytes_of in S; [exact S|].
    unfold len in Lsg. lia. }
  assert (El : l = [byte.of_Z L]).
  { destruct l as [|x [|y l]]; unfold len in Ll; simpl in Ll; try lia.
    subst L. cbn [hd]. now rewrite byte.of_Z_unsigned. }
  assert (Ebl : bl = be_bytes 4 (be_val bl)).
  { replace 4%nat with (length bl) by (unfold len in Lbl; lia).
    symmetry. apply be_bytes_val. }
  assert (Eid : raw_bytes (raw_of 2 id) = id)
    by (apply raw_bytes_of; unfold len in Lid; lia).
  subst b'.
  cbn [ImageResourceBlock.signature ImageResourceBlock.image_resource_id
       ImageResourceBlock.name ImageResourceBlock.buffer] in *.
  assert (Ebytes : block_bytes (raw_of 2 id) nm p1 buf p2
                   = sg ++ id ++ l ++ nm ++ p1 ++ bl ++ buf ++ p2).
  { unfold block_bytes. rewrite Eid, Lnm, Lbuf, <- Ebl, El, Esg.
    reflexivity. }
  split; [exact F8|].
  split; [now rewrite Esg|]. split; [lia|].
  exists p1, p2.
  rewrite Lnm, Lbuf. split; [exact Lp1|]. split; [exact Lp2|].
  assert (EP : pending f
               = block_bytes (raw_of 2 id) nm p1 buf p2 ++ pending f8).
  { rewrite Ebytes, P0, P1, P2, P3, P4, P5, P6, P7.
    now rewrite <- !app_assoc. }
  assert (EC : consumed f8
               = consumed f ++ block_bytes (raw_of 2 id) nm p1 buf p2).
  { rewrite Ebytes, C8, C7, C6, C5, C4, C3, C2, C1.
    now rewrite <- !app_assoc. }
  split; [exact EP|]. split; [exact EC|].
  rewrite <- E. unfold tellg. rewrite F8, F, EC, len_app. lia.
Qed.

Lemma block_read_sound_witness :
  failbit
    (snd (ImageResourceBlock.read Byte.x00 block_noname
            (istream_of (layout_of block_a ++ [Byte.xff]))))
  = false.
Proof.
  refine (proj1
            (block_read_sound Byte.x00 block_noname
               (istream_of (layout_of block_a ++ [Byte.xff]))
               eq_refl eq_refl _)).
  vm_compute. discriminate.
Defined.

Lemma len_layout_min (b : ImageResourceBlock.t) : 12 <= len (layout_of b).
Proof.
  unfold layout_of. rewrite len_block_layout.
  pose proof (len_nonneg (ImageResourceBlock.name b)).
  pose proof (len_nonneg (ImageResourceBlock.buffer b)).
  unfold pad2. Z.div_mod_to_equations. lia.
Qed.

(** [read] takes a readable block off the front of the stream. *)
Lemma read_readable_block (indet : byte) (b0 b : ImageResourceBlock.t)
    (pre rest : list byte) :
  readable_block b ->
  ImageResourceBlock.read indet b0 (mkIstream pre (layout_of b ++ rest) false)
  = (true, b, mkIstream (pre ++ layout_of b) rest false).
Proof.
  intros (Hsig & Hname & Hsize).
  destruct b as [sg id name payload].
  cbn [ImageResourceBlock.signature ImageResourceBlock.name
       ImageResourceBlock.buffer ImageResourceBlock.image_resource_id] in *.
  subst sg. unfold layout_of.
  cbn [ImageResourceBlock.name ImageResourceBlock.buffer
       ImageResourceBlock.image_resource_id].
  assert (Hpay : len payload < 2 ^ 32).
  { pose proof (len_block_layout id name payload) as E.
    pose proof (len_nonneg name).
    pose proof (len_pad2_fill (1 + len name) ltac:(lia)).
    pose proof (len_pad2_fill (len payload) (len_nonneg payload)).
    pose proof (len_nonneg (pad2_fill (1 + len name))).
    pose proof (len_nonneg (pad2_fill (len payload))). lia. }
  pose proof (read_block_bytes indet b0 id name (pad2_fill (1 + len name))
                payload (pad2_fill (len payload)) pre rest
                Hname Hpay eq_refl eq_refl) as R.
  cbv zeta in R.
  change (block_bytes id name (pad2_fill (1 + len name)) payload
            (pad2_fill (len payload)))
    with (block_layout id name payload) in R.
  rewrite R.
  pose proof (size_block_layout
                (ImageResourceBlock.mk (raw_of 4 magic_8BIM) id name payload)
                Hsize) as Hs.
  cbn [ImageResourceBlock.name ImageResourceBlock.buffer
       ImageResourceBlock.image_resource_id] in Hs.
  rewrite Hs, Z.eqb_refl. reflexivity.
Qed.

Lemma len_section_bytes_cons (b : ImageResourceBlock.t)
    (bs : list ImageResourceBlock.t) :
  len (section_bytes (b :: bs)) = len (layout_of b) + len (section_bytes bs).
Proof. unfold section_bytes. cbn [flat_map]. apply len_app. Qed.

Lemma len_section_bytes_ge (bs : list ImageResourceBlock.t) :
  12 * Z.of_nat (length bs) <= len (section_bytes bs).
Proof.
  induction bs as [|b bs IH]; [unfold len; simpl; lia|].
  rewrite len_section_bytes_cons. pose proof (len_layout_min b).
  cbn [length]. lia.
Qed.

(** The loop over the blocks reads a run of readable blocks and stops
    where the declared length is reached. *)
Lemma read_blocks_section (indet : byte) (new_block : ImageResourceBlock.t)
    (bs : list ImageResourceBlock.t) :
  Forall readable_block bs ->
  forall (fuel : nat) (start_pos length : Z)
         (acc : list ImageResourceBlock.t) (pre rest : list byte),
    (List.length bs < fuel)%nat ->
    len pre - start_pos + len (section_bytes bs) = length ->
    psd.read_blocks indet new_block fuel start_pos length acc
      (mkIstream pre (section_bytes bs ++ rest) false)
    = (Returns true, acc ++ bs,
       mkIstream (pre ++ section_bytes bs) rest false).
Proof.
  induction 1 as [|b bs Hb Hbs IH]; intros fuel start_pos length acc pre rest
    Hfuel Hpos.
  - destruct fuel as [|fuel]; [simpl in Hfuel; lia|].
    cbn [psd.read_blocks]. unfold tellg. cbn [failbit consumed].
    change (len (section_bytes [])) with 0 in Hpos.
    destruct (Z.ltb_spec (len pre - start_pos) length); [lia|].
    cbn [section_bytes flat_map app]. now rewrite !app_nil_r.
  - destruct fuel as [|fuel]; [simpl in Hfuel; lia|].
    cbn [psd.read_blocks]. unfold tellg. cbn [failbit consumed].
    rewrite len_section_bytes_cons in Hpos.
    pose proof (len_layout_min b). pose proof (len_section_bytes_ge bs).
    destruct (Z.ltb_spec (len pre - start_pos) length); [|lia].
    change (section_bytes (b :: bs)) with (layout_of b ++ section_bytes bs).
    rewrite <- app_assoc.
    rewrite (read_readable_block indet new_block b pre _ Hb). cbn [negb].
    rewrite (IH fuel start_pos length (acc ++ [b]) (pre ++ layout_of b) rest).
    + now rewrite <- !app_assoc.
    + simpl in Hfuel. lia.
    + rewrite len_app. lia.
Qed.

Lemma read_section (indet : byte) (new_block : ImageResourceBlock.t) (d : psd.t)
    (bs : list ImageResourceBlock.t) (pre rest : list byte) :
  Forall readable_block bs ->
  len (section_bytes bs) < 2 ^ 32 ->
  psd.read_image_resources indet new_block d
    (mkIstream pre
       (be_bytes 4 (len (section_bytes bs)) ++ section_bytes bs ++ rest)
       false)
  = (Returns true, psd.set_image_resources bs d,
     mkIstream
       (pre ++ be_bytes 4 (len (section_bytes bs)) ++ section_bytes bs)
       rest false).
Proof.
  intros Hbs Hlen. unfold psd.read_image_resources.
  rewrite (stream_read_app (be_bytes 4 (len (section_bytes bs))))
    by (now rewrite len_be_bytes).
  rewrite be_val_bytes_small
    by (pose proof (len_nonneg (section_bytes bs));
        change (256 ^ Z.of_nat 4) with (2 ^ 32); lia).
  cbn [pending].
  rewrite (read_blocks_section indet new_block bs Hbs).
  - cbn [app]. now rewrite <- app_assoc.
  - pose proof (len_section_bytes_ge bs).
    rewrite length_app. unfold len in *. lia.
  - unfold tellg. cbn [failbit consumed]. lia.
Qed.

(** X2.  [read_image_resources] on a section that announces the size of a run
    of readable blocks: it returns true, the document holds exactly those
    blocks in order (the ones it held before are dropped), and the stream
    stands right behind the section.  An empty section gives no block. *)
Theorem read_image_resources_section
    (indet : byte) (new_block : ImageResourceBlock.t) (d : psd.t)
    (bs : list ImageResourceBlock.t) (pre rest : list byte) :
  Forall readable_block bs ->
  len (section_bytes bs) < 2 ^ 32 ->
  psd.read_image_resources indet new_block d
    (mkIstream pre
       (be_bytes 4 (len (section_bytes bs)) ++ section_bytes bs ++ rest)
       false)
  = (Returns true, psd.set_image_resources bs d,
     mkIstream
       (pre ++ be_bytes 4 (len (section_bytes bs)) ++ section_bytes bs)
       rest false).
Proof. apply read_section. Qed.

Lemma read_image_resources_section_witness :
  psd.read_image_resources Byte.x00 blank_block loaded_document
    (mkIstream [Byte.xee]
       (be_bytes 4 (len (section_bytes [block_a; block_noname]))
        ++ section_bytes [block_a; block_noname] ++ [Byte.xff]) false)
  = (Returns true,
     psd.set_image_resources [block_a; block_noname] loaded_document,
     mkIstream
       ([Byte.xee]
        ++ be_bytes 4 (len (section_bytes [block_a; block_noname]))
        ++ section_bytes [block_a; block_noname]) [Byte.xff] false).
Proof.
  apply (read_image_resources_section Byte.x00 blank_block loaded_document
           [block_a; block_noname] [Byte.xee] [Byte.xff]).
  - repeat constructor; vm_compute; congruence.
  - vm_compute. reflexivity.
Defined.

(** ** Image resource section: write *)

Lemma write_blocks_section (rs : list ImageResourceBlock.t) (f : ostream) :
  Forall (fun b => len (layout_of b) < 2 ^ 32) rs ->
  psd.write_blocks rs f = (true, f ++ section_bytes rs).
Proof.
  intros H. revert f. induction H as [|b rs Hb _ IH]; intros f;
    cbn [psd.write_blocks].
  - now rewrite app_nil_r.
  - pose proof (write_block_layout b f) as W. cbv zeta in W.
    rewrite W. fold (layout_of b).
    rewrite (size_block_layout b Hb). fold (layout_of b).
    rewrite Z.eqb_refl. cbn [negb]. rewrite IH.
    unfold section_bytes. cbn [flat_map]. fold (layout_of b).
    now rewrite <- app_assoc.
Qed.

Lemma fold_sizes (rs : list ImageResourceBlock.t) (a : Z) :
  Forall (fun b => len (layout_of b) < 2 ^ 32) rs ->
  fold_left (fun acc r => wrap32 (acc + ImageResourceBlock.size r)) rs
    (wrap32 a)
  = wrap32 (a + len (section_bytes rs)).
Proof.
  intros H. revert a. induction H as [|b rs Hb _ IH]; intros a;
    cbn [fold_left].
  - change (len (section_bytes [])) with 0. now rewrite Z.add_0_r.
  - rewrite (size_block_layout b Hb). fold (layout_of b).
    replace (wrap32 (wrap32 a + len (layout_of b)))
      with (wrap32 (a + len (layout_of b)))
      by (unfold wrap32; now rewrite Z.add_mod_idemp_l by lia).
    rewrite IH, len_section_bytes_cons. f_equal. lia.
Qed.

Lemma section_parts_fit (rs : list ImageResourceBlock.t) :
  len (section_bytes rs) < 2 ^ 32 ->
  Forall (fun b => len (layout_of b) < 2 ^ 32) rs.
Proof.
  induction rs as [|b rs IH]; intros H; constructor.
  - rewrite len_section_bytes_cons in H.
    pose proof (len_nonneg (section_bytes rs)). lia.
  - apply IH. rewrite len_section_bytes_cons in H.
    pose proof (len_layout_min b). lia.
Qed.

Lemma write_section (native32 : Z -> raw 4) (d : psd.t) (out : ostream) :
  len (section_bytes (psd.image_resources d)) < 2 ^ 32 ->
  psd.write_image_resources native32 d out
  = (true,
     out ++ raw_bytes (native32 (len (section_bytes (psd.image_resources d))))
         ++ section_bytes (psd.image_resources d)).
Proof.
  intros H. pose proof (section_parts_fit _ H) as Hfit.
  unfold psd.write_image_resources, stream_write.
  change 0 with (wrap32 0) at 1.
  rewrite (fold_sizes _ 0 Hfit). cbn [Z.add].
  rewrite (write_blocks_section _ _ Hfit).
  unfold wrap32. rewrite Z.mod_small
    by (pose proof (len_nonneg (section_bytes (psd.image_resources d))); lia).
  now rewrite <- app_assoc.
Qed.

(** X3.  [write_image_resources], for a document whose blocks take fewer than
    2^32 bytes: it returns true and emits the total size as the host
    stores a [uint32_t], then the layout of every block in order. *)
Theorem write_image_resources_layout
    (native32 : Z -> raw 4) (d : psd.t) (out : ostream) :
  len (section_bytes (psd.image_resources d)) < 2 ^ 32 ->
  psd.write_image_resources native32 d out
  = (true,
     out ++ raw_bytes (native32 (len (section_bytes (psd.image_resources d))))
         ++ section_bytes (psd.image_resources d)).
Proof. apply write_section. Qed.

Lemma write_image_resources_layout_witness :
  psd.write_image_resources (be_put 4) two_block_document [Byte.x2a]
  = (true,
     [Byte.x2a]
     ++ raw_bytes
          (be_put 4
             (len (section_bytes (psd.image_resources two_block_document))))
     ++ section_bytes (psd.image_resources two_block_document)).
Proof.
  apply (write_image_resources_layout (be_put 4) two_block_document
           [Byte.x2a]).
  vm_compute. reflexivity.
Defined.

(** X4.  Where the host stores a [uint32_t] most significant byte first,
    [read_image_resources] reads back the blocks [write_image_resources]
    has written, into any document and at any position. *)
Theorem image_resources_roundtrip
    (indet : byte) (new_block : ImageResourceBlock.t)
    (native32 : Z -> raw 4) (d d0 : psd.t) (pre rest : list byte) :
  (forall z, native32 z = be_put 4 z) ->
  Forall readable_block (psd.image_resources d) ->
  len (section_bytes (psd.image_resources d)) < 2 ^ 32 ->
  fst (psd.write_image_resources native32 d []) = true
  /\ psd.read_image_resources indet new_block d0
       (mkIstream pre
          (snd (psd.write_image_resources native32 d []) ++ rest) false)
     = (Returns true, psd.set_image_resources (psd.image_resources d) d0,
        mkIstream (pre ++ snd (psd.write_image_resources native32 d []))
          rest false).
Proof.
  intros Hbe Hrd Hlen.
  rewrite (write_section native32 d [] Hlen).
  cbn [fst snd app]. split; [reflexivity|].
  rewrite Hbe, raw_bytes_be_put, <- app_assoc.
  apply read_section; assumption.
Qed.

Lemma image_resources_roundtrip_witness :
  fst (psd.write_image_resources (be_put 4) two_block_document []) = true
  /\ psd.read_image_resources Byte.x00 blank_block loaded_document
       (mkIstream [Byte.xee]
          (snd (psd.write_image_resources (be_put 4) two_block_document [])
           ++ [Byte.xff]) false)
     = (Returns true,
        psd.set_image_resources (psd.image_resources two_block_document)
          loaded_document,
        mkIstream
          ([Byte.xee]
           ++ snd (psd.write_image_resources (be_put 4) two_block_document []))
          [Byte.xff] false).
Proof.
  apply (image_resources_roundtrip Byte.x00 blank_block (be_put 4)
           two_block_document loaded_document [Byte.xee] [Byte.xff]).
  - intros z. reflexivity.
  - repeat constructor; vm_compute; congruence.
  - vm_compute. reflexivity.
Defined.

(** ** Extra Data Block, continued *)

Lemma resize_same (d : list byte) : resize (len d) d = d.
Proof.
  unfold resize, len. rewrite Nat2Z.id, firstn_all, Nat.sub_diag.
  apply app_nil_r.
Qed.

Lemma resize_front (d x : list byte) : resize (len d) (d ++ x) = d.
Proof.
  unfold resize, len. rewrite Nat2Z.id, firstn_app, firstn_all, Nat.sub_diag.
  rewrite firstn_O, length_app.
  replace (length d - (length d + length x))%nat with 0%nat by lia.
  cbn [repeat]. now rewrite !app_nil_r.
Qed.

(** X5.  A block with one of the two magics is read back as it is laid out,
    and [write] of the block read emits the same bytes, whatever the
    parity of the payload. *)
Theorem extra_data_roundtrip (e0 : ExtraData.t) (sg key : raw 4)
    (d pre rest : list byte) (out : ostream) :
  sig_eqb sg magic_8BIM || sig_eqb sg magic_8B64 = true ->
  len d < 2 ^ 32 ->
  let e := ExtraData.mk sg key (be_put 4 (len d)) d in
  ExtraData.read e0 (mkIstream pre (extra_bytes sg key d ++ rest) false)
  = (true, e, mkIstream (pre ++ extra_bytes sg key d) rest false)
  /\ ExtraData.write e out = (true, e, out ++ extra_bytes sg key d).
Proof.
  intros Hsg Hd e. pose proof (len_nonneg d) as Hd0.
  assert (Hv : be_get (be_put 4 (len d)) = len d).
  { rewrite be_get_put. apply Z.mod_small.
    change (256 ^ Z.of_nat 4) with (2 ^ 32). lia. }
  split.
  - unfold ExtraData.read, extra_bytes. rewrite <- !app_assoc.
    rewrite (stream_read_app (raw_bytes sg)) by (now rewrite len_raw_bytes).
    cbn [ExtraData.signature ExtraData.key ExtraData.length ExtraData.data].
    rewrite raw_of_bytes.
    replace (negb (sig_eqb sg magic_8BIM) && negb (sig_eqb sg magic_8B64))
      with false
      by (destruct (sig_eqb sg magic_8BIM), (sig_eqb sg magic_8B64);
          simpl in *; congruence).
    rewrite (stream_read_app (raw_bytes key)) by (now rewrite len_raw_bytes).
    rewrite (stream_read_app (be_bytes 4 (len d)))
      by (now rewrite len_be_bytes).
    fold (be_put 4 (len d)). rewrite Hv.
    rewrite (stream_read_app d) by reflexivity.
    rewrite raw_of_bytes. subst e. now rewrite <- !app_assoc.
  - unfold ExtraData.write, stream_write, extra_bytes. subst e.
    cbn [ExtraData.signature ExtraData.key ExtraData.length ExtraData.data].
    rewrite Hv, raw_bytes_be_put.
    replace (resize (len d)
               (if len d mod 2 =? 1 then d ++ [Byte.x00] else d)) with d
      by (destruct (len d mod 2 =? 1);
          [now rewrite resize_front|now rewrite resize_same]).
    now rewrite <- !app_assoc.
Qed.

Lemma extra_data_roundtrip_witness :
  ExtraData.read blank_extra
    (mkIstream []
       (extra_bytes (raw_of 4 magic_8B64) (raw_of 4 key_TySh)
          [Byte.x01; Byte.x02; Byte.x03] ++ [Byte.xff]) false)
  = (true,
     ExtraData.mk (raw_of 4 magic_8B64) (raw_of 4 key_TySh) (be_put 4 3)
       [Byte.x01; Byte.x02; Byte.x03],
     mkIstream
       ([] ++ extra_bytes (raw_of 4 magic_8B64) (raw_of 4 key_TySh)
                [Byte.x01; Byte.x02; Byte.x03]) [Byte.xff] false)
  /\ ExtraData.write
       (ExtraData.mk (raw_of 4 magic_8B64) (raw_of 4 key_TySh) (be_put 4 3)
          [Byte.x01; Byte.x02; Byte.x03]) []
     = (true,
        ExtraData.mk (raw_of 4 magic_8B64) (raw_of 4 key_TySh) (be_put 4 3)
          [Byte.x01; Byte.x02; Byte.x03],
        [] ++ extra_bytes (raw_of 4 magic_8B64) (raw_of 4 key_TySh)
                [Byte.x01; Byte.x02; Byte.x03]).
Proof.
  apply (extra_data_roundtrip blank_extra (raw_of 4 magic_8B64)
           (raw_of 4 key_TySh) [Byte.x01; Byte.x02; Byte.x03] []
           [Byte.xff] []).
  - reflexivity.
  - vm_compute. reflexivity.
Defined.

(** X6.  A block whose first four bytes are neither magic is refused after
    those four bytes: key, length and payload of the object stay as they
    were and nothing more is consumed. *)
Theorem extra_data_read_rejects (e : ExtraData.t) (sg : raw 4)
    (pre rest : list byte) :
  sig_eqb sg magic_8BIM = false ->
  sig_eqb sg magic_8B64 = false ->
  ExtraData.read e (mkIstream pre (raw_bytes sg ++ rest) false)
  = (false,
     ExtraData.mk sg (ExtraData.key e) (ExtraData.length e) (ExtraData.data e),
     mkIstream (pre ++ raw_bytes sg) rest false).
Proof.
  intros H1 H2. unfold ExtraData.read.
  rewrite (stream_read_app (raw_bytes sg)) by (now rewrite len_raw_bytes).
  cbn [ExtraData.signature ExtraData.key ExtraData.length ExtraData.data].
  rewrite raw_of_bytes, H1, H2. reflexivity.
Qed.

Lemma extra_data_read_rejects_witness :
  ExtraData.read odd_extra
    (mkIstream [] (raw_bytes (raw_of 4 magic_8BPS) ++ [Byte.x09]) false)
  = (false,
     ExtraData.mk (raw_of 4 magic_8BPS) (ExtraData.key odd_extra)
       (ExtraData.length odd_extra) (ExtraData.data odd_extra),
     mkIstream ([] ++ raw_bytes (raw_of 4 magic_8BPS)) [Byte.x09] false).
Proof.
  apply (extra_data_read_rejects odd_extra (raw_of 4 magic_8BPS) []
           [Byte.x09]); reflexivity.
Defined.

(** X7.  A block whose payload is cut short by the end of the stream is still
    reported as read: [read] returns true, the payload has the declared
    size (the bytes that were there, then what the resized vector held),
    and the stream is left failed. *)
Theorem extra_data_read_truncated (e : ExtraData.t) (sg key : raw 4)
    (L : Z) (d pre : list byte) :
  sig_eqb sg magic_8BIM || sig_eqb sg magic_8B64 = true ->
  len d < L -> L < 2 ^ 32 ->
  ExtraData.read e
    (mkIstream pre (raw_bytes sg ++ raw_bytes key ++ be_bytes 4 L ++ d) false)
  = (true,
     ExtraData.mk sg key (be_put 4 L)
       (d ++ skipn (length d) (resize L (ExtraData.data e))),
     mkIstream (pre ++ raw_bytes sg ++ raw_bytes key ++ be_bytes 4 L ++ d)
       [] true)
  /\ len (d ++ skipn (length d) (resize L (ExtraData.data e))) = L.
Proof.
  intros Hsg Hd HL. pose proof (len_nonneg d) as Hd0.
  assert (Hv : be_get (be_put 4 L) = L).
  { rewrite be_get_put. apply Z.mod_small.
    change (256 ^ Z.of_nat 4) with (2 ^ 32). lia. }
  split.
  - unfold ExtraData.read.
    rewrite (stream_read_app (raw_bytes sg)) by (now rewrite len_raw_bytes).
    cbn [ExtraData.signature ExtraData.key ExtraData.length ExtraData.data].
    rewrite raw_of_bytes.
    replace (negb (sig_eqb sg magic_8BIM) && negb (sig_eqb sg magic_8B64))
      with false
      by (destruct (sig_eqb sg magic_8BIM), (sig_eqb sg magic_8B64);
          simpl in *; congruence).
    rewrite (stream_read_app (raw_bytes key)) by (now rewrite len_raw_bytes).
    rewrite (stream_read_app (be_bytes 4 L)) by (now rewrite len_be_bytes).
    fold (be_put 4 L). rewrite Hv, raw_of_bytes.
    unfold stream_read. cbn [failbit pending consumed].
    destruct (Z.leb_spec L (len d)); [lia|].
    now rewrite <- !app_assoc.
  - unfold len in *. rewrite length_app, length_skipn, resize_length. lia.
Qed.

Lemma extra_data_read_truncated_witness :
  ExtraData.read blank_extra
    (mkIstream []
       (raw_bytes (raw_of 4 magic_8BIM) ++ raw_bytes (raw_of 4 key_luni)
        ++ be_bytes 4 6 ++ [Byte.x00; Byte.x00]) false)
  = (true,
     ExtraData.mk (raw_of 4 magic_8BIM) (raw_of 4 key_luni) (be_put 4 6)
       ([Byte.x00; Byte.x00]
        ++ skipn (length [Byte.x00; Byte.x00])
             (resize 6 (ExtraData.data blank_extra))),
     mkIstream
       ([] ++ raw_bytes (raw_of 4 magic_8BIM) ++ raw_bytes (raw_of 4 key_luni)
           ++ be_bytes 4 6 ++ [Byte.x00; Byte.x00]) [] true)
  /\ len ([Byte.x00; Byte.x00]
          ++ skipn (length [Byte.x00; Byte.x00])
               (resize 6 (ExtraData.data blank_extra))) = 6.
Proof.
  apply (extra_data_read_truncated blank_extra (raw_of 4 magic_8BIM)
           (raw_of 4 key_luni) 6 [Byte.x00; Byte.x00] []).
  - reflexivity.
  - vm_compute. reflexivity.
  - vm_compute. reflexivity.
Defined.

(** ** Layer Blending Ranges and Layer Mask, continued *)

(** X8.  A payload of fewer than 2^32 bytes written by
    [LayerBlendingRanges::write] is the length in four big-endian bytes
    and the payload, and [read] takes exactly that back, whatever the
    object held. *)
Theorem blending_ranges_roundtrip (indet : byte)
    (r0 : LayerBlendingRanges.t) (d pre rest : list byte) (out : ostream) :
  len d < 2 ^ 32 ->
  LayerBlendingRanges.write (LayerBlendingRanges.mk d) out
  = (true, out ++ be_bytes 4 (len d) ++ d)
  /\ LayerBlendingRanges.read indet r0
       (mkIstream pre
          (snd (LayerBlendingRanges.write (LayerBlendingRanges.mk d) [])
           ++ rest) false)
     = (true, LayerBlendingRanges.mk d,
        mkIstream
          (pre ++ snd (LayerBlendingRanges.write (LayerBlendingRanges.mk d) []))
          rest false).
Proof.
  intros Hd. pose proof (len_nonneg d) as Hd0.
  assert (W : forall o, LayerBlendingRanges.write (LayerBlendingRanges.mk d) o
                        = (true, o ++ be_bytes 4 (len d) ++ d)).
  { intros o. unfold LayerBlendingRanges.write, stream_write.
    cbn [LayerBlendingRanges.data].
    rewrite be_get_put, raw_bytes_be_put.
    rewrite Z.mod_small by (change (256 ^ Z.of_nat 4) with (2 ^ 32); lia).
    unfold len. rewrite Nat2Z.id, firstn_all. now rewrite <- app_assoc. }
  split; [apply W|].
  rewrite (W []). cbn [snd app].
  unfold LayerBlendingRanges.read. rewrite <- app_assoc.
  rewrite (stream_read_app (be_bytes 4 (len d))) by (now rewrite len_be_bytes).
  rewrite be_val_bytes_small
    by (change (256 ^ Z.of_nat 4) with (2 ^ 32); lia).
  rewrite (stream_read_app d) by reflexivity.
  now rewrite <- !app_assoc.
Qed.

Lemma blending_ranges_roundtrip_witness :
  LayerBlendingRanges.write
    (LayerBlendingRanges.mk [Byte.x01; Byte.x02; Byte.x03]) [Byte.x2a]
  = (true, [Byte.x2a] ++ be_bytes 4 (len [Byte.x01; Byte.x02; Byte.x03])
                      ++ [Byte.x01; Byte.x02; Byte.x03])
  /\ LayerBlendingRanges.read Byte.xff (LayerBlendingRanges.mk [Byte.x09])
       (mkIstream []
          (snd (LayerBlendingRanges.write
                  (LayerBlendingRanges.mk [Byte.x01; Byte.x02; Byte.x03]) [])
           ++ [Byte.xee]) false)
     = (true, LayerBlendingRanges.mk [Byte.x01; Byte.x02; Byte.x03],
        mkIstream
          ([] ++ snd (LayerBlendingRanges.write
                        (LayerBlendingRanges.mk
                           [Byte.x01; Byte.x02; Byte.x03]) []))
          [Byte.xee] false).
Proof.
  apply (blending_ranges_roundtrip Byte.xff
           (LayerBlendingRanges.mk [Byte.x09])
           [Byte.x01; Byte.x02; Byte.x03] [] [Byte.xee] [Byte.x2a]).
  vm_compute. reflexivity.
Defined.

(** X9.  A mask whose length field announces the 18 fixed bytes and its tail
    is written as [mask_bytes], unchanged, and read back as it was. *)
Theorem layer_mask_roundtrip (m m0 : LayerMask.t) (pre rest : list byte)
    (out : ostream) :
  be_get (LayerMask.length m) = 18 + len (LayerMask.additional_data m) ->
  LayerMask.write m out = (true, m, out ++ mask_bytes m)
  /\ LayerMask.read m0 (mkIstream pre (mask_bytes m ++ rest) false)
     = (true, m, mkIstream (pre ++ mask_bytes m) rest false).
Proof.
  destruct m as [l t ad]. cbn [LayerMask.length LayerMask.additional_data].
  intros HL. pose proof (len_nonneg ad) as H0.
  assert (HL32 : be_get l < 2 ^ 32).
  { unfold be_get. pose proof (be_val_bound (raw_bytes l)) as B.
    rewrite raw_bytes_length in B. exact B. }
  assert (Hrem : wrap32 (be_get l - (4 * 4 + 2)) = len ad).
  { unfold wrap32. rewrite Z.mod_small; lia. }
  assert (Hnz : (be_get l =? 0) = false) by (apply Z.eqb_neq; lia).
  split.
  - unfold LayerMask.write, stream_write, mask_bytes.
    cbn [LayerMask.length LayerMask.top LayerMask.additional_data].
    rewrite Hnz, Hrem, resize_same. cbn [negb].
    now rewrite <- !app_assoc.
  - unfold LayerMask.read, mask_bytes.
    cbn [LayerMask.length LayerMask.top LayerMask.additional_data].
    rewrite <- !app_assoc.
    rewrite (stream_read_app (raw_bytes l)) by (now rewrite len_raw_bytes).
    rewrite raw_of_bytes, Hnz. cbn [negb].
    rewrite (stream_read_app (raw_bytes t)) by (now rewrite len_raw_bytes).
    rewrite Hrem.
    rewrite (stream_read_app ad) by reflexivity.
    rewrite raw_of_bytes. now rewrite <- !app_assoc.
Qed.

Lemma layer_mask_roundtrip_witness :
  LayerMask.write sample_mask [Byte.x2a]
  = (true, sample_mask, [Byte.x2a] ++ mask_bytes sample_mask)
  /\ LayerMask.read empty_mask
       (mkIstream [] (mask_bytes sample_mask ++ [Byte.xee]) false)
     = (true, sample_mask,
        mkIstream ([] ++ mask_bytes sample_mask) [Byte.xee] false).
Proof.
  apply (layer_mask_roundtrip sample_mask empty_mask [] [Byte.xee]
           [Byte.x2a]).
  vm_compute. reflexivity.
Defined.

(** X10.  A mask block of declared length zero is four bytes: [write] emits
    only the length field, and [read] replaces only the length of the
    object, whose rectangle and tail stay what they were. *)
Theorem layer_mask_empty (m m0 : LayerMask.t) (pre rest : list byte)
    (out : ostream) :
  be_get (LayerMask.length m) = 0 ->
  LayerMask.write m out = (true, m, out ++ raw_bytes (LayerMask.length m))
  /\ LayerMask.read m0
       (mkIstream pre (raw_bytes (LayerMask.length m) ++ rest) false)
     = (true,
        LayerMask.mk (LayerMask.length m) (LayerMask.top m0)
          (LayerMask.additional_data m0),
        mkIstream (pre ++ raw_bytes (LayerMask.length m)) rest false).
Proof.
  intros HL. split.
  - unfold LayerMask.write, stream_write. now rewrite HL.
  - unfold LayerMask.read.
    rewrite (stream_read_app (raw_bytes (LayerMask.length m)))
      by (now rewrite len_raw_bytes).
    cbn [LayerMask.length LayerMask.top LayerMask.additional_data].
    now rewrite raw_of_bytes, HL.
Qed.

Lemma layer_mask_empty_witness :
  LayerMask.write empty_mask [Byte.x2a]
  = (true, empty_mask, [Byte.x2a] ++ raw_bytes (LayerMask.length empty_mask))
  /\ LayerMask.read sample_mask
       (mkIstream []
          (raw_bytes (LayerMask.length empty_mask) ++ [Byte.xee]) false)
     = (true,
        LayerMask.mk (LayerMask.length empty_mask) (LayerMask.top sample_mask)
          (LayerMask.additional_data sample_mask),
        mkIstream ([] ++ raw_bytes (LayerMask.length empty_mask))
          [Byte.xee] false).
Proof.
  apply (layer_mask_empty empty_mask sample_mask [] [Byte.xee] [Byte.x2a]).
  vm_compute. reflexivity.
Defined.

(** ** Layer Record, continued *)

(** X11.  The filler chosen by the [switch] brings the length byte, the name
    and the filler to a multiple of four bytes, with at most three
    filler bytes. *)
Theorem name_filler_aligns (name_size : Z) :
  0 <= Layer.name_filler name_size <= 3
  /\ (1 + name_size + Layer.name_filler name_size) mod 4 = 0.
Proof.
  unfold Layer.name_filler.
  destruct (Z.eqb_spec (name_size mod 4) 0);
    [|destruct (Z.eqb_spec (name_size mod 4) 1);
      [|destruct (Z.eqb_spec (name_size mod 4) 2)]];
    (split; [lia|Z.div_mod_to_equations; lia]).
Qed.

(** X12.  The channel table written by the loop of [Layer::write] is six bytes
    per entry, and the loop of [Layer::read] run for as many entries
    appends the same entries and stops right behind them. *)
Theorem channel_infos_roundtrip (indet : byte) (cis acc : list (raw 2 * raw 4))
    (pre rest : list byte) (out : ostream) :
  fold_left (fun f ci => Layer.write_channel_info ci f) cis out
  = out ++ channel_bytes cis
  /\ Layer.read_channel_infos indet (length cis) acc
       (mkIstream pre (channel_bytes cis ++ rest) false)
     = (acc ++ cis, mkIstream (pre ++ channel_bytes cis) rest false).
Proof.
  split; [apply write_channel_infos_app|].
  revert acc pre. induction cis as [|[a b] cis IH]; intros acc pre.
  - cbn. now rewrite !app_nil_r.
  - cbn [length Layer.read_channel_infos channel_bytes flat_map fst snd].
    fold (channel_bytes cis).
    rewrite <- (app_assoc (raw_bytes a ++ raw_bytes b)).
    rewrite (stream_read_app (raw_bytes a ++ raw_bytes b))
      by (rewrite len_app, !len_raw_bytes; reflexivity).
    replace (raw_of 2 (firstn 2 (raw_bytes a ++ raw_bytes b))) with a
      by (destruct a as [x [y []]]; reflexivity).
    replace (raw_of 4 (skipn 2 (raw_bytes a ++ raw_bytes b))) with b
      by (destruct a as [x [y []]];
          change (@raw_bytes 2 (x, (y, tt))) with [x; y];
          cbn [app skipn]; symmetry; apply raw_of_bytes).
    rewrite IH. now rewrite <- !app_assoc.
Qed.

(** X13.  After the scan over the extra data, the rich-text flag is set exactly
    when it was set before or some block is tagged ["TySh"], and the two
    names are those decoded from the last block tagged ["luni"], or the
    ones before the scan when no block has that tag. *)
Theorem scan_extra_data_result (indet : byte) (eds : list ExtraData.t)
    (wname : list Z) (utf8name : list byte) (has_text : bool) :
  Layer.scan_extra_data indet eds (wname, utf8name, has_text)
  = (match last_luni eds with
     | Some e => ExtraData.luni_read_name indet e wname utf8name
     | None => (wname, utf8name)
     end,
     has_text
     || existsb (fun ed => sig_eqb (ExtraData.key ed) key_TySh) eds).
Proof.
  unfold Layer.scan_extra_data.
  revert wname utf8name has_text.
  induction eds as [|ed eds IH]; intros w u h; cbn [fold_left last_luni existsb].
  - now rewrite orb_false_r.
  - destruct (sig_eqb (ExtraData.key ed) key_luni) eqn:K.
    + assert (T : sig_eqb (ExtraData.key ed) key_TySh = false).
      { unfold sig_eqb in *. apply bytes_eqb_eq in K. rewrite K.
        reflexivity. }
      rewrite T. cbn [orb].
      destruct (ExtraData.luni_read_name indet ed w u) as [w1 u1] eqn:E.
      rewrite IH. destruct (last_luni eds); [reflexivity|].
      now rewrite E.
    + destruct (sig_eqb (ExtraData.key ed) key_TySh); rewrite IH;
        destruct (last_luni eds); destruct h; reflexivity.
Qed.

Lemma channel_infos_roundtrip_example :
  Layer.read_channel_infos Byte.xff 2 []
    (istream_of (channel_bytes sample_channels ++ [Byte.xee]))
  = (sample_channels,
     mkIstream (channel_bytes sample_channels) [Byte.xee] false).
Proof. vm_compute. reflexivity. Qed.

(** ** Image Resource Block: the result of write *)

(** X14.  For a block whose name and payload are each below 2^32-2 bytes,
    [write] emits the whole layout in every case and returns true exactly
    when the layout takes fewer than 2^32 bytes. *)
Theorem block_write_fits (b : ImageResourceBlock.t) (out : ostream) :
  len (ImageResourceBlock.name b) < 2 ^ 32 - 2 ->
  len (ImageResourceBlock.buffer b) < 2 ^ 32 - 2 ->
  ImageResourceBlock.write b out
  = (len (layout_of b) <? 2 ^ 32, out ++ layout_of b).
Proof.
  intros Hn Hb. pose proof (write_block_layout b out) as W. cbv zeta in W.
  fold (layout_of b) in W. rewrite W. f_equal.
  pose proof (len_nonneg (ImageResourceBlock.name b)) as Hn0.
  pose proof (len_nonneg (ImageResourceBlock.buffer b)) as Hb0.
  unfold ImageResourceBlock.size.
  rewrite !padded_size_pad2 by lia.
  unfold layout_of. rewrite len_block_layout.
  set (t := 4 + 2 + pad2 (1 + len (ImageResourceBlock.name b)) + 4
            + pad2 (len (ImageResourceBlock.buffer b))).
  assert (Ht : 0 <= t).
  { subst t. unfold pad2. Z.div_mod_to_equations. lia. }
  unfold wrap32.
  destruct (Z.ltb_spec t (2 ^ 32)).
  - rewrite Z.mod_small by lia. apply Z.eqb_refl.
  - apply Z.eqb_neq. pose proof (Z.mod_pos_bound t (2 ^ 32) ltac:(lia)). lia.
Qed.

Lemma block_write_fits_witness :
  ImageResourceBlock.write block_a [Byte.x2a]
  = (len (layout_of block_a) <? 2 ^ 32, [Byte.x2a] ++ layout_of block_a).
Proof.
  apply (block_write_fits block_a [Byte.x2a]); vm_compute; reflexivity.
Defined.

(** X15.  [padded_size<2>] of a size below 2^32-1 is even and is the size or
    the size plus one. *)
Theorem padded_size_even (n : Z) :
  0 <= n < 2 ^ 32 - 1 ->
  padded_size 2 n mod 2 = 0 /\ n <= padded_size 2 n <= n + 1.
Proof.
  intros Hn. rewrite padded_size_pad2 by lia. unfold pad2.
  Z.div_mod_to_equations. lia.
Qed.

Lemma padded_size_even_witness :
  padded_size 2 7 mod 2 = 0 /\ 7 <= padded_size 2 7 <= 7 + 1.
Proof. apply (padded_size_even 7). lia. Defined.

(** ** Document, continued *)

(** X16.  [read_color_mode] on a stream that holds four more bytes consumes
    them, leaves the document alone and returns true exactly when all
    four are zero. *)
Theorem read_color_mode_zero (indet : byte) (d : psd.t)
    (c pre rest : list byte) :
  length c = 4%nat ->
  exists ok,
    psd.read_color_mode indet d (mkIstream pre (c ++ rest) false)
    = (ok, d, mkIstream (pre ++ c) rest false)
    /\ (ok = true <-> c = repeat Byte.x00 4).
Proof.
  intros Hc. unfold psd.read_color_mode.
  rewrite (stream_read_app c) by (unfold len; now rewrite Hc).
  exists (be_val c =? 0).
  split; [destruct (be_val c =? 0); reflexivity|].
  rewrite Z.eqb_eq. split.
  - intros E. rewrite <- (be_bytes_val c), E, Hc. reflexivity.
  - intros ->. reflexivity.
Qed.

Lemma read_color_mode_zero_witness :
  exists ok,
    psd.read_color_mode Byte.xff blank_document
      (mkIstream [] ([Byte.x00; Byte.x00; Byte.x01; Byte.x00] ++ [Byte.x09])
         false)
    = (ok, blank_document,
       mkIstream ([] ++ [Byte.x00; Byte.x00; Byte.x01; Byte.x00]) [Byte.x09]
         false)
    /\ (ok = true
        <-> [Byte.x00; Byte.x00; Byte.x01; Byte.x00] = repeat Byte.x00 4).
Proof.
  apply (read_color_mode_zero Byte.xff blank_document
           [Byte.x00; Byte.x00; Byte.x01; Byte.x00] [] [Byte.x09]).
  reflexivity.
Defined.

(** X17.  [save] writes the 26 header bytes and four zero bytes.  Read from the
    start of a stream, [read_header] takes the header back and accepts it
    exactly when it carries ["8BPS"] and version 1, and [read_color_mode]
    then accepts the four zero bytes. *)
Theorem save_then_read (indet : byte) (d d0 : psd.t) (rest : list byte)
    (out : ostream) :
  psd.save d out
  = (true, out ++ raw_bytes (psd.header d) ++ repeat Byte.x00 4)
  /\ psd.read_header d0 (istream_of (snd (psd.save d []) ++ rest))
     = (bytes_eqb (psd.header_signature d) magic_8BPS
        && (psd.header_version d =? 1),
        psd.set_header (psd.header d) d0,
        mkIstream (raw_bytes (psd.header d)) (repeat Byte.x00 4 ++ rest)
          false)
  /\ psd.read_color_mode indet (psd.set_header (psd.header d) d0)
       (mkIstream (raw_bytes (psd.header d)) (repeat Byte.x00 4 ++ rest)
          false)
     = (true, psd.set_header (psd.header d) d0,
        mkIstream (raw_bytes (psd.header d) ++ repeat Byte.x00 4) rest false).
Proof.
  assert (S : forall o, psd.save d o
                        = (true, o ++ raw_bytes (psd.header d)
                                   ++ repeat Byte.x00 4)).
  { intros o. unfold psd.save, psd.write_header, psd.write_color_mode,
      stream_write. cbn [negb]. now rewrite <- app_assoc. }
  split; [apply S|]. split.
  - rewrite (S []). cbn [snd]. unfold psd.read_header, istream_of, seekg_start.
    cbn [failbit consumed pending app].
    rewrite <- app_assoc.
    rewrite (stream_read_app (raw_bytes (psd.header d)))
      by (now rewrite len_raw_bytes).
    rewrite raw_of_bytes. cbn [app].
    unfold psd.header_signature, psd.header_version, psd.set_header.
    cbn [psd.header].
    destruct (bytes_eqb _ magic_8BPS); cbn [negb andb]; [|reflexivity].
    destruct (_ =? 1); reflexivity.
  - unfold psd.read_color_mode.
    rewrite (stream_read_app (repeat Byte.x00 4)) by reflexivity.
    reflexivity.
Qed.

Lemma empty_section_bytes : section_bytes [] = [].
Proof. reflexivity. Qed.

(** X18.  A stream that holds, from its first byte, a header with ["8BPS"] and
    version 1 and then three sections of declared length zero is loaded:
    [load] returns true from any position, the document is valid with that
    header and no image resource, its layer info is untouched, and the 38
    bytes are consumed. *)
Theorem load_empty_sections
    (indet : byte) (wchar_of_char : byte -> Z) (new_ExtraData : ExtraData.t)
    (new_Layer : Layer.t) (new_ImageResourceBlock : ImageResourceBlock.t)
    (d : psd.t) (h : raw psd.sizeof_header) (before after rest : list byte) :
  firstn 4 (raw_bytes h) = magic_8BPS ->
  be_val (firstn 2 (skipn 4 (raw_bytes h))) = 1 ->
  before ++ after = raw_bytes h ++ repeat Byte.x00 12 ++ rest ->
  psd.load indet wchar_of_char new_ExtraData new_Layer new_ImageResourceBlock
    d (mkIstream before after false)
  = (Returns true, psd.mk h [] (psd.layer_info d) true,
     mkIstream (raw_bytes h ++ repeat Byte.x00 12) rest false).
Proof.
  intros Hsig Hver Hbytes. unfold psd.load, psd.read_header, seekg_start.
  cbn [failbit consumed pending]. rewrite Hbytes.
  rewrite (stream_read_app (raw_bytes h)) by (now rewrite len_raw_bytes).
  rewrite raw_of_bytes.
  unfold psd.header_signature, psd.header_version, psd.set_header.
  cbn [psd.header psd.image_resources psd.layer_info psd.valid_].
  rewrite Hsig, Hver, bytes_eqb_refl. cbn [negb Z.eqb Pos.eqb].
  unfold psd.read_color_mode.
  change (repeat Byte.x00 12 ++ rest)
    with (repeat Byte.x00 4 ++ repeat Byte.x00 4 ++ repeat Byte.x00 4 ++ rest).
  rewrite (stream_read_app (repeat Byte.x00 4)) by reflexivity.
  change (be_val (repeat Byte.x00 4) =? 0) with true. cbn [negb].
  pose proof (read_section indet new_ImageResourceBlock
                (psd.mk h (psd.image_resources d) (psd.layer_info d)
                   (psd.valid_ d))
                [] ([] ++ raw_bytes h ++ repeat Byte.x00 4)
                (repeat Byte.x00 4 ++ rest) (Forall_nil _)) as R.
  rewrite empty_section_bytes in R. cbn [app] in R.
  change (be_bytes 4 (len [])) with (repeat Byte.x00 4) in R.
  cbn [app]. rewrite R by (vm_compute; reflexivity).
  unfold psd.read_layers_and_masks.
  rewrite (stream_read_app (repeat Byte.x00 4)) by reflexivity.
  change (be_val (repeat Byte.x00 4) =? 0) with true.
  unfold psd.set_image_resources, psd.set_valid_.
  cbn [psd.header psd.image_resources psd.layer_info psd.valid_].
  rewrite <- !app_assoc. reflexivity.
Qed.

Lemma load_empty_sections_witness :
  psd.load Byte.xff wchar_signed blank_extra blank_layer blank_block
    two_block_document
    (mkIstream (firstn 10 minimal_document) (skipn 10 minimal_document ++
                                             [Byte.x2a]) false)
  = (Returns true,
     psd.mk (raw_of psd.sizeof_header minimal_header) []
       (psd.layer_info two_block_document) true,
     mkIstream
       (raw_bytes (raw_of psd.sizeof_header minimal_header)
        ++ repeat Byte.x00 12) [Byte.x2a] false).
Proof.
  apply (load_empty_sections Byte.xff wchar_signed blank_extra blank_layer
           blank_block two_block_document
           (raw_of psd.sizeof_header minimal_header)
           (firstn 10 minimal_document)
           (skipn 10 minimal_document ++ [Byte.x2a]) [Byte.x2a]);
    vm_compute; reflexivity.
Defined.

(** ** Layer Record: read *)

Lemma seekg_cur_app (xs rest pre : list byte) (n : Z) :
  n = len xs ->
  seekg_cur n (mkIstream pre (xs ++ rest) false)
  = mkIstream (pre ++ xs) rest false.
Proof.
  intros ->. unfold seekg_cur. cbn [failbit pending consumed].
  rewrite len_app. pose proof (len_nonneg rest).
  destruct (Z.leb_spec (len xs) (len xs + len rest)); [|lia].
  unfold len. rewrite Nat2Z.id.
  rewrite firstn_app, firstn_all, Nat.sub_diag, firstn_O, app_nil_r.
  rewrite skipn_app, skipn_all, Nat.sub_diag. reflexivity.
Qed.

Lemma mask_read_wire (m m0 : LayerMask.t) (pre rest : list byte) :
  mask_fits m ->
  LayerMask.read m0 (mkIstream pre (mask_wire m ++ rest) false)
  = (true, mask_after m m0, mkIstream (pre ++ mask_wire m) rest false).
Proof.
  intros Hm. unfold mask_wire, mask_after, LayerMask.read.
  destruct (Z.eqb_spec (be_get (LayerMask.length m)) 0) as [E|E].
  - rewrite (stream_read_app (raw_bytes (LayerMask.length m)))
      by (now rewrite len_raw_bytes).
    cbn [LayerMask.length LayerMask.top LayerMask.additional_data].
    now rewrite raw_of_bytes, E.
  - destruct Hm as [Hm|Hm]; [contradiction|].
    destruct m as [l t ad].
    cbn [LayerMask.length LayerMask.top LayerMask.additional_data] in *.
    unfold mask_bytes.
    cbn [LayerMask.length LayerMask.top LayerMask.additional_data].
    rewrite <- !app_assoc.
    rewrite (stream_read_app (raw_bytes l)) by (now rewrite len_raw_bytes).
    rewrite raw_of_bytes.
    destruct (Z.eqb_spec (be_get l) 0); [contradiction|]. cbn [negb].
    rewrite (stream_read_app (raw_bytes t)) by (now rewrite len_raw_bytes).
    assert (HL32 : be_get l < 2 ^ 32).
    { unfold be_get. pose proof (be_val_bound (raw_bytes l)) as B.
      rewrite raw_bytes_length in B. exact B. }
    pose proof (len_nonneg ad).
    replace (wrap32 (be_get l - (4 * 4 + 2))) with (len ad)
      by (unfold wrap32; rewrite Z.mod_small; lia).
    rewrite (stream_read_app ad) by reflexivity.
    rewrite raw_of_bytes. now rewrite <- !app_assoc.
Qed.

Lemma blending_read_wire (indet : byte) (r0 : LayerBlendingRanges.t)
    (d pre rest : list byte) :
  len d < 2 ^ 32 ->
  LayerBlendingRanges.read indet r0
    (mkIstream pre ((be_bytes 4 (len d) ++ d) ++ rest) false)
  = (true, LayerBlendingRanges.mk d,
     mkIstream (pre ++ be_bytes 4 (len d) ++ d) rest false).
Proof.
  intros Hd. pose proof (len_nonneg d).
  unfold LayerBlendingRanges.read. rewrite <- app_assoc.
  rewrite (stream_read_app (be_bytes 4 (len d))) by (now rewrite len_be_bytes).
  rewrite be_val_bytes_small
    by (change (256 ^ Z.of_nat 4) with (2 ^ 32); lia).
  rewrite (stream_read_app d) by reflexivity.
  now rewrite <- !app_assoc.
Qed.

Lemma extra_read_wire (e0 e : ExtraData.t) (pre rest : list byte) :
  extra_fits e ->
  ExtraData.read e0 (mkIstream pre (extra_wire e ++ rest) false)
  = (true, e, mkIstream (pre ++ extra_wire e) rest false).
Proof.
  intros [Ha Hl]. destruct e as [sg key l d]. unfold accepted in Ha.
  cbn [ExtraData.signature ExtraData.key ExtraData.length ExtraData.data] in *.
  unfold ExtraData.read, extra_wire.
  cbn [ExtraData.signature ExtraData.key ExtraData.length ExtraData.data].
  rewrite <- !app_assoc.
  rewrite (stream_read_app (raw_bytes sg)) by (now rewrite len_raw_bytes).
  rewrite raw_of_bytes.
  replace (negb (sig_eqb sg magic_8BIM) && negb (sig_eqb sg magic_8B64))
    with false
    by (destruct (sig_eqb sg magic_8BIM), (sig_eqb sg magic_8B64);
        simpl in *; congruence).
  rewrite (stream_read_app (raw_bytes key)) by (now rewrite len_raw_bytes).
  rewrite (stream_read_app (raw_bytes l)) by (now rewrite len_raw_bytes).
  rewrite !raw_of_bytes, Hl.
  rewrite (stream_read_app d) by reflexivity.
  now rewrite <- !app_assoc.
Qed.

Lemma len_extra_wire_min (e : ExtraData.t) : 12 <= len (extra_wire e).
Proof.
  unfold extra_wire. rewrite !len_app, !len_raw_bytes.
  pose proof (len_nonneg (ExtraData.data e)). lia.
Qed.

Lemma len_extras_ge (eds : list ExtraData.t) :
  12 * Z.of_nat (length eds) <= len (flat_map extra_wire eds).
Proof.
  induction eds as [|e eds IH]; [unfold len; simpl; lia|].
  cbn [flat_map length]. rewrite len_app.
  pose proof (len_extra_wire_min e). lia.
Qed.

(** The loop over the extra data reads a chain of readable blocks and
    stops where the declared length is reached. *)
Lemma read_extra_data_chain (new_ExtraData : ExtraData.t)
    (eds : list ExtraData.t) :
  Forall extra_fits eds ->
  forall (fuel : nat) (start_pos length : Z) (acc : list ExtraData.t)
         (pre rest : list byte),
    (List.length eds < fuel)%nat ->
    len pre - start_pos + len (flat_map extra_wire eds) = length ->
    Layer.read_extra_data new_ExtraData fuel start_pos length acc
      (mkIstream pre (flat_map extra_wire eds ++ rest) false)
    = (Returns true, acc ++ eds,
       mkIstream (pre ++ flat_map extra_wire eds) rest false).
Proof.
  induction 1 as [|e eds He Heds IH]; intros fuel start_pos length acc pre
    rest Hfuel Hpos.
  - destruct fuel as [|fuel]; [simpl in Hfuel; lia|].
    cbn [Layer.read_extra_data flat_map]. unfold tellg.
    cbn [failbit consumed]. cbn [flat_map] in Hpos.
    change (len []) with 0 in Hpos.
    destruct (Z.ltb_spec (len pre - start_pos) length); [lia|].
    cbn [app]. now rewrite !app_nil_r.
  - destruct fuel as [|fuel]; [simpl in Hfuel; lia|].
    cbn [Layer.read_extra_data flat_map]. unfold tellg.
    cbn [failbit consumed].
    cbn [flat_map] in Hpos. rewrite len_app in Hpos.
    pose proof (len_extra_wire_min e). pose proof (len_extras_ge eds).
    destruct (Z.ltb_spec (len pre - start_pos) length); [|lia].
    rewrite <- app_assoc.
    rewrite (extra_read_wire new_ExtraData e pre _ He). cbn [negb].
    rewrite (IH fuel start_pos length (acc ++ [e]) (pre ++ extra_wire e) rest).
    + now rewrite <- !app_assoc.
    + simpl in Hfuel. lia.
    + rewrite len_app. lia.
Qed.

Lemma read_channels_wire (indet : byte) (cis acc : list (raw 2 * raw 4))
    (pre rest : list byte) :
  Layer.read_channel_infos indet (length cis) acc
    (mkIstream pre (channel_bytes cis ++ rest) false)
  = (acc ++ cis, mkIstream (pre ++ channel_bytes cis) rest false).
Proof.
  revert acc pre. induction cis as [|[a b] cis IH]; intros acc pre.
  - cbn. now rewrite !app_nil_r.
  - cbn [length Layer.read_channel_infos channel_bytes flat_map fst snd].
    fold (channel_bytes cis).
    rewrite <- (app_assoc (raw_bytes a ++ raw_bytes b)).
    rewrite (stream_read_app (raw_bytes a ++ raw_bytes b))
      by (rewrite len_app, !len_raw_bytes; reflexivity).
    replace (raw_of 2 (firstn 2 (raw_bytes a ++ raw_bytes b))) with a
      by (destruct a as [x [y []]]; reflexivity).
    replace (raw_of 4 (skipn 2 (raw_bytes a ++ raw_bytes b))) with b
      by (destruct a as [x [y []]];
          change (@raw_bytes 2 (x, (y, tt))) with [x; y];
          cbn [app skipn]; symmetry; apply raw_of_bytes).
    rewrite IH. now rewrite <- !app_assoc.
Qed.

Lemma layer_read_wire (indet : byte) (wchar_of_char : byte -> Z)
    (new_ExtraData : ExtraData.t) (l l0 : Layer.t)
    (fill pre rest : list byte) :
  layer_fits l fill ->
  Layer.read indet wchar_of_char new_ExtraData l0
    (mkIstream pre (layer_wire l fill ++ rest) false)
  = (Returns true, layer_after indet wchar_of_char l l0,
     mkIstream (pre ++ layer_wire l fill) rest false).
Proof.
  intros (Hnc & Hsig & Hmask & Hbr & Hname & Hfill & Heds & Hedl).
  destruct l as [tp cis bs m [brd] nm wn un eds ht].
  unfold Layer.num_channels, Layer.extra_data_length in *.
  cbn [Layer.top Layer.channel_infos Layer.blend_signature Layer.mask
       Layer.blending_ranges Layer.name Layer.additional_extra_data
       LayerBlendingRanges.data] in *.
  pose proof (len_nonneg nm) as Hn0.
  unfold Layer.read, layer_wire.
  cbn [Layer.top Layer.channel_infos Layer.blend_signature Layer.mask
       Layer.blending_ranges Layer.name Layer.additional_extra_data
       Layer.wname Layer.utf8name Layer.has_text].
  rewrite <- !app_assoc.
  rewrite (stream_read_app (raw_bytes tp)) by (now rewrite len_raw_bytes).
  rewrite raw_of_bytes.
  unfold Layer.num_channels. cbn [Layer.top Layer.channel_infos].
  rewrite Hnc, Nat2Z.id, read_channels_wire.
  rewrite (stream_read_app (raw_bytes bs)) by (now rewrite len_raw_bytes).
  rewrite raw_of_bytes.
  cbn [Layer.top Layer.channel_infos Layer.blend_signature Layer.mask
       Layer.blending_ranges Layer.name Layer.additional_extra_data
       Layer.wname Layer.utf8name Layer.has_text].
  rewrite Hsig, bytes_eqb_refl. cbn [negb].
  unfold layer_extra_wire.
  cbn [Layer.mask Layer.blending_ranges Layer.name
       Layer.additional_extra_data LayerBlendingRanges.data].
  rewrite <- !app_assoc.
  rewrite (mask_read_wire m (Layer.mask l0) _ _ Hmask). cbn [negb].
  rewrite (app_assoc (be_bytes 4 (len brd)) brd).
  rewrite (blending_read_wire indet (Layer.blending_ranges l0) brd _ _ Hbr).
  cbn [negb].
  change ((byte.of_Z (len nm) :: nm) ++ fill
          ++ flat_map extra_wire eds ++ rest)
    with ([byte.of_Z (len nm)] ++ nm ++ fill
          ++ flat_map extra_wire eds ++ rest).
  rewrite (stream_read_app [byte.of_Z (len nm)]) by reflexivity.
  cbn [hd]. rewrite byte.unsigned_of_Z. unfold byte.wrap.
  rewrite (Z.mod_small (len nm)) by lia.
  rewrite (stream_read_app nm) by reflexivity.
  match goal with
  | |- context [if Layer.name_filler (len nm) =? 0 then ?g
                else seekg_cur (Layer.name_filler (len nm)) ?g] =>
      replace (if Layer.name_filler (len nm) =? 0 then g
               else seekg_cur (Layer.name_filler (len nm)) g)
        with (mkIstream (consumed g ++ fill)
                (flat_map extra_wire eds ++ rest) false)
  end.
  2: { cbn [consumed]. destruct (Z.eqb_spec (Layer.name_filler (len nm)) 0)
         as [E|E].
       - destruct fill; [now rewrite app_nil_r|].
         rewrite E in Hfill. unfold len in Hfill. simpl in Hfill. lia.
       - symmetry. apply seekg_cur_app. now symmetry. }
  cbn [consumed pending].
  unfold Layer.extra_data_length. cbn [Layer.blend_signature].
  rewrite (read_extra_data_chain new_ExtraData eds Heds).
  - unfold layer_after.
    cbn [Layer.top Layer.channel_infos Layer.blend_signature Layer.mask
         Layer.blending_ranges Layer.name Layer.additional_extra_data
         Layer.wname Layer.utf8name Layer.has_text].
    destruct (Layer.scan_extra_data indet _ _) as [[w u] h].
    cbn [fst snd]. f_equal. f_equal. now rewrite <- !app_assoc.
  - pose proof (len_extras_ge eds). rewrite length_app. unfold len in *. lia.
  - unfold tellg. cbn [failbit consumed].
    rewrite Hedl. unfold layer_extra_wire.
    cbn [Layer.mask Layer.blending_ranges Layer.name
         Layer.additional_extra_data LayerBlendingRanges.data].
    rewrite !len_app, !len_cons. change (len []) with 0. lia.
Qed.

(** X19.  [Layer::read] on a record whose fields agree with one another: it
    returns true, consumes exactly the record, and the object holds the
    record's fields, with the channel table and the extra data appended
    to what the object held and the names and the rich-text flag taken
    from the scan over the extra data. *)
Theorem layer_read_record (indet : byte) (wchar_of_char : byte -> Z)
    (new_ExtraData : ExtraData.t) (l l0 : Layer.t)
    (fill pre rest : list byte) :
  layer_fits l fill ->
  Layer.read indet wchar_of_char new_ExtraData l0
    (mkIstream pre (layer_wire l fill ++ rest) false)
  = (Returns true, layer_after indet wchar_of_char l l0,
     mkIstream (pre ++ layer_wire l fill) rest false).
Proof. apply layer_read_wire. Qed.

Lemma layer_ab_extras :
  Layer.additional_extra_data layer_ab
  = [luni_block [Byte.x00; Byte.x00; Byte.x00; Byte.x01; Byte.x03; Byte.xa9]].
Proof. vm_compute. reflexivity. Qed.

Lemma layer_ab_fits : layer_fits layer_ab layer_ab_fill.
Proof.
  unfold layer_fits.
  split; [vm_compute; reflexivity|].
  split; [vm_compute; reflexivity|].
  split; [left; vm_compute; reflexivity|].
  split; [vm_compute; reflexivity|].
  split; [vm_compute; discriminate|].
  split; [vm_compute; reflexivity|].
  split; [|vm_compute; reflexivity].
  rewrite layer_ab_extras.
  apply Forall_cons; [|apply Forall_nil].
  split; vm_compute; reflexivity.
Qed.

Lemma layer_read_record_witness :
  Layer.read Byte.xff wchar_signed blank_extra blank_layer
    (mkIstream [Byte.x2a] (layer_wire layer_ab layer_ab_fill ++ [Byte.xee])
       false)
  = (Returns true, layer_after Byte.xff wchar_signed layer_ab blank_layer,
     mkIstream ([Byte.x2a] ++ layer_wire layer_ab layer_ab_fill) [Byte.xee]
       false).
Proof.
  apply (layer_read_record Byte.xff wchar_signed blank_extra layer_ab
           blank_layer layer_ab_fill [Byte.x2a] [Byte.xee]).
  exact layer_ab_fits.
Defined.

(** X20.  A record whose blend signature is not ["8BIM"] is refused right
    behind the 16 bytes that hold it: [read] returns false, the 18 bytes,
    the channel table and the 16 bytes have been stored, and mask,
    blending ranges, name and extra data are what the object held. *)
Theorem layer_read_bad_blend (indet : byte) (wchar_of_char : byte -> Z)
    (new_ExtraData : ExtraData.t) (l0 : Layer.t) (tp : raw 18)
    (cis : list (raw 2 * raw 4)) (bs : raw 16) (pre rest : list byte) :
  be_val (skipn 16 (raw_bytes tp)) = Z.of_nat (length cis) ->
  firstn 4 (raw_bytes bs) <> magic_8BIM ->
  Layer.read indet wchar_of_char new_ExtraData l0
    (mkIstream pre
       (raw_bytes tp ++ channel_bytes cis ++ raw_bytes bs ++ rest) false)
  = (Returns false,
     Layer.mk tp (Layer.channel_infos l0 ++ cis) bs (Layer.mask l0)
       (Layer.blending_ranges l0) (Layer.name l0) (Layer.wname l0)
       (Layer.utf8name l0) (Layer.additional_extra_data l0)
       (Layer.has_text l0),
     mkIstream (pre ++ raw_bytes tp ++ channel_bytes cis ++ raw_bytes bs)
       rest false).
Proof.
  intros Hnc Hsig. unfold Layer.read.
  rewrite (stream_read_app (raw_bytes tp)) by (now rewrite len_raw_bytes).
  rewrite raw_of_bytes.
  unfold Layer.num_channels. cbn [Layer.top Layer.channel_infos].
  rewrite Hnc, Nat2Z.id, read_channels_wire.
  rewrite (stream_read_app (raw_bytes bs)) by (now rewrite len_raw_bytes).
  rewrite raw_of_bytes.
  cbn [Layer.top Layer.channel_infos Layer.blend_signature Layer.mask
       Layer.blending_ranges Layer.name Layer.additional_extra_data
       Layer.wname Layer.utf8name Layer.has_text].
  destruct (bytes_eqb magic_8BIM (firstn 4 (raw_bytes bs))) eqn:B.
  - apply bytes_eqb_eq in B. congruence.
  - cbn [negb]. now rewrite <- !app_assoc.
Qed.

Lemma layer_read_bad_blend_witness :
  Layer.read Byte.xff wchar_signed blank_extra blank_layer
    (mkIstream []
       (raw_bytes (raw_of 18 (repeat Byte.x00 16 ++ [Byte.x00; Byte.x02]))
        ++ channel_bytes sample_channels
        ++ raw_bytes (raw_of 16 (magic_8BPS ++ repeat Byte.x00 12))
        ++ [Byte.xee]) false)
  = (Returns false,
     Layer.mk (raw_of 18 (repeat Byte.x00 16 ++ [Byte.x00; Byte.x02]))
       (Layer.channel_infos blank_layer ++ sample_channels)
       (raw_of 16 (magic_8BPS ++ repeat Byte.x00 12))
       (Layer.mask blank_layer) (Layer.blending_ranges blank_layer)
       (Layer.name blank_layer) (Layer.wname blank_layer)
       (Layer.utf8name blank_layer) (Layer.additional_extra_data blank_layer)
       (Layer.has_text blank_layer),
     mkIstream
       ([] ++ raw_bytes (raw_of 18 (repeat Byte.x00 16 ++ [Byte.x00; Byte.x02]))
        ++ channel_bytes sample_channels
        ++ raw_bytes (raw_of 16 (magic_8BPS ++ repeat Byte.x00 12)))
       [Byte.xee] false).
Proof.
  apply (layer_read_bad_blend Byte.xff wchar_signed blank_extra blank_layer
           (raw_of 18 (repeat Byte.x00 16 ++ [Byte.x00; Byte.x02]))
           sample_channels (raw_of 16 (magic_8BPS ++ repeat Byte.x00 12))
           [] [Byte.xee]).
  - vm_compute. reflexivity.
  - vm_compute. discriminate.
Defined.

(** ** Layer Info Section: the layers *)


Lemma read_layers_wire (indet : byte) (wchar_of_char : byte -> Z)
    (new_ExtraData : ExtraData.t) (new_Layer : Layer.t)
    (ls : list (Layer.t * list byte)) :
  Forall (fun p => layer_fits (fst p) (snd p)) ls ->
  forall (li : LayerInfo.t) (pre rest : list byte),
    LayerInfo.read_layers indet wchar_of_char new_ExtraData new_Layer
      (length ls) li (mkIstream pre (layers_wire ls ++ rest) false)
    = (Returns true,
       LayerInfo.mk (LayerInfo.num_layers li)
         (LayerInfo.has_merged_alpha_channel li)
         (LayerInfo.layers li
          ++ map (fun p => layer_after indet wchar_of_char (fst p) new_Layer)
               ls),
       mkIstream (pre ++ layers_wire ls) rest false).
Proof.
  induction 1 as [|[l fill] ls Hl Hls IH]; intros li pre rest.
  - cbn. rewrite !app_nil_r. now destruct li.
  - cbn [length LayerInfo.read_layers layers_wire flat_map fst snd map].
    fold (layers_wire ls). rewrite <- app_assoc.
    cbn [fst snd] in Hl.
    rewrite (layer_read_wire indet wchar_of_char new_ExtraData l new_Layer
               fill pre _ Hl).
    rewrite IH.
    cbn [LayerInfo.num_layers LayerInfo.has_merged_alpha_channel
         LayerInfo.layers].
    now rewrite <- !app_assoc.
Qed.

Lemma read_count_wire (indet : byte) (li : LayerInfo.t)
    (pre lenf rest : list byte) (cnt : raw 2) :
  length lenf = 4%nat ->
  LayerInfo.read_count indet li
    (mkIstream pre (lenf ++ raw_bytes cnt ++ rest) false)
  = (LayerInfo.mk (count_after cnt)
       (if signed16 (be_get cnt) <? 0 then true
        else LayerInfo.has_merged_alpha_channel li)
       (LayerInfo.layers li),
     mkIstream (pre ++ lenf ++ raw_bytes cnt) rest false).
Proof.
  intros Hl. unfold LayerInfo.read_count, count_after.
  rewrite (stream_read_app lenf) by (unfold len; rewrite Hl; reflexivity).
  rewrite (stream_read_app (raw_bytes cnt)) by (now rewrite len_raw_bytes).
  rewrite raw_of_bytes.
  cbn [LayerInfo.num_layers LayerInfo.has_merged_alpha_channel
       LayerInfo.layers].
  rewrite <- app_assoc.
  destruct (signed16 (be_get cnt) <? 0); reflexivity.
Qed.

(** The number of layers the loop asks for is the absolute value of the
    count, for every count but -32768. *)
Lemma iterations_of_count (cnt : raw 2) (alpha : bool)
    (layers : list Layer.t) (n : nat) :
  Z.abs (signed16 (be_get cnt)) = Z.of_nat n ->
  signed16 (be_get cnt) <> - 32768 ->
  LayerInfo.layer_iterations (LayerInfo.mk (count_after cnt) alpha layers)
  = n.
Proof.
  intros Habs Hmin. unfold LayerInfo.layer_iterations.
  cbn [LayerInfo.num_layers]. unfold count_after.
  pose proof (signed16_range (be_get cnt)) as Hr.
  assert (Hv : signed16 (be_get (if signed16 (be_get cnt) <? 0
                                 then be_put 2 (- signed16 (be_get cnt))
                                 else cnt)) = Z.of_nat n).
  { destruct (Z.ltb_spec (signed16 (be_get cnt)) 0).
    - rewrite be_get_put. change (256 ^ Z.of_nat 2) with (2 ^ 16).
      unfold signed16 at 1. unfold wrap16. rewrite Z.mod_mod by lia.
      rewrite (Z.mod_small (- signed16 (be_get cnt))) by lia.
      destruct (Z.ltb_spec (- signed16 (be_get cnt)) (2 ^ 15)); lia.
    - lia. }
  rewrite Hv. unfold wrap32. rewrite Z.mod_small by lia. apply Nat2Z.id.
Qed.

Lemma layer_info_read_wire
    (indet : byte) (wchar_of_char : byte -> Z) (new_ExtraData : ExtraData.t)
    (new_Layer : Layer.t) (li : LayerInfo.t) (cnt : raw 2)
    (ls : list (Layer.t * list byte)) (pre lenf rest : list byte) :
  length lenf = 4%nat ->
  Z.abs (signed16 (be_get cnt)) = Z.of_nat (length ls) ->
  signed16 (be_get cnt) <> - 32768 ->
  Forall (fun p => layer_fits (fst p) (snd p)) ls ->
  LayerInfo.read indet wchar_of_char new_ExtraData new_Layer li
    (mkIstream pre (lenf ++ raw_bytes cnt ++ layers_wire ls ++ rest) false)
  = (Returns true,
     layer_info_after indet wchar_of_char new_Layer cnt ls li,
     mkIstream (pre ++ lenf ++ raw_bytes cnt ++ layers_wire ls) rest false).
Proof.
  intros Hl Habs Hmin Hls. unfold LayerInfo.read.
  rewrite (read_count_wire indet li pre lenf _ cnt Hl).
  rewrite (iterations_of_count cnt _ _ (length ls) Habs Hmin).
  rewrite (read_layers_wire indet wchar_of_char new_ExtraData new_Layer ls
             Hls).
  unfold layer_info_after.
  cbn [LayerInfo.num_layers LayerInfo.has_merged_alpha_channel
       LayerInfo.layers].
  now rewrite <- !app_assoc.
Qed.

(** X21.  [LayerInfo::read] on a section that holds as many well-formed layer
    records as the absolute value of its count: it returns true, ignores
    the four bytes of the declared length, appends one layer per record in
    order, and stops right behind the last record. *)
Theorem layer_info_read_section
    (indet : byte) (wchar_of_char : byte -> Z) (new_ExtraData : ExtraData.t)
    (new_Layer : Layer.t) (li : LayerInfo.t) (cnt : raw 2)
    (ls : list (Layer.t * list byte)) (pre lenf rest : list byte) :
  length lenf = 4%nat ->
  Z.abs (signed16 (be_get cnt)) = Z.of_nat (length ls) ->
  signed16 (be_get cnt) <> - 32768 ->
  Forall (fun p => layer_fits (fst p) (snd p)) ls ->
  LayerInfo.read indet wchar_of_char new_ExtraData new_Layer li
    (mkIstream pre (lenf ++ raw_bytes cnt ++ layers_wire ls ++ rest) false)
  = (Returns true,
     layer_info_after indet wchar_of_char new_Layer cnt ls li,
     mkIstream (pre ++ lenf ++ raw_bytes cnt ++ layers_wire ls) rest false).
Proof. apply layer_info_read_wire. Qed.

Lemma layer_info_read_section_witness :
  LayerInfo.read Byte.xff wchar_signed blank_extra blank_layer
    blank_layer_info
    (mkIstream [Byte.x2a]
       ([Byte.x09; Byte.x09; Byte.x09; Byte.x09]
        ++ raw_bytes (be_put 2 (-2))
        ++ layers_wire [(layer_ab, layer_ab_fill); (layer_ab, layer_ab_fill)]
        ++ [Byte.xee]) false)
  = (Returns true,
     layer_info_after Byte.xff wchar_signed blank_layer (be_put 2 (-2))
       [(layer_ab, layer_ab_fill); (layer_ab, layer_ab_fill)]
       blank_layer_info,
     mkIstream
       ([Byte.x2a] ++ [Byte.x09; Byte.x09; Byte.x09; Byte.x09]
        ++ raw_bytes (be_put 2 (-2))
        ++ layers_wire [(layer_ab, layer_ab_fill); (layer_ab, layer_ab_fill)])
       [Byte.xee] false).
Proof.
  apply (layer_info_read_section Byte.xff wchar_signed blank_extra blank_layer
           blank_layer_info (be_put 2 (-2))
           [(layer_ab, layer_ab_fill); (layer_ab, layer_ab_fill)]
           [Byte.x2a] [Byte.x09; Byte.x09; Byte.x09; Byte.x09] [Byte.xee]).
  - reflexivity.
  - vm_compute. reflexivity.
  - vm_compute. discriminate.
  - apply Forall_cons; [exact layer_ab_fits|].
    apply Forall_cons; [exact layer_ab_fits|apply Forall_nil].
Defined.

(** ** Layer and Mask Information Section *)

Lemma layers_and_masks_wire
    (indet : byte) (wchar_of_char : byte -> Z) (new_ExtraData : ExtraData.t)
    (new_Layer : Layer.t) (d : psd.t) (L : Z) (cnt : raw 2)
    (ls : list (Layer.t * list byte)) (pre lenf tail rest : list byte) :
  0 < L < 2 ^ 32 ->
  length lenf = 4%nat ->
  Z.abs (signed16 (be_get cnt)) = Z.of_nat (length ls) ->
  signed16 (be_get cnt) <> - 32768 ->
  Forall (fun p => layer_fits (fst p) (snd p)) ls ->
  len tail = Z.max 0 (L - (10 + len (layers_wire ls))) ->
  psd.read_layers_and_masks indet wchar_of_char new_ExtraData new_Layer d
    (mkIstream pre
       (be_bytes 4 L ++ lenf ++ raw_bytes cnt ++ layers_wire ls
        ++ tail ++ rest) false)
  = (Returns true,
     psd.set_layer_info
       (layer_info_after indet wchar_of_char new_Layer cnt ls
          (psd.layer_info d)) d,
     mkIstream
       (pre ++ be_bytes 4 L ++ lenf ++ raw_bytes cnt ++ layers_wire ls
        ++ tail) rest false).
Proof.
  intros HL Hlen Habs Hmin Hls Htail. unfold psd.read_layers_and_masks.
  rewrite (stream_read_app (be_bytes 4 L)) by (now rewrite len_be_bytes).
  rewrite be_val_bytes_small by (change (256 ^ Z.of_nat 4) with (2 ^ 32); lia).
  destruct (Z.eqb_spec L 0) as [E|_]; [lia|].
  pose proof (layer_info_read_wire indet wchar_of_char new_ExtraData
                new_Layer (psd.layer_info d) cnt ls (pre ++ be_bytes 4 L)
                lenf (tail ++ rest) Hlen Habs Hmin Hls) as R.
  rewrite R. unfold tellg. cbn [failbit consumed].
  rewrite !len_app, len_be_bytes, len_raw_bytes.
  assert (Hl4 : len lenf = 4) by (unfold len; now rewrite Hlen).
  rewrite Hl4. change (Z.of_nat 4) with 4. change (Z.of_nat 2) with 2.
  replace (len pre + 4 + (4 + (2 + len (layers_wire ls))) - len pre)
    with (10 + len (layers_wire ls)) by lia.
  destruct (Z.ltb_spec (10 + len (layers_wire ls)) L) as [Hlt|Hge].
  - rewrite (stream_read_app tail) by lia.
    now rewrite <- !app_assoc.
  - assert (tail = []) as ->.
    { destruct tail; [reflexivity|]. rewrite len_cons in Htail.
      pose proof (len_nonneg tail). lia. }
    cbn [app]. now rewrite <- !app_assoc, ?app_nil_r.
Qed.

(** X22.  [psd::read_layers_and_masks] on a section with a non-zero length [L]:
    the layers are read into the Layer Info object, and the stream is then
    moved to [L] bytes behind the place where the length field STARTS (the
    four bytes of the field count towards [L]), or stays behind the last
    layer when that is already further. *)
Theorem read_layers_and_masks_section
    (indet : byte) (wchar_of_char : byte -> Z) (new_ExtraData : ExtraData.t)
    (new_Layer : Layer.t) (d : psd.t) (L : Z) (cnt : raw 2)
    (ls : list (Layer.t * list byte)) (pre lenf tail rest : list byte) :
  0 < L < 2 ^ 32 ->
  length lenf = 4%nat ->
  Z.abs (signed16 (be_get cnt)) = Z.of_nat (length ls) ->
  signed16 (be_get cnt) <> - 32768 ->
  Forall (fun p => layer_fits (fst p) (snd p)) ls ->
  len tail = Z.max 0 (L - (10 + len (layers_wire ls))) ->
  psd.read_layers_and_masks indet wchar_of_char new_ExtraData new_Layer d
    (mkIstream pre
       (be_bytes 4 L ++ lenf ++ raw_bytes cnt ++ layers_wire ls
        ++ tail ++ rest) false)
  = (Returns true,
     psd.set_layer_info
       (layer_info_after indet wchar_of_char new_Layer cnt ls
          (psd.layer_info d)) d,
     mkIstream
       (pre ++ be_bytes 4 L ++ lenf ++ raw_bytes cnt ++ layers_wire ls
        ++ tail) rest false).
Proof. apply layers_and_masks_wire. Qed.

Lemma read_layers_and_masks_section_witness :
  psd.read_layers_and_masks Byte.xff wchar_signed blank_extra blank_layer
    two_block_document
    (mkIstream [Byte.x2a]
       (be_bytes 4 77 ++ [Byte.x09; Byte.x09; Byte.x09; Byte.x09]
        ++ raw_bytes (be_put 2 1) ++ layers_wire [(layer_ab, layer_ab_fill)]
        ++ [Byte.x01; Byte.x02; Byte.x03] ++ [Byte.xee]) false)
  = (Returns true,
     psd.set_layer_info
       (layer_info_after Byte.xff wchar_signed blank_layer (be_put 2 1)
          [(layer_ab, layer_ab_fill)] (psd.layer_info two_block_document))
       two_block_document,
     mkIstream
       ([Byte.x2a] ++ be_bytes 4 77 ++ [Byte.x09; Byte.x09; Byte.x09; Byte.x09]
        ++ raw_bytes (be_put 2 1) ++ layers_wire [(layer_ab, layer_ab_fill)]
        ++ [Byte.x01; Byte.x02; Byte.x03]) [Byte.xee] false).
Proof.
  apply (read_layers_and_masks_section Byte.xff wchar_signed blank_extra
           blank_layer two_block_document 77 (be_put 2 1)
           [(layer_ab, layer_ab_fill)] [Byte.x2a]
           [Byte.x09; Byte.x09; Byte.x09; Byte.x09]
           [Byte.x01; Byte.x02; Byte.x03] [Byte.xee]).
  - lia.
  - reflexivity.
  - vm_compute. reflexivity.
  - vm_compute. discriminate.
  - apply Forall_cons; [exact layer_ab_fits|apply Forall_nil].
  - vm_compute. reflexivity.
Defined.

(** ** Loading a whole document *)

(** X23.  [psd::load] on a well-formed document (a header with the magic and
    version 1, a zero colour mode length, a resources section of readable
    blocks, a layer section of well-formed records): it returns true, the
    object holds the header, the blocks and the layers, the valid flag is
    set, and the stream is left where the layer section stops it, wherever
    the stream stood before. *)
Theorem load_document
    (indet : byte) (wchar_of_char : byte -> Z) (new_ExtraData : ExtraData.t)
    (new_Layer : Layer.t) (new_ImageResourceBlock : ImageResourceBlock.t)
    (d : psd.t) (h : raw psd.sizeof_header) (bs : list ImageResourceBlock.t)
    (L : Z) (cnt : raw 2) (ls : list (Layer.t * list byte))
    (lenf tail before after rest : list byte) :
  firstn 4 (raw_bytes h) = magic_8BPS ->
  be_val (firstn 2 (skipn 4 (raw_bytes h))) = 1 ->
  Forall readable_block bs ->
  len (section_bytes bs) < 2 ^ 32 ->
  0 < L < 2 ^ 32 ->
  length lenf = 4%nat ->
  Z.abs (signed16 (be_get cnt)) = Z.of_nat (length ls) ->
  signed16 (be_get cnt) <> - 32768 ->
  Forall (fun p => layer_fits (fst p) (snd p)) ls ->
  len tail = Z.max 0 (L - (10 + len (layers_wire ls))) ->
  before ++ after
  = raw_bytes h ++ repeat Byte.x00 4
    ++ be_bytes 4 (len (section_bytes bs)) ++ section_bytes bs
    ++ be_bytes 4 L ++ lenf ++ raw_bytes cnt ++ layers_wire ls
    ++ tail ++ rest ->
  psd.load indet wchar_of_char new_ExtraData new_Layer new_ImageResourceBlock
    d (mkIstream before after false)
  = (Returns true,
     psd.mk h bs
       (layer_info_after indet wchar_of_char new_Layer cnt ls
          (psd.layer_info d)) true,
     mkIstream
       (raw_bytes h ++ repeat Byte.x00 4
        ++ be_bytes 4 (len (section_bytes bs)) ++ section_bytes bs
        ++ be_bytes 4 L ++ lenf ++ raw_bytes cnt ++ layers_wire ls ++ tail)
       rest false).
Proof.
  intros Hsig Hver Hbs Hsz HL Hlen Habs Hmin Hls Htail Hbytes.
  unfold psd.load, psd.read_header, seekg_start.
  cbn [failbit consumed pending]. rewrite Hbytes.
  rewrite (stream_read_app (raw_bytes h)) by (now rewrite len_raw_bytes).
  rewrite raw_of_bytes.
  unfold psd.header_signature, psd.header_version, psd.set_header.
  cbn [psd.header psd.image_resources psd.layer_info psd.valid_].
  rewrite Hsig, Hver, bytes_eqb_refl. cbn [negb Z.eqb Pos.eqb].
  unfold psd.read_color_mode.
  rewrite (stream_read_app (repeat Byte.x00 4)) by reflexivity.
  change (be_val (repeat Byte.x00 4) =? 0) with true. cbn [negb].
  rewrite (read_section indet new_ImageResourceBlock _ bs _ _ Hbs Hsz).
  rewrite (layers_and_masks_wire indet wchar_of_char new_ExtraData new_Layer
             _ L cnt ls _ lenf tail rest HL Hlen Habs Hmin Hls Htail).
  unfold psd.set_image_resources, psd.set_layer_info, psd.set_valid_.
  cbn [psd.header psd.image_resources psd.layer_info psd.valid_ app].
  rewrite <- !app_assoc. reflexivity.
Qed.

Lemma load_document_witness :
  psd.load Byte.xff wchar_signed blank_extra blank_layer blank_block
    blank_document
    (mkIstream [Byte.x38; Byte.x42]
       (skipn 2
          (minimal_header ++ repeat Byte.x00 4
           ++ be_bytes 4 26 ++ section_bytes [block_a; block_noname]
           ++ be_bytes 4 77 ++ [Byte.x09; Byte.x09; Byte.x09; Byte.x09]
           ++ raw_bytes (be_put 2 1)
           ++ layers_wire [(layer_ab, layer_ab_fill)]
           ++ [Byte.x01; Byte.x02; Byte.x03] ++ [Byte.xee])) false)
  = (Returns true,
     psd.mk (raw_of psd.sizeof_header minimal_header)
       [block_a; block_noname]
       (layer_info_after Byte.xff wchar_signed blank_layer (be_put 2 1)
          [(layer_ab, layer_ab_fill)] (psd.layer_info blank_document)) true,
     mkIstream
       (raw_bytes (raw_of psd.sizeof_header minimal_header)
        ++ repeat Byte.x00 4
        ++ be_bytes 4 (len (section_bytes [block_a; block_noname]))
        ++ section_bytes [block_a; block_noname]
        ++ be_bytes 4 77 ++ [Byte.x09; Byte.x09; Byte.x09; Byte.x09]
        ++ raw_bytes (be_put 2 1) ++ layers_wire [(layer_ab, layer_ab_fill)]
        ++ [Byte.x01; Byte.x02; Byte.x03]) [Byte.xee] false).
Proof.
  apply (load_document Byte.xff wchar_signed blank_extra blank_layer
           blank_block blank_document
           (raw_of psd.sizeof_header minimal_header)
           [block_a; block_noname] 77 (be_put 2 1)
           [(layer_ab, layer_ab_fill)]
           [Byte.x09; Byte.x09; Byte.x09; Byte.x09]
           [Byte.x01; Byte.x02; Byte.x03]).
  - vm_compute. reflexivity.
  - vm_compute. reflexivity.
  - apply Forall_cons; [vm_compute; intuition congruence|].
    apply Forall_cons; [vm_compute; intuition congruence|apply Forall_nil].
  - vm_compute. reflexivity.
  - lia.
  - reflexivity.
  - vm_compute. reflexivity.
  - vm_compute. discriminate.
  - apply Forall_cons; [exact layer_ab_fits|apply Forall_nil].
  - vm_compute. reflexivity.
  - vm_compute. reflexivity.
Defined.

(** ** Image resource section: a block that is refused *)

Lemma block_read_bad_signature (indet : byte) (b0 : ImageResourceBlock.t)
    (bad pre rest : list byte) :
  length bad = 4%nat ->
  bad <> magic_8BIM ->
  ImageResourceBlock.read indet b0 (mkIstream pre (bad ++ rest) false)
  = (false,
     ImageResourceBlock.mk (raw_of 4 bad)
       (ImageResourceBlock.image_resource_id b0) (ImageResourceBlock.name b0)
       (ImageResourceBlock.buffer b0),
     mkIstream (pre ++ bad) rest false).
Proof.
  intros Hlen Hbad. unfold ImageResourceBlock.read.
  rewrite (stream_read_app bad) by (unfold len; now rewrite Hlen).
  cbn [ImageResourceBlock.signature]. unfold sig_eqb.
  rewrite (raw_bytes_of 4 bad Hlen).
  destruct (bytes_eqb bad magic_8BIM) eqn:B; [|reflexivity].
  apply bytes_eqb_eq in B. contradiction.
Qed.

Lemma read_blocks_refused (indet : byte) (new_block : ImageResourceBlock.t)
    (bs : list ImageResourceBlock.t) (bad : list byte) :
  Forall readable_block bs ->
  length bad = 4%nat ->
  bad <> magic_8BIM ->
  forall (fuel : nat) (start_pos length : Z)
         (acc : list ImageResourceBlock.t) (pre rest : list byte),
    (List.length bs < fuel)%nat ->
    len pre - start_pos + len (section_bytes bs) < length ->
    psd.read_blocks indet new_block fuel start_pos length acc
      (mkIstream pre (section_bytes bs ++ bad ++ rest) false)
    = (Returns false, acc ++ bs,
       mkIstream (pre ++ section_bytes bs ++ bad) rest false).
Proof.
  intros Hbs Hlen Hbad.
  induction Hbs as [|b bs Hb Hbs IH]; intros fuel start_pos length acc pre rest
    Hfuel Hpos.
  - destruct fuel as [|fuel]; [simpl in Hfuel; lia|].
    cbn [psd.read_blocks]. unfold tellg. cbn [failbit consumed].
    change (len (section_bytes [])) with 0 in Hpos.
    destruct (Z.ltb_spec (len pre - start_pos) length); [|lia].
    cbn [section_bytes flat_map app].
    rewrite (block_read_bad_signature indet new_block bad pre rest Hlen Hbad).
    cbn [negb]. now rewrite app_nil_r.
  - destruct fuel as [|fuel]; [simpl in Hfuel; lia|].
    cbn [psd.read_blocks]. unfold tellg. cbn [failbit consumed].
    rewrite len_section_bytes_cons in Hpos.
    pose proof (len_layout_min b). pose proof (len_section_bytes_ge bs).
    destruct (Z.ltb_spec (len pre - start_pos) length); [|lia].
    change (section_bytes (b :: bs)) with (layout_of b ++ section_bytes bs).
    rewrite <- app_assoc.
    rewrite (read_readable_block indet new_block b pre _ Hb). cbn [negb].
    rewrite (IH fuel start_pos length (acc ++ [b]) (pre ++ layout_of b) rest).
    + now rewrite <- !app_assoc.
    + simpl in Hfuel. lia.
    + rewrite len_app. lia.
Qed.

(** X24.  [psd::read_image_resources] on a section that declares more bytes
    than its readable blocks take, and goes on with four bytes that are
    not ["8BIM"]: it returns false right behind those four bytes; the
    list the object held is gone, and the blocks read before the refused
    one are kept. *)
Theorem read_image_resources_refused
    (indet : byte) (new_block : ImageResourceBlock.t) (d : psd.t)
    (bs : list ImageResourceBlock.t) (L : Z) (bad pre rest : list byte) :
  Forall readable_block bs ->
  len (section_bytes bs) < L < 2 ^ 32 ->
  length bad = 4%nat ->
  bad <> magic_8BIM ->
  psd.read_image_resources indet new_block d
    (mkIstream pre (be_bytes 4 L ++ section_bytes bs ++ bad ++ rest) false)
  = (Returns false, psd.set_image_resources bs d,
     mkIstream (pre ++ be_bytes 4 L ++ section_bytes bs ++ bad) rest false).
Proof.
  intros Hbs HL Hlen Hbad. unfold psd.read_image_resources.
  pose proof (len_section_bytes_ge bs) as Hge.
  rewrite (stream_read_app (be_bytes 4 L)) by (now rewrite len_be_bytes).
  rewrite be_val_bytes_small
    by (change (256 ^ Z.of_nat 4) with (2 ^ 32); lia).
  cbn [pending].
  rewrite (read_blocks_refused indet new_block bs bad Hbs Hlen Hbad).
  - now rewrite <- !app_assoc.
  - rewrite !length_app. unfold len in *. lia.
  - unfold tellg. cbn [failbit consumed]. lia.
Qed.

Lemma read_image_resources_refused_witness :
  psd.read_image_resources Byte.x00 blank_block two_block_document
    (mkIstream [Byte.xee]
       (be_bytes 4 20 ++ section_bytes [block_a] ++ magic_8BPS ++ [Byte.xff])
       false)
  = (Returns false, psd.set_image_resources [block_a] two_block_document,
     mkIstream
       ([Byte.xee] ++ be_bytes 4 20 ++ section_bytes [block_a] ++ magic_8BPS)
       [Byte.xff] false).
Proof.
  apply (read_image_resources_refused Byte.x00 blank_block two_block_document
           [block_a] 20 magic_8BPS [Byte.xee] [Byte.xff]).
  - apply Forall_cons; [vm_compute; intuition congruence|apply Forall_nil].
  - vm_compute. split; reflexivity.
  - reflexivity.
  - discriminate.
Defined.
